(** * GraphStudio: MCP tool orchestration and streaming pipeline

  A shallow embedding of the chat panel's stream decoder
  ([utils/streamParser.js]), tool orchestrator, AI client and [useChat]
  conversation controller ([services/providers.js]), together with the
  properties the specification states about them.

  Conventions.
  - A JavaScript string is a [string]; its characters stand for code units.
  - A JavaScript object used as a dictionary is a [gmap]; [Object.keys] of a
    buffer indexed by integers enumerates the keys in ascending order.
  - A value that may be [undefined] or [null] is an [option].
  - A call that may throw returns an [Exc]; [try]/[catch] is [try_catch].
    A panel's executor may throw any value and returns a [Settled].
  - In-place mutation is rendered as explicit state passing. *)

From Stdlib Require Import Ascii String.
From stdpp Require Import gmap strings list fin_maps sorting.

(** ** JavaScript preliminaries *)

Module JS.

(** An [Error] object: every [throw] of the repository raises
    [new Error(message)]; the built-ins raise [TypeError]/[SyntaxError]. *)
Record Error := mkError { name : string; message : string }.

Inductive Exc (A : Type) : Type :=
| Return (a : A)
| Throw (e : Error).
Arguments Return {A} a.
Arguments Throw {A} e.

Definition bind {A B} (m : Exc A) (k : A -> Exc B) : Exc B :=
  match m with
  | Return a => k a
  | Throw e => Throw e
  end.

(** [try { body } catch (error) { handler(error) }] *)
Definition try_catch {A} (body : Exc A) (handler : Error -> Exc A) : Exc A :=
  match body with
  | Return a => Return a
  | Throw e => handler e
  end.

Global Instance Exc_bind : MBind Exc := fun A B k m => bind m k.
Global Instance Exc_ret : MRet Exc := fun A a => Return a.

Definition returns {A} (m : Exc A) : Prop := exists a, m = Return a.
Definition throws {A} (m : Exc A) : Prop := exists e, m = Throw e.

(** Truthiness of a possibly absent string: [undefined], [null] and ['']
    are falsy. *)
Definition truthy (o : option string) : bool :=
  match o with
  | Some s => negb (String.eqb s "")
  | None => false
  end.

Global Arguments truthy : simpl never.

(** [o || ''] *)
Definition or_empty (o : option string) : string := default "" o.

Definition TypeError (msg : string) : Error := mkError "TypeError" msg.
Definition SyntaxError (msg : string) : Error := mkError "SyntaxError" msg.
Definition AbortError : Error := mkError "AbortError" "The user aborted a request.".

(** What a [throw] or a rejected promise carries, as far as a handler that
    reads [error.message] can tell: [null] or [undefined]; or any other value,
    with its [message] property ([None] when it has none, as a string or a
    number has none; a message that is not a string is outside the model). *)
Inductive Thrown :=
| Nullish
| Value (message : option string).

(** An [Error] object as a thrown value *)
Definition ofError (e : Error) : Thrown := Value (Some (message e)).

(** How a call of code that is not the repository's own settles: it returns
    (its promise resolves), or it throws (its promise rejects) with any
    value. *)
Inductive Settled (A : Type) : Type :=
| Resolved (a : A)
| Rejected (reason : Thrown).
Arguments Resolved {A} a.
Arguments Rejected {A} reason.

(** [error.message] on a caught value: the read raises a [TypeError] on
    [null] and [undefined]. *)
Definition read_message (error : Thrown) : Exc (option string) :=
  match error with
  | Nullish => Throw (TypeError "Cannot read properties of undefined (reading 'message')")
  | Value message => Return message
  end.

End JS.


(** ** The stream decoder ([utils/streamParser.js]) *)

Module StreamParser.
Import JS.

(** [{ name, arguments }] inside an indexed tool-call fragment *)
Record FunctionDelta := mkFunctionDelta {
  delta_name : option string;
  delta_arguments : option string
}.

(** One element of [chunk.tool_calls] *)
Record ToolCallDelta := mkToolCallDelta {
  frag_index : nat;
  frag_id : option string;
  frag_function : option FunctionDelta
}.

(** [chunk.tool_call_start] *)
Record ToolCallStart := mkToolCallStart {
  start_id : string;
  start_name : string
}.

Record Chunk := mkChunk {
  chunk_type : option string;
  content : option string;
  tool_calls : option (list ToolCallDelta);
  tool_call_start : option ToolCallStart;
  tool_input_delta : option string;
  finish_reason : option string
}.

(** An entry of [toolCallsBuffer]:
    [{ id, type: 'function', function: { name, arguments } }] *)
Record ToolCall := mkToolCall {
  call_id : string;
  call_type : string;
  fn_name : string;
  fn_arguments : string
}.

Record t := mkParser {
  buffer : string;
  contentBuffer : string;
  toolCallsBuffer : gmap nat ToolCall;
  finishReason : option string
}.

(** The value returned by [processChunk] *)
Record ChunkResult := mkChunkResult {
  res_type : option string;
  delta_content : option string;
  acc_content : option string;
  acc_toolCalls : option (list ToolCall);
  res_finishReason : option string
}.

(** The value returned by [getResult] *)
Record Result := mkResult {
  result_content : string;
  result_toolCalls : option (list ToolCall);
  result_finishReason : option string
}.

Definition set_contentBuffer (s : string) (p : t) : t :=
  mkParser (buffer p) s (toolCallsBuffer p) (finishReason p).
Definition set_toolCallsBuffer (b : gmap nat ToolCall) (p : t) : t :=
  mkParser (buffer p) (contentBuffer p) b (finishReason p).
Definition set_finishReason (r : option string) (p : t) : t :=
  mkParser (buffer p) (contentBuffer p) (toolCallsBuffer p) r.

Definition set_name (n : string) (e : ToolCall) : ToolCall :=
  mkToolCall (call_id e) (call_type e) n (fn_arguments e).
Definition set_arguments (a : string) (e : ToolCall) : ToolCall :=
  mkToolCall (call_id e) (call_type e) (fn_name e) a.
Definition set_id (i : string) (e : ToolCall) : ToolCall :=
  mkToolCall i (call_type e) (fn_name e) (fn_arguments e).

(** [constructor()] and [reset()] install the same four values. *)
Definition new : t := mkParser "" "" ∅ None.
Definition reset (p : t) : t := mkParser "" "" ∅ None.

Definition key_le (a b : nat * ToolCall) : Prop := a.1 ≤ b.1.
Global Instance key_le_dec a b : Decision (key_le a b).
Proof. unfold key_le. apply _. Defined.

(** [Object.values(this.toolCallsBuffer)]: integer keys in ascending order *)
Definition Object_values (b : gmap nat ToolCall) : list ToolCall :=
  (merge_sort key_le (map_to_list b)).*2.

(** [Object.keys(this.toolCallsBuffer).length] *)
Definition Object_keys_length (b : gmap nat ToolCall) : nat := size b.

(** Lines 40-44: the content delta *)
Definition processContent (c : Chunk) (p : t) : t :=
  match content c with
  | Some s => if truthy (Some s) then set_contentBuffer (contentBuffer p +:+ s) p else p
  | None => p
  end.

(** Line 69: [!currentName || (newName !== currentName &&
    newName.length >= currentName.length)] *)
Definition acceptName (currentName newName : string) : bool :=
  negb (truthy (Some currentName))
  || (negb (String.eqb newName currentName)
      && (String.length currentName <=? String.length newName)).

(** Lines 49-84: the body of the loop over [chunk.tool_calls] *)
Definition processToolCall (b : gmap nat ToolCall) (toolCall : ToolCallDelta)
  : gmap nat ToolCall :=
  let index := frag_index toolCall in
  let fname := frag_function toolCall ≫= delta_name in
  let fargs := frag_function toolCall ≫= delta_arguments in
  let created :=
    match b !! index with
    | Some e => e
    | None => mkToolCall (or_empty (frag_id toolCall)) "function" (or_empty fname) ""
    end in
  let named :=
    match fname with
    | Some newName =>
        if truthy (Some newName) then
          let currentName := fn_name created in
          if acceptName currentName newName then set_name newName created else created
        else created
    | None => created
    end in
  let argued :=
    match fargs with
    | Some a => if truthy (Some a)
                then set_arguments (fn_arguments named +:+ a) named else named
    | None => named
    end in
  let identified :=
    match frag_id toolCall with
    | Some i => if truthy (Some i) then set_id i argued else argued
    | None => argued
    end in
  <[index := identified]> b.

(** Lines 47-88 *)
Definition processToolCalls (c : Chunk) (p : t) : t :=
  match tool_calls c with
  | Some tcs => set_toolCallsBuffer (foldl processToolCall (toolCallsBuffer p) tcs) p
  | None => p
  end.

(** Lines 91-105: [tool_call_start] *)
Definition processToolCallStart (c : Chunk) (p : t) : t :=
  match tool_call_start c with
  | Some st =>
      let index := Object_keys_length (toolCallsBuffer p) in
      set_toolCallsBuffer
        (<[index := mkToolCall (start_id st) "function" (start_name st) ""]>
           (toolCallsBuffer p)) p
  | None => p
  end.

(** Lines 108-114: [tool_input_delta].  [lastIndex] is [length - 1]; when it
    is non-negative the entry at that key is dereferenced, which raises a
    [TypeError] if the key is absent. *)
Definition processToolInputDelta (c : Chunk) (p : t) : Exc t :=
  match tool_input_delta c with
  | Some d =>
      if truthy (Some d) then
        match Object_keys_length (toolCallsBuffer p) with
        | O => Return p
        | S lastIndex =>
            match toolCallsBuffer p !! lastIndex with
            | Some e =>
                Return (set_toolCallsBuffer
                          (<[lastIndex := set_arguments (fn_arguments e +:+ d) e]>
                             (toolCallsBuffer p)) p)
            | None =>
                Throw (TypeError "Cannot read properties of undefined (reading 'function')")
            end
        end
      else Return p
  | None => Return p
  end.

(** Lines 117-120: [finish_reason] *)
Definition processFinishReason (c : Chunk) (p : t) : t :=
  match finish_reason c with
  | Some r => if truthy (Some r) then set_finishReason (Some r) p else p
  | None => p
  end.

(** The [result] object assembled along the way *)
Definition chunkResult (c : Chunk) (p1 p2 p3 p4 : t) : ChunkResult :=
  mkChunkResult
    (chunk_type c)
    (if truthy (content c) then content c else None)
    (if truthy (content c) then Some (contentBuffer p1) else None)
    (if truthy (tool_input_delta c) then Some (Object_values (toolCallsBuffer p4))
     else if bool_decide (is_Some (tool_call_start c))
          then Some (Object_values (toolCallsBuffer p3))
     else if bool_decide (is_Some (tool_calls c))
          then Some (Object_values (toolCallsBuffer p2))
     else None)
    (if truthy (finish_reason c) then finish_reason c else None).

(** [processChunk(chunk)]: the outcome and the parser after the call.  When
    the [tool_input_delta] step throws, the effects of the earlier steps on
    the parser remain. *)
Definition processChunk (p : t) (c : Chunk) : Exc ChunkResult * t :=
  let p1 := processContent c p in
  let p2 := processToolCalls c p1 in
  let p3 := processToolCallStart c p2 in
  match processToolInputDelta c p3 with
  | Return p4 =>
      let p5 := processFinishReason c p4 in
      (Return (chunkResult c p1 p2 p3 p4), p5)
  | Throw e => (Throw e, p3)
  end.

(** [getResult()] *)
Definition getResult (p : t) : Result :=
  let toolCalls := Object_values (toolCallsBuffer p) in
  mkResult (contentBuffer p)
           (if decide (0 < length toolCalls) then Some toolCalls else None)
           (finishReason p).

(** [hasToolCalls()] *)
Definition hasToolCalls (p : t) : bool :=
  bool_decide (0 < Object_keys_length (toolCallsBuffer p)).

(** Feeding a sequence of chunks in arrival order; a throwing call leaves the
    parser as the call left it and the next chunk is processed from there
    (the transport swallows callback exceptions, see [AIClient.streamChat]). *)
Definition processChunks (p : t) (cs : list Chunk) : t :=
  foldl (fun q c => (processChunk q c).2) p cs.

(** All calls of a run return normally. *)
Fixpoint allSucceed (p : t) (cs : list Chunk) : Prop :=
  match cs with
  | [] => True
  | c :: cs' => returns (processChunk p c).1 /\ allSucceed (processChunk p c).2 cs'
  end.

End StreamParser.

(** ** JSON values and the [JSON] built-ins *)

Module Json.
Import JS.

(** A JSON value.  A number is kept as its literal, since its value is a
    double; an object keeps its members in insertion order. *)
#[warnings="-register-all"]
Inductive json : Type :=
| JNull
| JBool (b : bool)
| JNumber (literal : string)
| JString (s : string)
| JArray (items : list json)
| JObject (members : list (string * json)).

(** The two built-ins the pipeline calls: [JSON.parse(text)], which throws a
    [SyntaxError] on malformed text, and [JSON.stringify(value, null, indent)]
    ([indent = 0] is the one-argument call). *)
Class Builtins := {
  JSON_parse : string -> Exc json;
  JSON_stringify : nat -> json -> string
}.

(** *** A reference implementation, used to run the model on examples.
    It covers the JSON grammar over one-byte code units; a [\u] escape above
    [ÿ] has no representation in a [string] and is refused. *)

Definition is_ws (c : ascii) : bool :=
  bool_decide (c ∈ [" "%char; "009"%char; "010"%char; "013"%char]).

Fixpoint skip_ws (l : list ascii) : list ascii :=
  match l with
  | c :: r => if is_ws c then skip_ws r else l
  | [] => []
  end.

Definition is_digit (c : ascii) : bool :=
  let n := nat_of_ascii c in (48 <=? n) && (n <=? 57).

Fixpoint span_digits (l : list ascii) : list ascii * list ascii :=
  match l with
  | c :: r => if is_digit c then let '(ds, r') := span_digits r in (c :: ds, r')
              else ([], l)
  | [] => ([], [])
  end.

Definition hex_value (c : ascii) : option nat :=
  let n := nat_of_ascii c in
  if (48 <=? n) && (n <=? 57) then Some (n - 48)
  else if (65 <=? n) && (n <=? 70) then Some (n - 55)
  else if (97 <=? n) && (n <=? 102) then Some (n - 87)
  else None.

(** A number literal: an optional minus sign, an integer part without a
    leading zero, an optional fraction and an optional exponent *)
Definition lex_number (l : list ascii) : option (list ascii * list ascii) :=
  let '(sign, l1) :=
    match l with "-"%char :: r => (["-"%char], r) | _ => ([], l) end in
  let '(int, l2) := span_digits l1 in
  match int with
  | [] => None
  | d :: ds =>
      if bool_decide (d = "0"%char) && negb (bool_decide (ds = [])) then None else
      let frac :=
        match l2 with
        | "."%char :: r =>
            let '(fs, r') := span_digits r in
            match fs with [] => None | _ => Some ("."%char :: fs, r') end
        | _ => Some ([], l2)
        end in
      match frac with
      | None => None
      | Some (fs, l3) =>
          let exp :=
            match l3 with
            | e :: r =>
                if bool_decide (e ∈ ["e"%char; "E"%char]) then
                  let '(sg, r1) :=
                    match r with
                    | s :: r' => if bool_decide (s ∈ ["+"%char; "-"%char])
                                 then ([s], r') else ([], r)
                    | [] => ([], r)
                    end in
                  let '(es, r2) := span_digits r1 in
                  match es with [] => None | _ => Some (e :: sg ++ es, r2) end
                else Some ([], l3)
            | [] => Some ([], l3)
            end in
          match exp with
          | None => None
          | Some (es, l4) => Some (sign ++ int ++ fs ++ es, l4)
          end
      end
  end.

(** The characters after an opening quote, up to the closing one *)
Fixpoint lex_string (l : list ascii) : option (list ascii * list ascii) :=
  match l with
  | [] => None
  | c :: r =>
      if bool_decide (c = "034"%char) then Some ([], r)
      else if bool_decide (c = "\"%char) then
        match r with
        | e :: r' =>
            let simple (d : ascii) :=
              '(s, rest) ← lex_string r'; Some (d :: s, rest) in
            if bool_decide (e = "034"%char) then simple "034"%char
            else if bool_decide (e = "\"%char) then simple "\"%char
            else if bool_decide (e = "/"%char) then simple "/"%char
            else if bool_decide (e = "b"%char) then simple "008"%char
            else if bool_decide (e = "f"%char) then simple "012"%char
            else if bool_decide (e = "n"%char) then simple "010"%char
            else if bool_decide (e = "r"%char) then simple "013"%char
            else if bool_decide (e = "t"%char) then simple "009"%char
            else if bool_decide (e = "u"%char) then
              match r' with
              | h1 :: h2 :: h3 :: h4 :: r'' =>
                  a ← hex_value h1; b ← hex_value h2;
                  c ← hex_value h3; d ← hex_value h4;
                  if bool_decide (a = 0 ∧ b = 0) then
                    '(s, rest) ← lex_string r'';
                    Some (ascii_of_nat (16 * c + d) :: s, rest)
                  else None
              | _ => None
              end
            else None
        | [] => None
        end
      else if nat_of_ascii c <? 32 then None
      else '(s, rest) ← lex_string r; Some (c :: s, rest)
  end.

Definition string_of_chars (l : list ascii) : string := string_of_list_ascii l.
Definition chars_of_string (s : string) : list ascii := list_ascii_of_string s.

(** [object[key] = value]: a repeated key keeps its place and takes the new
    value. *)
Fixpoint set_member (key : string) (v : json) (ms : list (string * json))
  : list (string * json) :=
  match ms with
  | [] => [(key, v)]
  | kv :: r => if String.eqb kv.1 key then (key, v) :: r else kv :: set_member key v r
  end.

(** A value, then the rest of the input.  [fuel] bounds the nesting depth and
    the number of elements of one array or object. *)
Fixpoint parse_value (fuel : nat) (l : list ascii) : option (json * list ascii) :=
  match fuel with
  | O => None
  | S n =>
      let fix elements (k : nat) (l : list ascii) (acc : list json) :=
        match k with
        | O => None
        | S k' =>
            match parse_value n l with
            | Some (v, r) =>
                match skip_ws r with
                | c :: r' =>
                    if bool_decide (c = ","%char) then elements k' r' (acc ++ [v])
                    else if bool_decide (c = "]"%char) then Some (acc ++ [v], r')
                    else None
                | [] => None
                end
            | None => None
            end
        end in
      let fix members (k : nat) (l : list ascii) (acc : list (string * json)) :=
        match k with
        | O => None
        | S k' =>
            match skip_ws l with
            | q :: r0 =>
                if bool_decide (q = "034"%char) then
                  match lex_string r0 with
                  | Some (key, r1) =>
                      match skip_ws r1 with
                      | colon :: r2 =>
                          if bool_decide (colon = ":"%char) then
                            match parse_value n r2 with
                            | Some (v, r3) =>
                                let acc' := set_member (string_of_chars key) v acc in
                                match skip_ws r3 with
                                | c :: r4 =>
                                    if bool_decide (c = ","%char) then members k' r4 acc'
                                    else if bool_decide (c = "}"%char) then Some (acc', r4)
                                    else None
                                | [] => None
                                end
                            | None => None
                            end
                          else None
                      | [] => None
                      end
                  | None => None
                  end
                else None
            | [] => None
            end
        end in
      match skip_ws l with
      | [] => None
      | c :: r =>
          if bool_decide (c = "034"%char) then
            '(s, r') ← lex_string r; Some (JString (string_of_chars s), r')
          else if bool_decide (c = "["%char) then
            match skip_ws r with
            | "]"%char :: r' => Some (JArray [], r')
            | _ => '(vs, r') ← elements fuel r []; Some (JArray vs, r')
            end
          else if bool_decide (c = "{"%char) then
            match skip_ws r with
            | "}"%char :: r' => Some (JObject [], r')
            | _ => '(ms, r') ← members fuel r []; Some (JObject ms, r')
            end
          else
            match c :: r with
            | "n"%char :: "u"%char :: "l"%char :: "l"%char :: r' => Some (JNull, r')
            | "t"%char :: "r"%char :: "u"%char :: "e"%char :: r' => Some (JBool true, r')
            | "f"%char :: "a"%char :: "l"%char :: "s"%char :: "e"%char :: r' =>
                Some (JBool false, r')
            | _ => '(lit, r') ← lex_number (c :: r); Some (JNumber (string_of_chars lit), r')
            end
      end
  end.

Definition parse (text : string) : Exc json :=
  let l := chars_of_string text in
  match parse_value (S (length l)) l with
  | Some (v, rest) =>
      match skip_ws rest with
      | [] => Return v
      | _ => Throw (SyntaxError "Unexpected non-whitespace character after JSON")
      end
  | None => Throw (SyntaxError "Unexpected token or end of JSON input")
  end.

Definition hex_digit (n : nat) : ascii :=
  ascii_of_nat (if n <? 10 then 48 + n else 87 + n).

Definition quote_char (c : ascii) : list ascii :=
  let n := nat_of_ascii c in
  if bool_decide (c = "034"%char) then ["\"%char; "034"%char]
  else if bool_decide (c = "\"%char) then ["\"%char; "\"%char]
  else if bool_decide (n = 8) then ["\"%char; "b"%char]
  else if bool_decide (n = 12) then ["\"%char; "f"%char]
  else if bool_decide (n = 10) then ["\"%char; "n"%char]
  else if bool_decide (n = 13) then ["\"%char; "r"%char]
  else if bool_decide (n = 9) then ["\"%char; "t"%char]
  else if n <? 32 then
    ["\"%char; "u"%char; "0"%char; "0"%char; hex_digit (n / 16); hex_digit (n mod 16)]
  else [c].

Definition quote (s : string) : string :=
  string_of_chars ("034"%char :: flat_map quote_char (chars_of_string s) ++ ["034"%char]).

Definition newline : string := String "010"%char EmptyString.

Definition spaces (n : nat) : string := string_of_chars (replicate n " "%char).

(** [JSON.stringify(v, null, indent)] at the indentation [current] *)
Fixpoint stringify_at (indent : nat) (current : string) (v : json) : string :=
  let inner := current +:+ spaces indent in
  let open_ := if indent is O then "" else newline +:+ inner in
  let sep := if indent is O then "," else "," +:+ newline +:+ inner in
  let close := if indent is O then "" else newline +:+ current in
  let colon := if indent is O then ":" else ": " in
  match v with
  | JNull => "null"
  | JBool true => "true"
  | JBool false => "false"
  | JNumber literal => literal
  | JString s => quote s
  | JArray [] => "[]"
  | JArray items =>
      "[" +:+ open_ +:+ String.concat sep (map (stringify_at indent inner) items)
          +:+ close +:+ "]"
  | JObject [] => "{}"
  | JObject members =>
      "{" +:+ open_
          +:+ String.concat sep
                (map (fun kv => quote kv.1 +:+ colon +:+ stringify_at indent inner kv.2)
                     members)
          +:+ close +:+ "}"
  end.

Definition stringify (indent : nat) (v : json) : string := stringify_at indent "" v.

Definition reference : Builtins :=
  {| JSON_parse := parse; JSON_stringify := stringify |}.

(** Truthiness of a value that is not a string: [null], [false] and a zero
    number are falsy; arrays and objects are truthy. *)
Fixpoint mantissa_is_zero (l : list ascii) : bool :=
  match l with
  | [] => true
  | c :: r =>
      if bool_decide (c ∈ ["e"%char; "E"%char]) then true
      else bool_decide (c ∈ ["-"%char; "0"%char; "."%char]) && mantissa_is_zero r
  end.

Definition number_is_zero (literal : string) : bool :=
  mantissa_is_zero (chars_of_string literal).

Definition truthy (v : json) : bool :=
  match v with
  | JNull => false
  | JBool b => b
  | JNumber literal => negb (number_is_zero literal)
  | JString s => negb (String.eqb s "")
  | JArray _ | JObject _ => true
  end.

End Json.

(** ** Panels, the panel registry and the studio store
    ([panels/registry.js], [context/StudioContext.jsx]) *)

Module Panels.
Import JS Json.

(** A panel's private state, an object merged shallowly by [updateState] *)
Abbreviation PanelState := (gmap string json).

Inductive PanelMode := hidden | minimized | flexible | fullscreen.

Global Instance PanelMode_eq_dec : EqDecision PanelMode.
Proof. solve_decision. Defined.

Record PanelInstance := mkPanel {
  id : string;
  panelTypeId : string;
  title : string;
  mode : PanelMode;
  state : PanelState;
  order : nat;
  isAIObserving : bool
}.

(** [MCPTool]: what a panel's [getMCPTools] lists *)
Record MCPTool := mkTool {
  tool_name : string;
  tool_description : string;
  tool_inputSchema : option json
}.

(** The [{ type, data }] descriptor of [getLLMContext] *)
Record ContextDescriptor := mkContext {
  ctx_type : option string;
  ctx_data : option json
}.

(** The capability contract of a panel type.  A method the definition lacks
    is [None].  The executor is given the original tool name, the arguments
    and the panel's state; it yields how it settles (it may throw any value,
    which [executeTool] reads) and the partial states it passed to
    [updateState], in call order. *)
Record PanelDefinition := mkDefinition {
  getMCPTools : option (PanelState -> Exc (list MCPTool));
  executeMCPTool : option (string -> json -> PanelState -> Settled json * list PanelState);
  getLLMContext : option (PanelState -> Exc (option ContextDescriptor))
}.

(** [panelRegistry], a [Map] from panel type id to definition *)
Abbreviation Registry := (gmap string PanelDefinition).

(** [getPanelDefinition(panelTypeId)] *)
Definition getPanelDefinition (panelRegistry : Registry) (panelTypeId : string)
  : option PanelDefinition :=
  panelRegistry !! panelTypeId.

(** The part of the store the pipeline reads and writes *)
Record Store := mkStore { panels : list PanelInstance }.

Definition set_state (s : PanelState) (p : PanelInstance) : PanelInstance :=
  mkPanel (id p) (panelTypeId p) (title p) (mode p) s (order p) (isAIObserving p).

(** [updatePanelState(id, newState)]: [{ ...p.state, ...newState }] on the
    panel with that id *)
Definition updatePanelState (i : string) (newState : PanelState) (s : Store) : Store :=
  mkStore (map (fun p => if bool_decide (id p = i)
                         then set_state (newState ∪ state p) p else p)
               (panels s)).

(** [getVisiblePanels()] *)
Definition getVisiblePanels (s : Store) : list PanelInstance :=
  filter (fun p => mode p ≠ hidden) (panels s).

End Panels.

(** ** The MCP orchestrator ([MCPOrchestrator] in [services/providers.js]) *)

Module Orchestrator.
Import JS Json Panels.

(** A tool enriched by [collectTools]:
    [{ ...tool, _panelId, _panelTypeId, _panelTitle, name, originalName }] *)
Record AggregatedTool := mkAggregated {
  description : string;
  inputSchema : option json;
  _panelId : string;
  _panelTypeId : string;
  _panelTitle : string;
  name : string;
  originalName : string
}.

Abbreviation ToolCache := (gmap string AggregatedTool).

(** The object [executeTool] resolves to; a key it does not set is [None]. *)
Record ToolResult := mkToolResult {
  success : bool;
  result : option json;
  error : option string;
  toolName : option string;
  panelTitle : option string
}.

(** [call.function.arguments] is either text or an already parsed value. *)
Inductive Arguments :=
| ArgText (text : string)
| ArgValue (v : json).

(** A tool call as [processToolCalls] reads it *)
Record Call := mkCall {
  call_id : string;
  call_type : string;
  fn_name : string;
  fn_arguments : Arguments;
  parsedArguments : option json
}.

(** One element of the array [processToolCalls] resolves to:
    [{ toolCallId, name, ...result }] *)
Record CallResult := mkCallResult {
  toolCallId : string;
  call_name : string;
  outcome : ToolResult
}.

(** [{ role: 'tool', tool_call_id, name, content }] *)
Record ToolMessage := mkToolMessage {
  tm_role : string;
  tool_call_id : string;
  tm_name : string;
  tm_content : option string
}.

(** One element of [context.observedPanels] *)
Record ObservedPanel := mkObserved {
  panelId : string;
  panelType : string;
  observedTitle : string;
  context : option ContextDescriptor
}.

Record Context := mkAggregatedContext {
  observedPanels : list ObservedPanel;
  timestamp : nat
}.

Section WithBuiltins.
Context {builtins : Builtins}.
Variable panelRegistry : Registry.

(** Lines 121-129: the routing metadata added to one tool *)
Definition enrich (panel : PanelInstance) (tool : MCPTool) : AggregatedTool :=
  mkAggregated (tool_description tool) (tool_inputSchema tool)
               (id panel) (panelTypeId panel) (title panel)
               (panelTypeId panel +:+ "_" +:+ tool_name tool)
               (tool_name tool).

(** Lines 112-135: one iteration of the loop over [panels] *)
Definition collectFrom (allTools : list AggregatedTool) (panel : PanelInstance)
  : Exc (list AggregatedTool) :=
  match getPanelDefinition panelRegistry (panelTypeId panel) ≫= getMCPTools with
  | None => Return allTools
  | Some listTools =>
      try_catch
        (tools ← listTools (state panel);
         Return (allTools ++ map (enrich panel) tools))
        (fun error => Return allTools)
  end.

(** Lines 138-141: [toolCache.clear()] and one [set] per tool *)
Definition cacheTools (allTools : list AggregatedTool) : ToolCache :=
  foldl (fun cache tool => <[name tool := tool]> cache) ∅ allTools.

(** [collectTools(panels)]: the outcome and the tool cache after the call *)
Definition collectTools (toolCache : ToolCache) (panels : list PanelInstance)
  : Exc (list AggregatedTool) * ToolCache :=
  match foldl (fun acc panel => allTools ← acc; collectFrom allTools panel)
              (Return []) panels with
  | Return allTools => (Return allTools, cacheTools allTools)
  | Throw e => (Throw e, toolCache)
  end.

(** Lines 155-174: the entry of one observed panel, [null] when its type has
    no [getLLMContext] or the call throws *)
Definition contextOf (panel : PanelInstance) : option ObservedPanel :=
  match getPanelDefinition panelRegistry (panelTypeId panel) ≫= getLLMContext with
  | None => None
  | Some describe =>
      match describe (state panel) with
      | Return c => Some (mkObserved (id panel) (panelTypeId panel) (title panel) c)
      | Throw error => None
      end
  end.

(** [buildContext(panels)]; [now] is the value of [Date.now()]. *)
Definition buildContext (now : nat) (panels : list PanelInstance) : Context :=
  let observed := filter (fun p => isAIObserving p = true) panels in
  mkAggregatedContext (omap contextOf observed) now.

(** [s.slice(0, 2000)] *)
Definition contextLimit : nat := 2000.
Definition slice0 (n : nat) (s : string) : string := String.substring 0 n s.

(** Lines 207-220: the lines pushed for one observed panel *)
Definition renderPanel (panel : ObservedPanel) : list string :=
  ["### " +:+ observedTitle panel +:+ " (" +:+ panelType panel +:+ ")"]
  ++ (if bool_decide (context panel ≫= ctx_type = Some "empty") then
        ["- Empty or minimal content"]
      else
        match context panel ≫= ctx_data with
        | Some (JString data) => ["```"; slice0 contextLimit data; "```"]
        | Some data =>
            if truthy data
            then ["```json"; slice0 contextLimit (JSON_stringify 2 data); "```"]
            else []
        | None => []
        end)
  ++ [""].

(** Lines 230-235: the lines pushed for one tool *)
Definition renderTool (tool : AggregatedTool) : list string :=
  ["- **" +:+ name tool +:+ "**: " +:+ description tool]
  ++ (if JS.truthy (Some (_panelTitle tool))
      then ["  - Source: " +:+ _panelTitle tool] else []).

Definition promptHeader : list string :=
  ["You are an AI assistant integrated into Nexus GraphStudio, a multi-panel IDE for graphical authoring.";
   "";
   "## Your Capabilities";
   "- You can observe and understand the content of panels that users have enabled AI observation for.";
   "- You can execute tools to modify panels, create content, and perform actions.";
   "- You should be helpful, concise, and focused on the user's creative workflow.";
   ""].

Definition promptFooter : list string :=
  ["## Guidelines";
   "- Be concise and helpful";
   "- When users ask you to modify a panel, use the appropriate tool";
   "- If you need more context, ask the user to enable AI observation on relevant panels";
   "- Always explain what you're doing when using tools"].

(** Lines 202-204 *)
Definition observedIntro : list string :=
  ["## Currently Observed Panels";
   "The following panels are being observed (you can see their content):";
   ""].

(** Lines 201-222: the lines pushed for the observed panels *)
Definition observedSection (context : Context) : list string :=
  if decide (0 < length (observedPanels context))
  then observedIntro ++ concat (map renderPanel (observedPanels context))
  else [].

(** Lines 225-237: the lines pushed for the tool catalog *)
Definition toolsSection (tools : list AggregatedTool) : list string :=
  if decide (0 < length tools) then
    ["## Available Tools"; "You have access to the following tools:"; ""]
    ++ concat (map renderTool tools) ++ [""]
  else [].

(** The array [parts] of [generateSystemPrompt] just before the join *)
Definition promptParts (context : Context) (tools : list AggregatedTool) : list string :=
  promptHeader ++ observedSection context ++ toolsSection tools ++ promptFooter.

(** [generateSystemPrompt(context, tools)] *)
Definition generateSystemPrompt (context : Context) (tools : list AggregatedTool) : string :=
  String.concat newline (promptParts context tools).

Definition failure (message : string) (toolName : option string) : ToolResult :=
  mkToolResult false None (Some message) toolName None.

(** [executeTool(toolName, args)]: the outcome and the store after the call.
    The [catch] handles what the executor throws; an exception raised inside
    the [catch] leaves the method. *)
Definition executeTool (toolCache : ToolCache) (store : Store)
    (toolName : string) (args : json) : Exc ToolResult * Store :=
  match toolCache !! toolName with
  | None => (Return (failure ("Unknown tool: " +:+ toolName) None), store)
  | Some tool =>
      match getPanelDefinition panelRegistry (_panelTypeId tool) ≫= executeMCPTool with
      | None =>
          (Return (failure ("Panel " +:+ _panelTypeId tool
                            +:+ " does not support tool execution") None), store)
      | Some execute =>
          match List.find (fun p => bool_decide (id p = _panelId tool)) (panels store) with
          | None =>
              (Return (failure ("Panel " +:+ _panelId tool +:+ " not found") None), store)
          | Some panel =>
              let run := execute (originalName tool) args (state panel) in
              let store' :=
                foldl (fun s newState => updatePanelState (_panelId tool) newState s)
                      store run.2 in
              (match run.1 with
               | Resolved result =>
                   Return (mkToolResult true (Some result) None (Some toolName)
                                        (Some (title panel)))
               | Rejected error =>
                   (* lines 302-309: the [catch] reads [error.message] *)
                   message ← read_message error;
                   Return (mkToolResult false None message (Some toolName) None)
               end,
               store')
          end
      end
  end.

(** Lines 321-323: the arguments handed to [executeTool] *)
Definition argumentsOf (call : Call) : Exc json :=
  match fn_arguments call with
  | ArgText text => JSON_parse text
  | ArgValue v => Return v
  end.

(** [processToolCalls(toolCalls)]: the loop, with the results pushed so far;
    a throw leaves the store as the earlier calls left it. *)
Fixpoint processToolCallsFrom (toolCache : ToolCache) (store : Store)
    (results : list CallResult) (toolCalls : list Call)
  : Exc (list CallResult) * Store :=
  match toolCalls with
  | [] => (Return results, store)
  | call :: rest =>
      match argumentsOf call with
      | Throw e => (Throw e, store)
      | Return args =>
          match executeTool toolCache store (fn_name call) args with
          | (Throw e, store') => (Throw e, store')
          | (Return result, store') =>
              processToolCallsFrom toolCache store'
                (results ++ [mkCallResult (call_id call) (fn_name call) result]) rest
          end
      end
  end.

Definition processToolCalls (toolCache : ToolCache) (store : Store)
    (toolCalls : list Call) : Exc (list CallResult) * Store :=
  processToolCallsFrom toolCache store [] toolCalls.

(** [formatToolResultsAsMessages(results)]: [JSON.stringify(undefined)] is
    [undefined], and an [undefined] member is left out of the printed object. *)
Definition formatToolResultsAsMessages (results : list CallResult) : list ToolMessage :=
  map (fun r =>
         mkToolMessage "tool" (toolCallId r) (call_name r)
           (if success (outcome r)
            then JSON_stringify 0 <$> result (outcome r)
            else Some (JSON_stringify 0
                         (JObject (from_option (fun e => [("error", JString e)]) []
                                               (error (outcome r)))))))
      results.

End WithBuiltins.

End Orchestrator.

(** ** Messages ([utils/messageUtils.js]) *)

Module Messages.
Import JS Json Orchestrator.

Record Attachment := mkAttachment {
  att_id : string;
  att_name : string;
  att_type : string;
  att_size : nat
}.

(** A conversation message.  A key that is absent, [undefined] or [null] is
    [None]. *)
Record Message := mkMessage {
  msg_id : string;
  role : string;
  content : option string;
  attachments : option (list Attachment);
  toolCalls : option (list StreamParser.ToolCall);
  results : option (list CallResult);
  msg_name : option string;
  msg_tool_call_id : option string;
  timestamp : nat;
  isStreaming : option bool;
  isError : option bool
}.

(** [createUserMessage(content, attachments = [])]; [i] and [now] are the
    values of [generateMessageId()] and [Date.now()]. *)
Definition createUserMessage (i : string) (now : nat) (content : string)
    (attachments : option (list Attachment)) : Message :=
  mkMessage i "user" (Some content) (Some (default [] attachments))
            None None None None now None None.

(** [createStreamingMessage()] *)
Definition createStreamingMessage (i : string) (now : nat) : Message :=
  mkMessage i "assistant" (Some "") None None None None None now
            (Some true) None.

(** The argument of [updateLastMessage]: for each key it carries, the value *)
Record Updates := mkUpdates {
  u_content : option (option string);
  u_toolCalls : option (option (list StreamParser.ToolCall));
  u_isStreaming : option bool;
  u_isError : option bool
}.

(** [{ ...message, ...updates }] *)
Definition merge (m : Message) (u : Updates) : Message :=
  mkMessage (msg_id m) (role m)
            (if u_content u is Some c then c else content m)
            (attachments m)
            (if u_toolCalls u is Some t then t else toolCalls m)
            (results m) (msg_name m) (msg_tool_call_id m) (timestamp m)
            (if u_isStreaming u is Some b then Some b else isStreaming m)
            (if u_isError u is Some b then Some b else isError m).

End Messages.

(** ** The AI client's message formats ([AIClient] in [services/providers.js]) *)

Module Client.
Import JS Json Orchestrator Messages.

(** A message of the request body *)
Record ApiMessage := mkApiMessage {
  api_role : string;
  api_content : option string;
  api_name : option string;
  api_tool_call_id : option string;
  api_tool_calls : option (list StreamParser.ToolCall)
}.

(** [{ type: 'function', function: { name, description, parameters } }] *)
Record ApiTool := mkApiTool {
  api_tool_name : string;
  api_tool_description : string;
  api_tool_parameters : json
}.

(** The body of one streaming request *)
Record Request := mkRequest {
  req_messages : list ApiMessage;
  req_tools : option (list ApiTool);
  req_model : option string;
  req_provider : option string;
  req_temperature : string
}.

(** [formatMessagesForAPI(messages)]: [name] and [tool_call_id] are copied
    when truthy. *)
Definition formatMessagesForAPI (messages : list Message) : list ApiMessage :=
  map (fun msg =>
         mkApiMessage (role msg) (content msg)
           (if JS.truthy (msg_name msg) then msg_name msg else None)
           (if JS.truthy (msg_tool_call_id msg) then msg_tool_call_id msg else None)
           None)
      messages.

(** [formatToolsForAPI(tools)] *)
Definition formatToolsForAPI (tools : list AggregatedTool) : list ApiTool :=
  map (fun tool =>
         mkApiTool (name tool) (description tool)
           (match inputSchema tool with
            | Some schema =>
                if Json.truthy schema then schema
                else JObject [("type", JString "object"); ("properties", JObject [])]
            | None => JObject [("type", JString "object"); ("properties", JObject [])]
            end))
      tools.

(** [{ role: 'tool', ... }] as a message of the request body *)
Definition ofToolMessage (m : ToolMessage) : ApiMessage :=
  mkApiMessage (tm_role m) (tm_content m) (Some (tm_name m)) (Some (tool_call_id m)) None.

End Client.

(** ** The conversation controller ([useChat] in [services/providers.js]) *)

Module Chat.
Import JS Json Panels Orchestrator Messages Client.

(** Which invocation of [streamChat] a request belongs to: the one issued by
    [sendMessage], or the one issued by [handleToolCalls]. *)
Inductive Pass := FirstPass | SecondPass.

(** Where the pending asynchronous call stands.
    - [Preparing]: [sendMessage] is suspended on its awaits before
      [streamChat]; it holds the [messages] of its closure and its [content].
    - [Streaming]: a [fetch] is in flight, with the callbacks of that pass. *)
Inductive Phase :=
| Idle
| Preparing (snapshot : list Message) (content : string)
| Streaming (pass : Pass) (request : Request).

(** The hook's state and refs, the orchestrator's cache, the studio store and
    the pending call. *)
Record State := mkState {
  messages : list Message;
  isLoading : bool;
  error : option string;
  provider : option string;
  model : option string;
  temperature : string;
  streamingMessageRef : option Message;
  streamParserRef : StreamParser.t;
  toolCache : ToolCache;
  store : Store;
  phase : Phase
}.

(** The values a call draws from [generateMessageId()] and [Date.now()] *)
Record Fresh := mkFresh { id1 : string; id2 : string; now : nat }.

Definition setMessages (ms : list Message) (st : State) : State :=
  mkState ms (isLoading st) (error st) (provider st) (model st) (temperature st)
          (streamingMessageRef st) (streamParserRef st) (toolCache st) (store st) (phase st).
Definition setIsLoading (b : bool) (st : State) : State :=
  mkState (messages st) b (error st) (provider st) (model st) (temperature st)
          (streamingMessageRef st) (streamParserRef st) (toolCache st) (store st) (phase st).
Definition setError (e : option string) (st : State) : State :=
  mkState (messages st) (isLoading st) e (provider st) (model st) (temperature st)
          (streamingMessageRef st) (streamParserRef st) (toolCache st) (store st) (phase st).
Definition setProvider (p : option string) (st : State) : State :=
  mkState (messages st) (isLoading st) (error st) p (model st) (temperature st)
          (streamingMessageRef st) (streamParserRef st) (toolCache st) (store st) (phase st).
Definition setModel (m : option string) (st : State) : State :=
  mkState (messages st) (isLoading st) (error st) (provider st) m (temperature st)
          (streamingMessageRef st) (streamParserRef st) (toolCache st) (store st) (phase st).
Definition setTemperature (t : string) (st : State) : State :=
  mkState (messages st) (isLoading st) (error st) (provider st) (model st) t
          (streamingMessageRef st) (streamParserRef st) (toolCache st) (store st) (phase st).
Definition set_streamingMessageRef (r : option Message) (st : State) : State :=
  mkState (messages st) (isLoading st) (error st) (provider st) (model st) (temperature st)
          r (streamParserRef st) (toolCache st) (store st) (phase st).
Definition set_streamParserRef (p : StreamParser.t) (st : State) : State :=
  mkState (messages st) (isLoading st) (error st) (provider st) (model st) (temperature st)
          (streamingMessageRef st) p (toolCache st) (store st) (phase st).
Definition set_toolCache (c : ToolCache) (st : State) : State :=
  mkState (messages st) (isLoading st) (error st) (provider st) (model st) (temperature st)
          (streamingMessageRef st) (streamParserRef st) c (store st) (phase st).
Definition set_store (s : Store) (st : State) : State :=
  mkState (messages st) (isLoading st) (error st) (provider st) (model st) (temperature st)
          (streamingMessageRef st) (streamParserRef st) (toolCache st) s (phase st).
Definition set_phase (ph : Phase) (st : State) : State :=
  mkState (messages st) (isLoading st) (error st) (provider st) (model st) (temperature st)
          (streamingMessageRef st) (streamParserRef st) (toolCache st) (store st) ph.

(** [String.prototype.trim]: the white space and line terminators among the
    one-byte code units *)
Definition is_white_space (c : ascii) : bool :=
  bool_decide (nat_of_ascii c ∈ [9; 10; 11; 12; 13; 32; 160]).

Fixpoint trimStart (l : list ascii) : list ascii :=
  match l with
  | c :: r => if is_white_space c then trimStart r else l
  | [] => []
  end.

Definition trim (s : string) : string :=
  string_of_list_ascii (rev (trimStart (rev (trimStart (list_ascii_of_string s))))).

(** [addMessage(message)] *)
Definition addMessage (message : Message) (st : State) : State :=
  setMessages (messages st ++ [message]) st.

(** [updateLastMessage(updates)] *)
Definition updateLast (updates : Updates) (prev : list Message) : list Message :=
  match length prev with
  | O => prev
  | S lastIndex => alter (fun m => merge m updates) lastIndex prev
  end.

Definition updateLastMessage (updates : Updates) (st : State) : State :=
  setMessages (updateLast updates (messages st)) st.

(** [clearMessages()] *)
Definition clearMessages (st : State) : State :=
  setError None (setMessages [] st).

(** The object both [onError] callbacks and the [catch] of [sendMessage]
    pass to [updateLastMessage] *)
Definition errorUpdates (err : Error) : Updates :=
  mkUpdates (Some (Some ("Error: " +:+ message err))) None (Some false) (Some true).

Section WithEnvironment.
Context {builtins : Builtins}.
Variable panelRegistry : Registry.

(** [sendMessage(content, attachments = [])], lines 672-687: the part that
    runs before the first [await].  [content.trim()] raises a [TypeError]
    when [content] is not a string. *)
Definition sendMessage (snapshot : list Message) (content : option string)
    (attachments : option (list Attachment)) (f : Fresh) (st : State)
  : Exc unit * State :=
  match content with
  | None => (Throw (TypeError "Cannot read properties of undefined (reading 'trim')"), st)
  | Some text =>
      let attachments := default [] attachments in
      if negb (JS.truthy (Some (trim text))) && bool_decide (length attachments = 0)
      then (Return (), st)
      else
        let st := setError None st in
        let st := setIsLoading true st in
        let userMessage := createUserMessage (id1 f) (now f) text (Some attachments) in
        let st := addMessage userMessage st in
        let streamingMessage := createStreamingMessage (id2 f) (now f) in
        let st := addMessage streamingMessage st in
        let st := set_streamingMessageRef (Some streamingMessage) st in
        let st := set_streamParserRef (StreamParser.reset (streamParserRef st)) st in
        (Return (), set_phase (Preparing snapshot text) st)
  end.

(** Lines 690-708: the request [sendMessage] assembles *)
Definition sendMessage_request (snapshot : list Message) (content : string)
    (now : nat) (st : State) : Exc Request * State :=
  let visiblePanels := getVisiblePanels (store st) in
  let collected := collectTools panelRegistry (toolCache st) visiblePanels in
  let st := set_toolCache collected.2 st in
  (tools ← collected.1;
   let context := buildContext panelRegistry now (panels (store st)) in
   let systemPrompt := generateSystemPrompt context tools in
   let apiMessages :=
     [mkApiMessage "system" (Some systemPrompt) None None None]
     ++ formatMessagesForAPI (filter (fun m => role m ≠ "error") snapshot)
     ++ [mkApiMessage "user" (Some content) None None None] in
   let apiTools :=
     if decide (0 < length tools) then Some (formatToolsForAPI tools) else None in
   Return (mkRequest apiMessages apiTools (model st) (provider st) (temperature st)),
   st).

(** Lines 760-766: the [catch] of [sendMessage] *)
Definition sendMessage_catch (err : Error) (st : State) : State :=
  updateLastMessage (errorUpdates err) (setError (Some (message err)) st).

(** Lines 767-770: the [finally] of [sendMessage] *)
Definition sendMessage_finally (st : State) : State :=
  set_streamingMessageRef None (setIsLoading false st).

(** Lines 860-862: the [finally] of [handleToolCalls] *)
Definition handleToolCalls_finally (st : State) : State :=
  setIsLoading false st.

(** The [onChunk] callbacks (lines 717-735 and 833-841).  An exception of
    [processChunk] leaves the callback; [streamChat] catches it (line 480). *)
Definition onChunk (pass : Pass) (chunk : StreamParser.Chunk) (st : State) : State :=
  let processed := StreamParser.processChunk (streamParserRef st) chunk in
  let st := set_streamParserRef processed.2 st in
  match processed.1 with
  | Throw _ => st
  | Return result =>
      let st :=
        match StreamParser.acc_content result with
        | Some c => updateLastMessage (mkUpdates (Some (Some c)) None (Some true) None) st
        | None => st
        end in
      match pass, StreamParser.acc_toolCalls result with
      | FirstPass, Some tcs =>
          updateLastMessage
            (mkUpdates None (Some (Some tcs)) (Some true) None) st
      | _, _ => st
      end
  end.

(** The [onError] callbacks (lines 736-743 and 842-849) *)
Definition onError (err : Error) (st : State) : State :=
  updateLastMessage (errorUpdates err) (setError (Some (message err)) st).

(** Lines 486-492: the [catch] of [streamChat] *)
Definition streamChat_catch (err : Error) (st : State) : State :=
  if bool_decide (JS.name err = "AbortError") then st else onError err st.

(** What runs in the caller once [await aiClient.streamChat(...)] returns *)
Definition streamChat_returned (pass : Pass) (st : State) : State :=
  match pass with
  | FirstPass => sendMessage_finally st
  | SecondPass => handleToolCalls_finally st
  end.

(** Lines 778-794: [parsedToolCalls] *)
Definition parseToolCall (tc : StreamParser.ToolCall) : Call :=
  mkCall (StreamParser.call_id tc) (StreamParser.call_type tc) (StreamParser.fn_name tc)
         (ArgText (StreamParser.fn_arguments tc))
         (Some (match try_catch (JSON_parse (StreamParser.fn_arguments tc))
                                (fun e => Return (JObject [])) with
                | Return args => args
                | Throw _ => JObject []
                end)).

(** Lines 776-797: [handleToolCalls] up to the end of
    [await mcpOrchestrator.processToolCalls(parsedToolCalls)] *)
Definition handleToolCalls_execute (toolCalls : list StreamParser.ToolCall) (st : State)
  : Exc (list CallResult) * State :=
  let parsedToolCalls := map parseToolCall toolCalls in
  let executed := processToolCalls panelRegistry (toolCache st) (store st) parsedToolCalls in
  (executed.1, set_store executed.2 st).

(** Lines 799-857: [handleToolCalls] from the results to the second
    [streamChat], whose request carries no tools *)
Definition handleToolCalls_continue (toolCalls : list StreamParser.ToolCall)
    (previousMessages : list ApiMessage) (results : list CallResult) (f : Fresh)
    (st : State) : State :=
  let toolResultMessage :=
    mkMessage (id1 f) "tool_results" None None None (Some results) None None (now f)
              None None in
  let st := addMessage toolResultMessage st in
  let st := setIsLoading true st in
  let streamingMessage := createStreamingMessage (id2 f) (now f) in
  let st := addMessage streamingMessage st in
  let st := set_streamParserRef (StreamParser.reset (streamParserRef st)) st in
  let messagesWithToolResults :=
    previousMessages
    ++ [mkApiMessage "assistant" None None None (Some toolCalls)]
    ++ map ofToolMessage (formatToolResultsAsMessages results) in
  set_phase
    (Streaming SecondPass
       (mkRequest messagesWithToolResults None (model st) (provider st) (temperature st)))
    st.

(** The first [onDone] (lines 744-758), then what follows it.  The callback
    is not awaited by [streamChat]: when [handleToolCalls] rejects, the
    rejection stays with the callback's promise and [streamChat] still
    returns to [sendMessage], whose [finally] runs before the tool results
    are in. *)
Definition onDone_first (apiMessages : list ApiMessage) (f : Fresh) (st : State)
  : Exc unit * State :=
  let finalResult := StreamParser.getResult (streamParserRef st) in
  let st :=
    updateLastMessage
      (mkUpdates (Some (Some (StreamParser.result_content finalResult)))
                 (Some (StreamParser.result_toolCalls finalResult)) (Some false) None) st in
  match StreamParser.result_toolCalls finalResult with
  | Some (tc :: tcs) =>
      let executed := handleToolCalls_execute (tc :: tcs) st in
      let st := streamChat_returned FirstPass executed.2 in
      match executed.1 with
      | Return results =>
          (Return (), handleToolCalls_continue (tc :: tcs) apiMessages results f st)
      | Throw e => (Throw e, set_phase Idle st)
      end
  | _ => (Return (), set_phase Idle (streamChat_returned FirstPass st))
  end.

(** The second [onDone] (lines 850-856), then the [finally] *)
Definition onDone_second (st : State) : State :=
  let finalResult := StreamParser.getResult (streamParserRef st) in
  let st :=
    updateLastMessage
      (mkUpdates (Some (Some (StreamParser.result_content finalResult))) None
                 (Some false) None)
      st in
  set_phase Idle (streamChat_returned SecondPass st).

(** [stopGeneration()], lines 868-875; the effect of [aiClient.abort()] on
    the request in flight is [aborted] below. *)
Definition stopGeneration (st : State) : State :=
  let st := setIsLoading false st in
  match streamingMessageRef st with
  | Some _ => updateLastMessage (mkUpdates None None (Some false) None) st
  | None => st
  end.

(** [aiClient.abort()] makes the pending [fetch] or [read] of the request in
    flight reject with an [AbortError]: [streamChat] catches it and returns,
    and the caller's [finally] runs. *)
Definition aborted (pass : Pass) (st : State) : State :=
  set_phase Idle (streamChat_returned pass (streamChat_catch AbortError st)).

(** [messages.findLastIndex(m => m.role === 'user')] *)
Fixpoint findLastUser (ms : list Message) : option nat :=
  match ms with
  | [] => None
  | m :: rest =>
      match findLastUser rest with
      | Some i => Some (S i)
      | None => if bool_decide (role m = "user") then Some 0 else None
      end
  end.

(** [regenerateLastResponse()], lines 880-892; [snapshot] is the [messages]
    of the closure, which [sendMessage] shares. *)
Definition regenerateLastResponse (snapshot : list Message) (f : Fresh) (st : State)
  : Exc unit * State :=
  match findLastUser snapshot with
  | None => (Return (), st)
  | Some lastUserIndex =>
      match snapshot !! lastUserIndex with
      | None => (Return (), st)
      | Some lastUserMessage =>
          let st := setMessages (take lastUserIndex snapshot) st in
          sendMessage snapshot (content lastUserMessage) (attachments lastUserMessage) f st
      end
  end.

(** [setModelConfig({ provider, model, temperature })]: a key that is not
    [undefined] is stored. *)
Definition setModelConfig (newProvider newModel : option (option string))
    (newTemp : option string) (st : State) : State :=
  let st := if newProvider is Some p then setProvider p st else st in
  let st := if newModel is Some m then setModel m st else st in
  if newTemp is Some t then setTemperature t st else st.

(** The continuation of [sendMessage] after its awaits: the request is
    issued, or the [catch] and [finally] run. *)
Definition sendMessage_resume (snapshot : list Message) (content : string) (now : nat)
    (st : State) : State :=
  let prepared := sendMessage_request snapshot content now st in
  match prepared.1 with
  | Return request => set_phase (Streaming FirstPass request) prepared.2
  | Throw err => set_phase Idle (sendMessage_finally (sendMessage_catch err prepared.2))
  end.

(** *** The controller as a transition system *)

(** What can happen to the controller: a call of one of the operations the
    hook returns, or the transport delivering to the pending request. *)
Inductive Event :=
| Send (content : option string) (attachments : option (list Attachment)) (f : Fresh)
| Regenerate (f : Fresh)
| Clear
| Stop
| SetModelConfig (newProvider newModel : option (option string)) (newTemp : option string)
| AddMessage (message : Message)
| UpdateLastMessage (updates : Updates)
| Prepared (now : nat)
| ResponseChunk (chunk : StreamParser.Chunk)
| ResponseDone (f : Fresh)
| ResponseError (err : Error).

(** One transition.  The runs covered are those with at most one pending
    call: [Send] and [Regenerate] are taken from [Idle] only, and a delivery
    is taken by the request in flight.  The hook does not refuse a
    [sendMessage] while a call is pending (the input sends whatever
    [isLoading] is): such overlapping calls are not runs of this system, and
    what is proved of its runs says nothing about them. *)
Definition step (st : State) (ev : Event) : option State :=
  match ev, phase st with
  | Send content attachments f, Idle =>
      Some (sendMessage (messages st) content attachments f st).2
  | Regenerate f, Idle => Some (regenerateLastResponse (messages st) f st).2
  | Clear, _ => Some (clearMessages st)
  | Stop, Streaming pass _ => Some (aborted pass (stopGeneration st))
  | Stop, _ => Some (stopGeneration st)
  | SetModelConfig p m t, _ => Some (setModelConfig p m t st)
  | AddMessage message, _ => Some (addMessage message st)
  | UpdateLastMessage updates, _ => Some (updateLastMessage updates st)
  | Prepared now, Preparing snapshot content =>
      Some (sendMessage_resume snapshot content now st)
  | ResponseChunk chunk, Streaming pass _ => Some (onChunk pass chunk st)
  | ResponseDone f, Streaming FirstPass request =>
      Some (onDone_first (req_messages request) f st).2
  | ResponseDone f, Streaming SecondPass _ => Some (onDone_second st)
  | ResponseError err, Streaming pass _ =>
      Some (set_phase Idle (streamChat_returned pass (streamChat_catch err st)))
  | _, _ => None
  end.

(** A run: the events taken in order; [None] if one is not enabled. *)
Definition run (st : State) (evs : list Event) : option State :=
  foldl (fun s ev => s ≫= fun st => step st ev) (Some st) evs.

End WithEnvironment.

(** A controller freshly mounted on the store [s] *)
Definition initial (s : Store) : State :=
  mkState [] false None None None "0.7" None StreamParser.new ∅ s Idle.

End Chat.

(** ** The vocabulary of the stated properties *)

Module StreamSpec.
Import JS StreamParser.

(** The concatenation of a list of strings, first to last *)
Definition concatenation (l : list string) : string := foldr String.append "" l.

(** The content fragments of a chunk sequence, in arrival order *)
Definition fragments (cs : list Chunk) : list string := omap content cs.

(** A chunk that carries nothing but (possibly) a content fragment *)
Definition contentOnly (c : Chunk) : Prop :=
  tool_calls c = None /\ tool_call_start c = None /\
  tool_input_delta c = None /\ finish_reason c = None.

Definition contentChunk (s : string) : Chunk :=
  mkChunk None (Some s) None None None None.

(** The merge rule in the specification's words: a new name fragment is
    accepted only if the stored name is empty, or the fragment differs from
    it and is at least as long. *)
Definition mergeName (current new : string) : string :=
  if decide (current = "" \/ (new <> current /\ String.length current <= String.length new))
  then new else current.

(** The name stored at an index; no entry counts as the empty name. *)
Definition storedName (b : gmap nat ToolCall) (i : nat) : string :=
  from_option fn_name "" (b !! i).

(** The name a fragment carries; none counts as the empty name. *)
Definition fragmentName (tc : ToolCallDelta) : string :=
  or_empty (frag_function tc ≫= delta_name).

(** A chunk delivering one name fragment to index [i] *)
Definition nameChunk (i : nat) (n : string) : Chunk :=
  mkChunk None None (Some [mkToolCallDelta i None (Some (mkFunctionDelta (Some n) None))])
          None None None.

(** A chunk of the alternate encoding: it has no indexed fragments. *)
Definition alternate (c : Chunk) : Prop := tool_calls c = None.

(** The alternate encoding in the specification's words, over the list of
    entries in allocation order: [tool_call_start] allocates a new entry after
    the last one; [tool_input_delta] appends to the arguments of the entry
    allocated last and to no other. *)
Definition allocate (entries : list ToolCall) (c : Chunk) : list ToolCall :=
  match tool_call_start c with
  | Some st => entries ++ [mkToolCall (start_id st) "function" (start_name st) ""]
  | None => entries
  end.

Definition appendToLast (entries : list ToolCall) (c : Chunk) : list ToolCall :=
  match tool_input_delta c with
  | Some d =>
      alter (fun e => set_arguments (fn_arguments e +:+ d) e) (pred (length entries)) entries
  | None => entries
  end.

Definition alternateStep (entries : list ToolCall) (c : Chunk) : list ToolCall :=
  appendToLast (allocate entries c) c.

Definition alternateEntries (cs : list Chunk) : list ToolCall :=
  foldl alternateStep [] cs.

Definition startChunk (i n : string) : Chunk :=
  mkChunk None None None (Some (mkToolCallStart i n)) None None.

Definition deltaChunk (d : string) : Chunk :=
  mkChunk None None None None (Some d) None.

End StreamSpec.

Module OrchestratorSpec.
Import JS Json Panels Orchestrator.
Section WithRegistry.
Context {builtins : Builtins}.
Variable panelRegistry : Registry.

(** The tools one panel contributes: those its type lists for its state, each
    enriched; none if the type has no listing method or the listing throws. *)
Definition panelTools (panel : PanelInstance) : list AggregatedTool :=
  match getPanelDefinition panelRegistry (panelTypeId panel) ≫= getMCPTools with
  | Some listTools =>
      match listTools (state panel) with
      | Return tools => map (enrich panel) tools
      | Throw _ => []
      end
  | None => []
  end.

(** The listing method of the panel's type throws on the panel's state. *)
Definition listingFails (panel : PanelInstance) : Prop :=
  exists listTools e,
    getPanelDefinition panelRegistry (panelTypeId panel) ≫= getMCPTools = Some listTools
    /\ listTools (state panel) = Throw e.

(** What a panel lists: the tools its type's [getMCPTools] returns for its
    state, as the panel gives them; none if the type has no such method or the
    call throws. *)
Definition listedBy (panel : PanelInstance) : list MCPTool :=
  match getPanelDefinition panelRegistry (panelTypeId panel) ≫= getMCPTools with
  | Some listTools =>
      match listTools (state panel) with
      | Return tools => tools
      | Throw _ => []
      end
  | None => []
  end.

(** The listings of a panel list in aggregation order: panel by panel, each
    panel's tools in the order it lists them, each with the panel it is of. *)
Definition listings (panels : list PanelInstance) : list (PanelInstance * MCPTool) :=
  concat (map (fun panel => map (pair panel) (listedBy panel)) panels).

(** The aggregated tool [t] stands for the tool a panel listed: its name is
    [{panelTypeId}_{name}], the name the panel gave is retained as
    [originalName], the routing metadata are the panel's id, type id and
    title, and description and schema are the tool's. *)
Definition aggregates (t : AggregatedTool) (listing : PanelInstance * MCPTool) : Prop :=
  name t = panelTypeId listing.1 +:+ "_" +:+ tool_name listing.2
  /\ originalName t = tool_name listing.2
  /\ _panelId t = id listing.1
  /\ _panelTypeId t = panelTypeId listing.1
  /\ _panelTitle t = title listing.1
  /\ description t = tool_description listing.2
  /\ inputSchema t = tool_inputSchema listing.2.

(** No executor of the registry throws (or rejects with) [null] or
    [undefined]. *)
Definition noNullishRejection : Prop :=
  forall typeId definition execute toolName args state,
    panelRegistry !! typeId = Some definition ->
    executeMCPTool definition = Some execute ->
    (execute toolName args state).1 <> Rejected Nullish.


(** The heading line of one observed panel *)
Definition heading (panel : ObservedPanel) : string :=
  "### " +:+ observedTitle panel +:+ " (" +:+ panelType panel +:+ ")".




(** Some call of the list carries argument text that [JSON.parse] rejects. *)
Definition malformed (call : Call) : Prop :=
  exists text e, fn_arguments call = ArgText text /\ JSON_parse text = Throw e.

End WithRegistry.
End OrchestratorSpec.

Module ChatSpec.
Import JS Json Panels Orchestrator Messages Client Chat.

(** Every code unit of the text is white space (an empty text included). *)
Definition blank (text : string) : Prop :=
  Forall (fun c => is_white_space c = true) (list_ascii_of_string text).

(** No attachments: the argument is left out or is the empty array. *)
Definition noAttachments (attachments : option (list Attachment)) : Prop :=
  default [] attachments = [].

(** The list [after] keeps the messages of [before]: each message of [before]
    is still at its position, under the same id. *)
Definition keeps (before after : list Message) : Prop :=
  forall i m, before !! i = Some m ->
              exists m', after !! i = Some m' /\ msg_id m' = msg_id m.

(** An event removes messages when the list after it does not keep the
    messages of the list before it. *)
Definition removes (before after : list Message) : Prop := ~ keeps before after.

(** The claim that regeneration alone removes messages *)
Definition onlyRegenerationRemoves {builtins : Builtins} (panelRegistry : Registry) : Prop :=
  forall st ev st',
    step panelRegistry st ev = Some st' ->
    removes (messages st) (messages st') ->
    exists f, ev = Regenerate f.

(** An operation on the controller that keeps the messages *)
Definition keeping (op : State -> State) : Prop :=
  forall st, keeps (messages st) (messages (op st)).

(** While the second pass streams, [streamingMessageRef] is empty. *)
Definition refCleared (st : State) : Prop :=
  forall request, phase st = Streaming SecondPass request -> streamingMessageRef st = None.

(** The last message of the conversation *)
Definition lastMessage (st : State) : option Message := last (messages st).

End ChatSpec.

(** ** A small studio, to run the model on *)

Module Examples.
Import JS Json Panels Orchestrator Messages Client Chat.

Definition workspaceTools (s : PanelState) : Exc (list MCPTool) :=
  Return [mkTool "list_files" "List the files of the workspace" None;
          mkTool "select_file" "Select one file" None].

Definition workspaceExecute (name : string) (args : json) (s : PanelState)
  : Settled json * list PanelState :=
  if String.eqb name "list_files" then
    (Resolved (JObject [("files", JArray [JString "a.txt"; JString "b.txt"; JString "c.txt"]);
                        ("count", JNumber "3")]), [])
  else if String.eqb name "select_file" then
    (Resolved (JBool true), [{["selected" := args]}])
  else (Rejected (ofError (mkError "Error" ("Unknown tool: " +:+ name))), []).

Definition workspaceContext (s : PanelState) : Exc (option ContextDescriptor) :=
  Return (Some (mkContext (Some "files") (Some (JString "a.txt b.txt c.txt")))).

Definition workspaceDefinition : PanelDefinition :=
  mkDefinition (Some workspaceTools) (Some workspaceExecute) (Some workspaceContext).

(** A panel type whose tool listing throws *)
Definition brokenDefinition : PanelDefinition :=
  mkDefinition (Some (fun _ => Throw (mkError "Error" "tools unavailable"))) None None.

Definition panelRegistry : Registry :=
  <["workspace" := workspaceDefinition]> (<["broken" := brokenDefinition]> ∅).




Definition workspacePanel : PanelInstance :=
  mkPanel "panel-1" "workspace" "Files" flexible ∅ 0 true.

Definition brokenPanel : PanelInstance :=
  mkPanel "panel-2" "broken" "Broken" flexible ∅ 1 false.

Definition studio : Store := mkStore [workspacePanel; brokenPanel].

Definition listFilesTool : AggregatedTool :=
  enrich workspacePanel (mkTool "list_files" "List the files of the workspace" None).

Definition userMessage : Message := createUserMessage "msg-1" 1 "Hello" None.

Definition reply : Message :=
  mkMessage "msg-2" "assistant" (Some "Hi") None None None None None 1 (Some false) None.

(** A chunk carrying one complete indexed tool call *)
Definition toolCallChunk (i name arguments : string) : StreamParser.Chunk :=
  StreamParser.mkChunk None None
    (Some [StreamParser.mkToolCallDelta 0 (Some i)
             (Some (StreamParser.mkFunctionDelta (Some name) (Some arguments)))])
    None None None.

(** A stream in the alternate encoding: two tool calls, the first with its
    input in three deltas, one of them empty *)
Definition alternateStream : list StreamParser.Chunk :=
  [StreamSpec.startChunk "toolu_1" "list_files";
   StreamSpec.deltaChunk "[1,";
   StreamSpec.deltaChunk "";
   StreamSpec.deltaChunk "2]";
   StreamSpec.startChunk "toolu_2" "read_file";
   StreamSpec.deltaChunk "{}"].




Definition fresh1 : Fresh := mkFresh "msg-1" "msg-2" 1.
Definition fresh2 : Fresh := mkFresh "msg-3" "msg-4" 2.

(** The user sends a request, the model answers with a call of
    [workspace_list_files], the tool runs and the second pass starts
    streaming; then the user stops. *)
Definition stopInSecondPass : list Event :=
  [Send (Some "List my files") None fresh1;
   Prepared 1;
   ResponseChunk (toolCallChunk "call_1" "workspace_list_files" "{}");
   ResponseDone fresh2;
   ResponseChunk (StreamSpec.contentChunk "You have");
   Stop].

(** The same request, stopped while the first pass streams *)
Definition stopInFirstPass : list Event :=
  [Send (Some "List my files") None fresh1;
   Prepared 1;
   ResponseChunk (StreamSpec.contentChunk "You have");
   Stop].

(** The model answers with two calls; the argument text of the first is cut
    short. *)
Definition malformedArguments : list Event :=
  [Send (Some "List my files") None fresh1;
   Prepared 1;
   ResponseChunk (toolCallChunk "call_1" "workspace_select_file" "{");
   ResponseChunk
     (StreamParser.mkChunk None None
        (Some [StreamParser.mkToolCallDelta 1 (Some "call_2")
                 (Some (StreamParser.mkFunctionDelta (Some "workspace_list_files")
                                                     (Some "{}")))])
        None None None);
   ResponseDone fresh2].

End Examples.

(** ** Reading the event stream ([utils/streamParser.js],
    [AIClient.streamChat]) *)

Module StreamReader.
Import JS Json.

(** [s.split('\n')] on the code units: the pieces between the newlines, one
    more than there are newlines *)
Fixpoint splitLines (l : list ascii) : list (list ascii) :=
  match l with
  | [] => [[]]
  | c :: r =>
      if bool_decide (c = "010"%char) then [] :: splitLines r
      else match splitLines r with
           | h :: t => (c :: h) :: t
           | [] => [[c]]
           end
  end.

Definition split (s : string) : list string :=
  map string_of_list_ascii (splitLines (list_ascii_of_string s)).

(** [line.startsWith(prefix)] *)
Definition startsWith (prefix line : string) : bool := String.prefix prefix line.

(** [line.slice(n)] *)
Definition sliceFrom (n : nat) (line : string) : string :=
  String.substring n (String.length line - n) line.

Section WithBuiltins.
Context {builtins : Builtins}.

(** The object [{ type: 'done' }] *)
Definition doneFrame : json := JObject [("type", JString "done")].

(** [parseSSELine(line)]; [null] is [JNull]. *)
Definition parseSSELine (line : string) : json :=
  if negb (startsWith "data: " line) then JNull
  else
    let data := Chat.trim (sliceFrom 6 line) in
    if String.eqb data "[DONE]" then doneFrame
    else match try_catch (JSON_parse data) (fun e => Return JNull) with
         | Return parsed => parsed
         | Throw _ => JNull
         end.

(** Lines 219-229 of [createStreamReader]: one read.  The decoded text is
    appended to the buffer, the complete lines are parsed and the truthy
    results yielded; the last piece stays in the buffer. *)
Definition readerStep (buffer piece : string) : list json * string :=
  let buffer := buffer +:+ piece in
  let lines := split buffer in
  (filter (fun parsed => truthy parsed = true) (map parseSSELine (removelast lines)),
   or_empty (last lines)).

(** [createStreamReader(response)]: what the generator yields for the decoded
    texts of the successive reads, then the end of the body *)
Fixpoint createStreamReaderFrom (buffer : string) (pieces : list string) : list json :=
  match pieces with
  | [] =>
      if JS.truthy (Some buffer) then
        filter (fun parsed => truthy parsed = true) [parseSSELine buffer]
      else []
  | piece :: rest =>
      (readerStep buffer piece).1 ++ createStreamReaderFrom (readerStep buffer piece).2 rest
  end.

Definition createStreamReader (pieces : list string) : list json :=
  createStreamReaderFrom "" pieces.

(** A callback [streamChat] makes *)
Inductive Callback :=
| OnChunk (chunk : json)
| OnDone.

(** Lines 468-484 of [streamChat]: the loop over the complete lines of one
    read; the flag tells that [[DONE]] was met and [streamChat] returned. *)
Fixpoint deliverLines (lines : list string) : list Callback * bool :=
  match lines with
  | [] => ([], false)
  | line :: rest =>
      if startsWith "data: " line then
        let data := Chat.trim (sliceFrom 6 line) in
        if String.eqb data "[DONE]" then ([OnDone], true)
        else match JSON_parse data with
             | Return chunk =>
                 (OnChunk chunk :: (deliverLines rest).1, (deliverLines rest).2)
             | Throw _ => deliverLines rest
             end
      else deliverLines rest
  end.

(** Lines 454-485 of [streamChat], for a response that is [ok] and a body
    that is read to its end: the callbacks made, in order. *)
Fixpoint streamChatFrom (buffer : string) (pieces : list string) : list Callback :=
  match pieces with
  | [] => [OnDone]
  | piece :: rest =>
      let buffer := buffer +:+ piece in
      let lines := split buffer in
      let delivered := deliverLines (removelast lines) in
      if delivered.2 then delivered.1
      else delivered.1 ++ streamChatFrom (or_empty (last lines)) rest
  end.

Definition streamChat (pieces : list string) : list Callback := streamChatFrom "" pieces.

(** An element of the array [getParsedToolCalls] returns *)
Record ParsedToolCall := mkParsedToolCall {
  parsed_id : string;
  parsed_type : string;
  parsed_name : string;
  parsed_arguments : string;
  parsed_parsedArguments : json
}.

(** Lines 157-162: [args], [{}] unless the text parses *)
Definition parsedArgumentsOf (text : string) : json :=
  match try_catch (JSON_parse text) (fun e => Return (JObject [])) with
  | Return args => args
  | Throw _ => JObject []
  end.

(** [getParsedToolCalls()] *)
Definition getParsedToolCalls (p : StreamParser.t) : option (list ParsedToolCall) :=
  let toolCalls := StreamParser.Object_values (StreamParser.toolCallsBuffer p) in
  if bool_decide (length toolCalls = 0) then None
  else Some (map (fun tc =>
                    mkParsedToolCall (StreamParser.call_id tc) (StreamParser.call_type tc)
                      (StreamParser.fn_name tc) (StreamParser.fn_arguments tc)
                      (parsedArgumentsOf (StreamParser.fn_arguments tc)))
                 toolCalls).

End WithBuiltins.
End StreamReader.

(** ** Message helpers ([utils/messageUtils.js]) *)

Module MessageUtils.
Import JS Json Messages.

(** [truncateContent(content, maxLength = 100)] *)
Definition truncateContent (content : option string) (maxLength : option nat)
  : option string :=
  let maxLength := default 100 maxLength in
  match content with
  | Some text =>
      if negb (JS.truthy (Some text)) || (String.length text <=? maxLength)
      then Some text
      else Some (String.substring 0 maxLength text +:+ "...")
  | None => None
  end.

(** [estimateTokens(content)]: [Math.ceil(content.length / 4)] *)
Definition estimateTokens (content : option string) : nat :=
  match content with
  | Some text =>
      if negb (JS.truthy (Some text)) then 0 else (String.length text + 3) / 4
  | None => 0
  end.

(** [calculateTotalTokens(messages)] *)
Definition calculateTotalTokens (messages : list Message) : nat :=
  foldl (fun total msg => total + estimateTokens (content msg)) 0 messages.

(** Lines 171-179 of [trimMessagesToFit]: the loop over the messages, most
    recent first; [unshift] puts a message in front of [result]. *)
Fixpoint takeFitting (maxTokens totalTokens : nat) (recent : list Message)
    (result : list Message) : list Message :=
  match recent with
  | [] => result
  | message :: rest =>
      let tokens := estimateTokens (content message) in
      if totalTokens + tokens <=? maxTokens
      then takeFitting maxTokens (totalTokens + tokens) rest (message :: result)
      else result
  end.

(** [trimMessagesToFit(messages, maxTokens)] *)
Definition trimMessagesToFit (messages : list Message) (maxTokens : nat) : list Message :=
  let systemMessage := List.find (fun m => bool_decide (role m = "system")) messages in
  let totalTokens :=
    match systemMessage with
    | Some m => estimateTokens (content m)
    | None => 0
    end in
  let result := match systemMessage with Some m => [m] | None => [] end in
  let nonSystemMessages := rev (filter (fun m => role m <> "system") messages) in
  takeFitting maxTokens totalTokens nonSystemMessages result.

End MessageUtils.

(** ** The studio store's panel actions ([context/StudioContext.jsx]) and
    the defaults of a panel definition ([panels/BasePanelInterface.js]) *)

Module Studio.
Import JS Json Panels.

(** The store with the fields the panel actions touch *)
Record Shell := mkShell {
  shellStore : Store;
  activeFullscreenId : option string;
  focusedPanelId : option string;
  aiObservingPanels : list string
}.

Definition set_mode (m : PanelMode) (p : PanelInstance) : PanelInstance :=
  mkPanel (id p) (panelTypeId p) (title p) m (state p) (order p) (isAIObserving p).
Definition set_order (n : nat) (p : PanelInstance) : PanelInstance :=
  mkPanel (id p) (panelTypeId p) (title p) (mode p) (state p) n (isAIObserving p).
Definition set_isAIObserving (b : bool) (p : PanelInstance) : PanelInstance :=
  mkPanel (id p) (panelTypeId p) (title p) (mode p) (state p) (order p) b.

(** [o === id], for a field that is [null] or an id *)
Definition pointsAt (o : option string) (i : string) : bool := bool_decide (o = Some i).

(** [removePanel(id)] *)
Definition removePanel (i : string) (s : Shell) : Shell :=
  let panel := List.find (fun p => bool_decide (id p = i)) (panels (shellStore s)) in
  if (if panel is Some panel then bool_decide (panelTypeId panel = "chat") else false)
  then s
  else
    mkShell (mkStore (filter (fun p => id p <> i) (panels (shellStore s))))
            (if pointsAt (activeFullscreenId s) i then None else activeFullscreenId s)
            (if pointsAt (focusedPanelId s) i then None else focusedPanelId s)
            (aiObservingPanels s).

(** [updatePanelMode(id, mode)] *)
Definition updatePanelMode (i : string) (m : PanelMode) (s : Shell) : Shell :=
  let newActiveFullscreen :=
    if bool_decide (m = fullscreen) then Some i
    else if pointsAt (activeFullscreenId s) i then None
    else activeFullscreenId s in
  mkShell (mkStore (map (fun p => if bool_decide (id p = i) then set_mode m p else p)
                        (panels (shellStore s))))
          newActiveFullscreen (focusedPanelId s) (aiObservingPanels s).

(** [panels.findIndex(p => p.id === id)], [None] for [-1] *)
Fixpoint findIndex (i : string) (ps : list PanelInstance) : option nat :=
  match ps with
  | [] => None
  | p :: rest => if bool_decide (id p = i) then Some 0 else S <$> findIndex i rest
  end.

(** [panels.splice(index, 0, item)] *)
Definition spliceIn {A} (index : nat) (item : A) (l : list A) : list A :=
  take index l ++ item :: drop index l.

(** [reorderPanels(sourceId, targetId)] *)
Definition reorderPanels (sourceId targetId : string) (s : Shell) : Shell :=
  let ps := panels (shellStore s) in
  match findIndex sourceId ps, findIndex targetId ps with
  | Some sourceIndex, Some targetIndex =>
      match ps !! sourceIndex with
      | Some removed =>
          let spliced := spliceIn targetIndex removed (delete sourceIndex ps) in
          mkShell (mkStore (imap (fun i p => set_order i p) spliced))
                  (activeFullscreenId s) (focusedPanelId s) (aiObservingPanels s)
      | None => s
      end
  | _, _ => s
  end.

(** [setAIObserving(panelId, isObserving)] *)
Definition setAIObserving (panelId : string) (isObserving : bool) (s : Shell) : Shell :=
  mkShell (mkStore (map (fun p => if bool_decide (id p = panelId)
                                  then set_isAIObserving isObserving p else p)
                        (panels (shellStore s))))
          (activeFullscreenId s) (focusedPanelId s)
          (if isObserving then aiObservingPanels s ++ [panelId]
           else filter (fun i => i <> panelId) (aiObservingPanels s)).

(** [getHiddenPanels()] *)
Definition getHiddenPanels (s : Store) : list PanelInstance :=
  filter (fun p => mode p = hidden) (panels s).

(** [getPanelById(id)] *)
Definition getPanelById (i : string) (s : Store) : option PanelInstance :=
  List.find (fun p => bool_decide (id p = i)) (panels s).

(** The three capability methods of [createPanelDefinition(definition)]: a
    method the argument lacks gets its default. *)
Definition createPanelDefinition (definition : PanelDefinition) : PanelDefinition :=
  mkDefinition
    (Some (default (fun _ => Return []) (getMCPTools definition)))
    (Some (default (fun _ _ _ =>
                      (Rejected (ofError (mkError "Error" "Tool not implemented")), []))
                   (executeMCPTool definition)))
    (Some (default (fun _ => Return (Some (mkContext (Some "empty") None)))
                   (getLLMContext definition))).

End Studio.

(** ** The vocabulary of the further properties *)

Module DecoderSpec.
Import JS StreamParser StreamSpec.

(** The argument text stored at an index; no entry counts as empty. *)
Definition storedArguments (b : gmap nat ToolCall) (i : nat) : string :=
  from_option fn_arguments "" (b !! i).

(** The argument text a fragment carries; none counts as empty. *)
Definition fragmentArguments (tc : ToolCallDelta) : string :=
  or_empty (frag_function tc ≫= delta_arguments).

(** A chunk without the alternate encoding: no start and no input delta *)
Definition indexedOnly (c : Chunk) : Prop :=
  tool_call_start c = None /\ tool_input_delta c = None.

(** The indexed fragments of a chunk sequence, in arrival order *)
Definition indexedFragments (cs : list Chunk) : list ToolCallDelta :=
  concat (omap tool_calls cs).

(** The fragments addressed to index [i] *)
Definition fragmentsAt (i : nat) (tcs : list ToolCallDelta) : list ToolCallDelta :=
  filter (fun tc => frag_index tc = i) tcs.

(** The truthy finish reasons of a chunk sequence, in arrival order *)
Definition finishReasons (cs : list Chunk) : list string :=
  filter (fun r => truthy (Some r) = true) (omap finish_reason cs).

Definition finishChunk (r : option string) : Chunk :=
  mkChunk None None None None None r.

Definition argumentsChunk (i : nat) (a : string) : Chunk :=
  mkChunk None None (Some [mkToolCallDelta i None (Some (mkFunctionDelta None (Some a)))])
          None None None.

End DecoderSpec.

Module ReaderSpec.
Import JS Json StreamReader StreamSpec.

(** The complete lines of a text: all pieces of the split but the last *)
Definition completeLines (text : string) : list string := removelast (split text).

(** What follows the last newline of a text *)
Definition remainder (text : string) : string := or_empty (last (split text)).

Section WithBuiltins.
Context {builtins : Builtins}.

(** What [createStreamReader] yields for a whole text: the truthy parses of
    its complete lines, then that of a non-empty remainder *)
Definition framesOf (text : string) : list json :=
  filter (fun parsed => truthy parsed = true) (map parseSSELine (completeLines text))
  ++ (if JS.truthy (Some (remainder text))
      then filter (fun parsed => truthy parsed = true) [parseSSELine (remainder text)]
      else []).

(** The callbacks [streamChat] makes for a whole text: those of its complete
    lines up to [[DONE]], and [onDone] at the end of the body otherwise *)
Definition callbacksOf (text : string) : list Callback :=
  if (deliverLines (completeLines text)).2
  then (deliverLines (completeLines text)).1
  else (deliverLines (completeLines text)).1 ++ [OnDone].

End WithBuiltins.

End ReaderSpec.

Module DispatchSpec.
Import JS Json Panels Orchestrator OrchestratorSpec.

Section WithBuiltins.
Context {builtins : Builtins}.

(** The arguments of a call can be handed to [executeTool]: they are a value
    already, or text that [JSON.parse] accepts. *)
Definition wellFormed (call : Call) : Prop := returns (argumentsOf call).

End WithBuiltins.

(** Two panel instances that differ at most in their state *)
Definition sameButState (p p' : PanelInstance) : Prop :=
  id p' = id p /\ panelTypeId p' = panelTypeId p /\ title p' = title p
  /\ mode p' = mode p /\ order p' = order p /\ isAIObserving p' = isAIObserving p.

(** An observed entry describes a panel of the list that is being observed. *)
Definition describesObserved (panels : list PanelInstance) (o : ObservedPanel) : Prop :=
  exists p,
    p ∈ panels /\ isAIObserving p = true
    /\ panelId o = id p /\ panelType o = panelTypeId p /\ observedTitle o = title p.

End DispatchSpec.

Module ControllerSpec.
Import JS Json Panels Orchestrator Messages Client Chat ChatSpec.

(** Two messages that differ at most in [content] and [isStreaming] *)
Definition sameButStream (m m' : Message) : Prop :=
  msg_id m' = msg_id m /\ role m' = role m /\ attachments m' = attachments m
  /\ toolCalls m' = toolCalls m /\ results m' = results m /\ msg_name m' = msg_name m
  /\ msg_tool_call_id m' = msg_tool_call_id m /\ timestamp m' = timestamp m
  /\ isError m' = isError m.

(** The object an [onDone] callback passes to [updateLastMessage] when the
    stream carried no tool call: the first pass writes [toolCalls: null], the
    second pass leaves the key out. *)
Definition doneUpdates (pass : Pass) (content : string) : Updates :=
  mkUpdates (Some (Some content)) (if pass is FirstPass then Some None else None)
            (Some false) None.

(** A delivery of the transport to the request in flight *)
Definition delivery (ev : Event) : Prop :=
  match ev with
  | ResponseChunk _ | ResponseDone _ | ResponseError _ => True
  | _ => False
  end.

(** [sendMessage] is between its first state change and its [finally]. *)
Definition firstPassPending (st : State) : Prop :=
  match phase st with
  | Preparing _ _ | Streaming FirstPass _ => True
  | _ => False
  end.

(** A controller as the hook mounts it, whatever conversation and settings it
    restores: nothing pending, not loading, no streaming message. *)
Definition mounted (st : State) : Prop :=
  phase st = Idle /\ isLoading st = false /\ streamingMessageRef st = None.

(** The system message that opens a request *)
Definition systemMessage (prompt : string) : ApiMessage :=
  mkApiMessage "system" (Some prompt) None None None.

(** The user message that closes the request of [sendMessage] *)
Definition userTurn (content : string) : ApiMessage :=
  mkApiMessage "user" (Some content) None None None.

(** The request message [msg] answers the tool call [call]: it is of role
    [tool], under the call's id and the name the call names, and carries no
    tool calls of its own. *)
Definition answers (msg : ApiMessage) (call : StreamParser.ToolCall) : Prop :=
  api_role msg = "tool"
  /\ api_tool_call_id msg = Some (StreamParser.call_id call)
  /\ api_name msg = Some (StreamParser.fn_name call)
  /\ api_tool_calls msg = None.

(** The [tool_results] message of [handleToolCalls] *)
Definition toolResultMessage (f : Fresh) (results : list CallResult) : Message :=
  mkMessage (id1 f) "tool_results" None None None (Some results) None None (now f)
            None None.

End ControllerSpec.

Module MessageUtilsSpec.
Import JS Json Messages MessageUtils.

(** The system message [trimMessagesToFit] keeps: the first one, if any *)
Definition keptSystem (messages : list Message) : list Message :=
  option_list (List.find (fun m => bool_decide (role m = "system")) messages).

(** The messages [trimMessagesToFit] chooses from *)
Definition nonSystem (messages : list Message) : list Message :=
  filter (fun m => role m <> "system") messages.

End MessageUtilsSpec.

(** ** States of one exchange on the small studio *)

Module Walkthrough.
Import JS Json Panels Orchestrator Messages Client Chat Examples.

(** The request in flight, when there is one *)
Definition requestOf (st : State) : Request :=
  match phase st with
  | Streaming _ request => request
  | _ => mkRequest [] None None None ""
  end.

(** The user has sent ["Hello"]: [sendMessage] is suspended on its awaits. *)
Definition helloSent : State :=
  (sendMessage [] (Some "Hello") None fresh1 (initial studio)).2.

(** The request of that message is in flight. *)
Definition helloStreaming : State :=
  sendMessage_resume (builtins := reference) panelRegistry [] "Hello" 1 helloSent.

(** The model has answered with a call of [workspace_select_file]. *)
Definition toolStreaming : State :=
  onChunk FirstPass (toolCallChunk "call_1" "workspace_select_file" "{}") helloStreaming.

(** The tool has run and the second request is in flight. *)
Definition secondPass : State :=
  (onDone_first (builtins := reference) panelRegistry
     (req_messages (requestOf toolStreaming)) fresh2 toolStreaming).2.

(** A restored conversation is regenerated and the request is in flight. *)
Definition regenerating : State :=
  sendMessage_resume (builtins := reference) panelRegistry [userMessage; reply] "Hello" 2
    (regenerateLastResponse [userMessage; reply] fresh2
       (setMessages [userMessage; reply] (initial studio))).2.

(** A panel type registered with the defaults only *)
Definition plainRegistry : Registry :=
  <["plain" := Studio.createPanelDefinition (mkDefinition None None None)]> ∅.

Definition plainPanel : PanelInstance :=
  mkPanel "panel-9" "plain" "Plain" flexible ∅ 0 true.

Definition plainTool : AggregatedTool :=
  mkAggregated "Does nothing" None "panel-9" "plain" "Plain" "plain_noop" "noop".

End Walkthrough.

(** * Properties *)

(** ** The stream decoder *)

Module StreamParserFacts.
Import JS StreamParser StreamSpec.

Lemma append_cons (c : ascii) (s t : string) : String c s +:+ t = String c (s +:+ t).
Proof. reflexivity. Qed.

Lemma append_nil_r (s : string) : s +:+ "" = s.
Proof. induction s as [|c s IH]; [done|]. by rewrite append_cons, IH. Qed.

Lemma append_assoc (s1 s2 s3 : string) : (s1 +:+ s2) +:+ s3 = s1 +:+ (s2 +:+ s3).
Proof. induction s1 as [|c s1 IH]; [done|]. by rewrite !append_cons, IH. Qed.

Lemma truthy_false_empty (s : string) : truthy (Some s) = false -> s = "".
Proof.
  unfold truthy. intros H. apply negb_false_iff in H. by apply String.eqb_eq in H.
Qed.

Lemma processContent_buffer (c : Chunk) (p : t) :
  contentBuffer (processContent c p) = contentBuffer p +:+ default "" (content c).
Proof.
  unfold processContent. destruct (content c) as [s|]; cbn.
  - destruct (truthy (Some s)) eqn:E; [done|].
    apply truthy_false_empty in E. subst. by rewrite append_nil_r.
  - by rewrite append_nil_r.
Qed.

Lemma processChunk_contentBuffer (p : t) (c : Chunk) :
  contentBuffer (processChunk p c).2 = contentBuffer p +:+ default "" (content c).
Proof.
  unfold processChunk.
  assert (Hd : forall q q', processToolInputDelta c q = Return q' ->
                            contentBuffer q' = contentBuffer q).
  { intros q q'. unfold processToolInputDelta.
    repeat case_match; intros [= <-]; done. }
  assert (H3 : contentBuffer (processToolCallStart c (processToolCalls c (processContent c p)))
               = contentBuffer p +:+ default "" (content c)).
  { unfold processToolCallStart, processToolCalls.
    repeat case_match; cbn; apply processContent_buffer. }
  destruct (processToolInputDelta c _) as [p4|e] eqn:E; cbn.
  - unfold processFinishReason. apply Hd in E.
    repeat case_match; cbn; by rewrite E, H3.
  - exact H3.
Qed.

Lemma processChunks_contentBuffer (cs : list Chunk) (p : t) :
  contentBuffer (processChunks p cs) = contentBuffer p +:+ concatenation (fragments cs).
Proof.
  revert p. induction cs as [|c cs IH]; intros p; cbn.
  - by rewrite append_nil_r.
  - unfold processChunks in *. cbn. rewrite IH, processChunk_contentBuffer.
    rewrite append_assoc. f_equal. unfold fragments. cbn.
    by destruct (content c) as [s|].
Qed.


Lemma processChunk_returns_without_delta (p : t) (c : Chunk) :
  tool_input_delta c = None -> returns (processChunk p c).1.
Proof.
  intros H. unfold processChunk, processToolInputDelta. rewrite H. cbn. by eexists.
Qed.

Lemma allSucceed_without_delta (cs : list Chunk) (p : t) :
  Forall (fun c => tool_input_delta c = None) cs -> allSucceed p cs.
Proof.
  intros H. revert p. induction H as [|c cs Hc _ IH]; intros p; cbn; [done|].
  split; [by apply processChunk_returns_without_delta | apply IH].
Qed.

(** C3 (content ordering).  For every sequence of chunks that carry only
    content fragments, every call of [processChunk] returns, and the content
    of [getResult()] after processing them in arrival order on a fresh parser
    is the concatenation of the fragments in that order, whatever their sizes
    and count: an empty fragment adds nothing, and no fragment is dropped or
    reordered. *)
Theorem content_ordering (cs : list Chunk) :
  Forall contentOnly cs ->
  allSucceed new cs /\
  result_content (getResult (processChunks new cs)) = concatenation (fragments cs).
Proof.
  intros H. split.
  - apply allSucceed_without_delta. eapply Forall_impl; [exact H|].
    by intros c (_ & _ & Hd & _).
  - unfold getResult. cbn. by rewrite processChunks_contentBuffer.
Qed.

Lemma content_ordering_witness :
  Forall contentOnly [contentChunk "Hel"; contentChunk ""; contentChunk "lo"] /\
  result_content
    (getResult (processChunks new [contentChunk "Hel"; contentChunk ""; contentChunk "lo"]))
  = "Hello".
Proof.
  assert (H : Forall contentOnly [contentChunk "Hel"; contentChunk ""; contentChunk "lo"]).
  { repeat constructor. }
  split; [exact H|]. exact (proj2 (content_ordering _ H)).
Defined.

Lemma acceptName_spec (current new : string) :
  acceptName current new = true <->
  current = "" \/ (new <> current /\ String.length current <= String.length new).
Proof.
  unfold acceptName, truthy.
  rewrite orb_true_iff, andb_true_iff, !negb_true_iff, negb_false_iff.
  rewrite String.eqb_eq, String.eqb_neq, Nat.leb_le. done.
Qed.

Lemma processToolCall_name (b : gmap nat ToolCall) (tc : ToolCallDelta) :
  storedName (processToolCall b tc) (frag_index tc)
  = mergeName (storedName b (frag_index tc)) (fragmentName tc).
Proof.
  unfold storedName, processToolCall, fragmentName, mergeName.
  rewrite lookup_insert_eq. cbn.
  set (fname := frag_function tc ≫= delta_name).
  assert (Hid : forall e, fn_name (match frag_id tc with
                                   | Some i => if truthy (Some i) then set_id i e else e
                                   | None => e end) = fn_name e).
  { intros e. by repeat case_match. }
  assert (Harg : forall e, fn_name (match frag_function tc ≫= delta_arguments with
                                    | Some a => if truthy (Some a)
                                                then set_arguments (fn_arguments e +:+ a) e else e
                                    | None => e end) = fn_name e).
  { intros e. by repeat case_match. }
  rewrite Hid, Harg. clear Hid Harg.
  destruct (b !! frag_index tc) as [e|] eqn:Hb; cbn.
  - destruct fname as [n|]; cbn.
    + destruct (truthy (Some n)) eqn:Hn.
      * destruct (acceptName (fn_name e) n) eqn:Ha.
        -- apply acceptName_spec in Ha. by rewrite decide_True.
        -- rewrite decide_False; [done|]. intros H. apply acceptName_spec in H. congruence.
      * apply truthy_false_empty in Hn. subst n.
        case_decide as H; [|done]. destruct H as [->|[_ H]]; [done|].
        destruct (fn_name e); [done|]. cbn in H. lia.
    + case_decide as H; [|done]. destruct H as [->|[_ H]]; [done|].
      destruct (fn_name e); [done|]. cbn in H. lia.
  - rewrite decide_True by by left.
    destruct fname as [n|]; cbn; [|done].
    destruct (truthy (Some n)) eqn:Hn; [|done].
    destruct (acceptName n n) eqn:Ha; [done|done].
Qed.

Lemma processToolCall_other (b : gmap nat ToolCall) (tc : ToolCallDelta) (i : nat) :
  frag_index tc <> i -> processToolCall b tc !! i = b !! i.
Proof. intros H. unfold processToolCall. by rewrite lookup_insert_ne. Qed.

(** C4 (name merge).  For fragments delivered to one index, the name stored
    at that index follows the merge rule fragment by fragment: the fragment's
    name replaces the stored name only when the stored name is empty, or the
    fragment differs from it and is at least as long.  In particular the
    fragments [get_f], [get_file], [get], delivered in that order to one
    index, leave [get_file]. *)
Theorem name_merge_rule (b : gmap nat ToolCall) (i : nat) (tcs : list ToolCallDelta) :
  Forall (fun tc => frag_index tc = i) tcs ->
  storedName (foldl processToolCall b tcs) i
  = foldl mergeName (storedName b i) (fragmentName <$> tcs)
  /\ storedName
       (toolCallsBuffer
          (processChunks new [nameChunk 0 "get_f"; nameChunk 0 "get_file"; nameChunk 0 "get"]))
       0 = "get_file".
Proof.
  intros H. split; [|by vm_compute].
  revert b. induction H as [|tc tcs <- _ IH]; intros b; cbn; [done|].
  by rewrite IH, processToolCall_name.
Qed.


Lemma name_merge_rule_witness :
  Forall (fun tc => frag_index tc = 0)
         [mkToolCallDelta 0 None (Some (mkFunctionDelta (Some "get_f") None));
          mkToolCallDelta 0 (Some "call_1") (Some (mkFunctionDelta (Some "get_file") (Some "{")));
          mkToolCallDelta 0 None (Some (mkFunctionDelta (Some "get") (Some "}")))]
  /\ storedName
       (foldl processToolCall ∅
          [mkToolCallDelta 0 None (Some (mkFunctionDelta (Some "get_f") None));
           mkToolCallDelta 0 (Some "call_1") (Some (mkFunctionDelta (Some "get_file") (Some "{")));
           mkToolCallDelta 0 None (Some (mkFunctionDelta (Some "get") (Some "}")))])
       0 = "get_file".
Proof.
  assert (H : Forall (fun tc => frag_index tc = 0)
         [mkToolCallDelta 0 None (Some (mkFunctionDelta (Some "get_f") None));
          mkToolCallDelta 0 (Some "call_1") (Some (mkFunctionDelta (Some "get_file") (Some "{")));
          mkToolCallDelta 0 None (Some (mkFunctionDelta (Some "get") (Some "}")))]).
  { repeat constructor. }
  split; [exact H|].
  rewrite (proj1 (name_merge_rule ∅ 0 _ H)). reflexivity.
Defined.

Lemma size_map_seq_0 (es : list ToolCall) :
  size (map_seq 0 es : gmap nat ToolCall) = length es.
Proof.
  induction es as [|e es IH] using rev_ind; [done|].
  rewrite map_seq_snoc, map_size_insert_None by apply map_seq_snoc_disjoint.
  rewrite IH, length_app. cbn. lia.
Qed.

Lemma set_arguments_nil (e : ToolCall) : set_arguments (fn_arguments e +:+ "") e = e.
Proof. destruct e. unfold set_arguments. cbn. by rewrite append_nil_r. Qed.

Lemma alter_arguments_nil (es : list ToolCall) (i : nat) :
  alter (fun e => set_arguments (fn_arguments e +:+ "") e) i es = es.
Proof. apply list_alter_id, set_arguments_nil. Qed.

Lemma processToolCallStart_entries (c : Chunk) (p : t) (es : list ToolCall) :
  toolCallsBuffer p = map_seq 0 es ->
  toolCallsBuffer (processToolCallStart c p) = map_seq 0 (allocate es c).
Proof.
  intros H. unfold processToolCallStart, allocate, Object_keys_length.
  destruct (tool_call_start c) as [st|]; cbn; [|done].
  by rewrite H, size_map_seq_0, map_seq_snoc.
Qed.

Lemma processToolInputDelta_entries (c : Chunk) (p : t) (es : list ToolCall) :
  toolCallsBuffer p = map_seq 0 es ->
  exists p', processToolInputDelta c p = Return p'
    /\ toolCallsBuffer p' = map_seq 0 (appendToLast es c)
    /\ contentBuffer p' = contentBuffer p /\ finishReason p' = finishReason p.
Proof.
  intros H. unfold processToolInputDelta, appendToLast, Object_keys_length.
  destruct (tool_input_delta c) as [d|]; [|by eexists].
  destruct (truthy (Some d)) eqn:Hd.
  - rewrite H, size_map_seq_0. destruct es as [|e0 es0] using rev_ind; cbn.
    + by eexists.
    + clear IHes0. rewrite length_app. cbn.
      replace (length es0 + 1) with (S (length es0)) by lia. cbn.
      rewrite lookup_map_seq_0, lookup_app_r, Nat.sub_diag by lia. cbn.
      eexists. split; [done|]. cbn. split; [|done].
      rewrite insert_map_seq_0 by (rewrite length_app; cbn; lia).
      f_equal. apply list_eq. intros j.
      destruct (decide (j = length es0)) as [->|Hne].
      * rewrite list_lookup_insert_eq by (rewrite length_app; cbn; lia).
        rewrite list_lookup_alter_eq, lookup_app_r, Nat.sub_diag by lia. done.
      * rewrite list_lookup_insert_ne, list_lookup_alter_ne by done. done.
  - apply truthy_false_empty in Hd. subst d. rewrite alter_arguments_nil. by eexists.
Qed.

Lemma processChunk_alternate (p : t) (c : Chunk) (es : list ToolCall) :
  alternate c ->
  toolCallsBuffer p = map_seq 0 es ->
  returns (processChunk p c).1
  /\ toolCallsBuffer (processChunk p c).2 = map_seq 0 (alternateStep es c).
Proof.
  intros Hc H. unfold processChunk, alternateStep.
  set (p2 := processToolCalls c (processContent c p)).
  assert (H2 : toolCallsBuffer p2 = map_seq 0 es).
  { unfold p2, processToolCalls. rewrite Hc. rewrite <- H.
    unfold processContent. by repeat case_match. }
  pose proof (processToolCallStart_entries c p2 es H2) as H3.
  destruct (processToolInputDelta_entries c _ _ H3) as (p4 & -> & H4 & _).
  cbn. split; [by eexists|].
  unfold processFinishReason. by repeat case_match.
Qed.

Lemma processChunks_alternate (cs : list Chunk) (p : t) (es : list ToolCall) :
  Forall alternate cs ->
  toolCallsBuffer p = map_seq 0 es ->
  allSucceed p cs
  /\ toolCallsBuffer (processChunks p cs) = map_seq 0 (foldl alternateStep es cs).
Proof.
  intros H. revert p es. induction H as [|c cs Hc _ IH]; intros p es Hp; cbn; [done|].
  destruct (processChunk_alternate p c es Hc Hp) as [Hr Hb].
  destruct (IH _ _ Hb) as [Hs Hf]. done.
Qed.

Lemma alternateStep_length (entries : list ToolCall) (c : Chunk) :
  length (alternateStep entries c)
  = length entries + (if tool_call_start c is Some _ then 1 else 0).
Proof.
  unfold alternateStep, appendToLast, allocate.
  destruct (tool_input_delta c), (tool_call_start c);
    rewrite ?length_alter, ?length_app; cbn; lia.
Qed.

Lemma alternateEntries_length (cs : list Chunk) (entries : list ToolCall) :
  length (foldl alternateStep entries cs)
  = length entries + length (omap tool_call_start cs).
Proof.
  revert entries. induction cs as [|c cs IH]; intros entries; cbn; [lia|].
  rewrite IH, alternateStep_length. destruct (tool_call_start c); cbn; lia.
Qed.

(** C5 (alternate encoding).  For every chunk sequence in the alternate
    start/delta encoding, processed on a fresh parser, every call of
    [processChunk] returns, and the buffer is the list of entries the
    specification describes, keyed by position: each [tool_call_start]
    allocates a new entry at the next sequential index (the indices are
    [0 .. k-1] after [k] starts), and each [tool_input_delta] appends its text
    to the arguments of the entry allocated last and to no other entry. *)
Theorem alternate_encoding_sequential (cs : list Chunk) :
  Forall alternate cs ->
  allSucceed new cs
  /\ toolCallsBuffer (processChunks new cs) = map_seq 0 (alternateEntries cs)
  /\ length (alternateEntries cs) = length (omap tool_call_start cs).
Proof.
  intros H. destruct (processChunks_alternate cs new [] H eq_refl) as [Hs Hb].
  split; [exact Hs|]. split; [exact Hb|]. apply (alternateEntries_length cs []).
Qed.

Lemma alternate_encoding_sequential_witness :
  Forall alternate Examples.alternateStream
  /\ toolCallsBuffer (processChunks new Examples.alternateStream)
     = map_seq 0 [mkToolCall "toolu_1" "function" "list_files" "[1,2]";
                  mkToolCall "toolu_2" "function" "read_file" "{}"].
Proof.
  assert (H : Forall alternate Examples.alternateStream) by (repeat constructor).
  split; [exact H|].
  exact (proj1 (proj2 (alternate_encoding_sequential Examples.alternateStream H))).
Defined.

(** The hypothesis matters: when an indexed fragment has populated index 1
    alone, a [tool_input_delta] takes [lastIndex = 0], finds no entry there
    and [processChunk] throws. *)
Lemma delta_after_sparse_index_throws :
  throws (processChunk (processChunks new [nameChunk 1 "get_file"]) (deltaChunk "{")).1.
Proof. by eexists. Qed.

End StreamParserFacts.

(** ** The orchestrator *)

Module OrchestratorFacts.
Import JS Json Panels Orchestrator OrchestratorSpec.
Section WithRegistry.
Context {builtins : Builtins}.
Variable panelRegistry : Registry.

Lemma collectFrom_spec (allTools : list AggregatedTool) (panel : PanelInstance) :
  collectFrom panelRegistry allTools panel
  = Return (allTools ++ panelTools panelRegistry panel).
Proof.
  unfold collectFrom, panelTools.
  destruct (getPanelDefinition panelRegistry (panelTypeId panel) ≫= getMCPTools)
    as [listTools|]; [|by rewrite app_nil_r].
  destruct (listTools (state panel)) as [tools|e]; cbn; [done|by rewrite app_nil_r].
Qed.

Lemma collect_loop (panels : list PanelInstance) (allTools : list AggregatedTool) :
  foldl (fun acc panel => allTools ← acc; collectFrom panelRegistry allTools panel)
        (Return allTools) panels
  = Return (allTools ++ concat (panelTools panelRegistry <$> panels)).
Proof.
  revert allTools. induction panels as [|panel panels IH]; intros allTools; cbn.
  - by rewrite app_nil_r.
  - change (Return allTools ≫= _) with (collectFrom panelRegistry allTools panel).
    rewrite collectFrom_spec, IH. by rewrite <- app_assoc.
Qed.

Lemma collectTools_spec (toolCache : ToolCache) (panels : list PanelInstance) :
  collectTools panelRegistry toolCache panels
  = (Return (concat (panelTools panelRegistry <$> panels)),
     cacheTools (concat (panelTools panelRegistry <$> panels))).
Proof. unfold collectTools. by rewrite collect_loop. Qed.

Lemma panelTools_listedBy (panel : PanelInstance) :
  panelTools panelRegistry panel = map (enrich panel) (listedBy panelRegistry panel).
Proof.
  unfold panelTools, listedBy.
  destruct (getPanelDefinition panelRegistry (panelTypeId panel) ≫= getMCPTools)
    as [listTools|]; [|done].
  by destruct (listTools (state panel)).
Qed.

Lemma listedBy_aggregated (panel : PanelInstance) (tools : list MCPTool) :
  Forall2 aggregates (map (enrich panel) tools) (map (pair panel) tools).
Proof. induction tools as [|tool tools IH]; cbn; constructor; [by repeat split|done]. Qed.

Lemma collected_aggregated (panels : list PanelInstance) :
  Forall2 aggregates (concat (panelTools panelRegistry <$> panels))
          (listings panelRegistry panels).
Proof.
  unfold listings. induction panels as [|panel panels IH]; cbn; [constructor|].
  apply Forall2_app; [|exact IH]. rewrite panelTools_listedBy. apply listedBy_aggregated.
Qed.

Lemma listingFails_no_tools (panel : PanelInstance) :
  listingFails panelRegistry panel -> panelTools panelRegistry panel = [].
Proof. intros (listTools & e & Hdef & Hthrow). unfold panelTools. by rewrite Hdef, Hthrow. Qed.

Lemma listingFails_no_listing (panel : PanelInstance) :
  listingFails panelRegistry panel -> listedBy panelRegistry panel = [].
Proof. intros (listTools & e & Hdef & Hthrow). unfold listedBy. by rewrite Hdef, Hthrow. Qed.

Lemma cacheTools_sound (tools : list AggregatedTool) (n : string) (t : AggregatedTool) :
  cacheTools tools !! n = Some t -> t ∈ tools /\ name t = n.
Proof.
  unfold cacheTools. induction tools as [|x tools IH] using rev_ind; [done|].
  rewrite foldl_app. cbn. intros H. apply lookup_insert_Some in H as [[<- <-]|[_ H]].
  - split; [|done]. apply elem_of_app. right. by apply list_elem_of_singleton.
  - destruct (IH H) as [Hin Hn]. split; [|done]. apply elem_of_app. by left.
Qed.

(** C6 (idempotent aggregation).  For a fixed panel list and registry,
    [collectTools] returns, whatever the cache holds, and calling it again on
    the cache it left returns the same list and leaves the same cache.  The
    list stands, one to one and in order, for what the panels list, panel by
    panel: each tool under the name [{panelTypeId}_{name}], with the name the
    panel gave retained as [originalName], the panel's id, type id and title
    as routing metadata, and the tool's description and schema.  The cache
    left holds entries of this list only, each under its own name, whatever
    it held before.  A panel whose [getMCPTools] throws lists nothing: the
    listings, and the list returned, are those of the other panels. *)
Theorem collectTools_idempotent (toolCache : ToolCache) (panels : list PanelInstance) :
  let first := collectTools panelRegistry toolCache panels in
  let second := collectTools panelRegistry first.2 panels in
  exists tools,
    first.1 = Return tools /\ second.1 = Return tools /\ second.2 = first.2
    /\ Forall2 aggregates tools (listings panelRegistry panels)
    /\ (forall n t, first.2 !! n = Some t -> t ∈ tools /\ name t = n)
    /\ (forall before panel after,
          panels = before ++ panel :: after ->
          listingFails panelRegistry panel ->
          listings panelRegistry panels = listings panelRegistry (before ++ after)
          /\ (collectTools panelRegistry toolCache (before ++ after)).1 = Return tools).
Proof.
  cbn. rewrite !collectTools_spec. cbn. eexists.
  split; [reflexivity|]. split; [reflexivity|]. split; [reflexivity|].
  split; [apply collected_aggregated|]. split; [apply cacheTools_sound|].
  intros before panel after -> Hfail. split.
  - unfold listings. rewrite !map_app, !concat_app. cbn.
    by rewrite (listingFails_no_listing _ Hfail).
  - rewrite collectTools_spec. cbn.
    rewrite !fmap_app, !concat_app. cbn. by rewrite listingFails_no_tools.
Qed.

Lemma executeTool_unknown (toolCache : ToolCache) (store : Store) (toolName : string)
    (args : json) :
  toolCache !! toolName = None ->
  executeTool panelRegistry toolCache store toolName args
  = (Return (mkToolResult false None (Some ("Unknown tool: " +:+ toolName)) None None),
     store).
Proof. intros H. unfold executeTool. by rewrite H. Qed.

(** What [executeTool] answers when the executor, if it is reached, does not
    throw [null] or [undefined]: it returns, with the failure shapes of the
    three cases. *)
Lemma executeTool_catches_values (toolCache : ToolCache) (store : Store)
    (toolName : string) (args : json) :
  noNullishRejection panelRegistry ->
  exists r,
    (executeTool panelRegistry toolCache store toolName args).1 = Return r
    /\ (toolCache !! toolName = None ->
        r = mkToolResult false None (Some ("Unknown tool: " +:+ toolName)) None None)
    /\ (forall tool,
          toolCache !! toolName = Some tool ->
          List.find (fun p => bool_decide (id p = _panelId tool)) (panels store) = None ->
          success r = false /\ is_Some (error r) /\ result r = None)
    /\ (forall tool execute panel message,
          toolCache !! toolName = Some tool ->
          getPanelDefinition panelRegistry (_panelTypeId tool) ≫= executeMCPTool
            = Some execute ->
          List.find (fun p => bool_decide (id p = _panelId tool)) (panels store)
            = Some panel ->
          (execute (originalName tool) args (state panel)).1 = Rejected (Value message) ->
          r = mkToolResult false None message (Some toolName) None).
Proof.
  intros Hvalues. unfold executeTool.
  destruct (toolCache !! toolName) as [tool|] eqn:Hc.
  2:{ eexists. split; [done|]. split; [done|]. split; [done|]. intros; discriminate. }
  destruct (getPanelDefinition panelRegistry (_panelTypeId tool) ≫= executeMCPTool)
    as [execute|] eqn:Hd.
  2:{ eexists. split; [done|]. split; [done|]. split.
      - intros ? [= <-] _. cbn. eauto.
      - intros ? ? ? ? [= <-] Hx. rewrite Hd in Hx. discriminate. }
  destruct (List.find _ (panels store)) as [panel|] eqn:Hp.
  2:{ eexists. split; [done|]. split; [done|]. split.
      - intros ? [= <-] _. cbn. eauto.
      - intros ? ? ? ? [= <-] _ Hy. rewrite Hp in Hy. discriminate. }
  assert (Hnn : (execute (originalName tool) args (state panel)).1 <> Rejected Nullish).
  { unfold getPanelDefinition in Hd.
    destruct (panelRegistry !! _panelTypeId tool) as [definition|] eqn:Hr; [|done].
    by eapply Hvalues. }
  cbn. destruct (execute (originalName tool) args (state panel)).1 as [v|[|m]] eqn:Hrun;
    [|done|].
  - eexists. split; [done|]. split; [done|]. split.
    + intros ? [= <-] ?. congruence.
    + intros ? ? ? ? [= <-] Hx Hy He. rewrite Hd in Hx. rewrite Hp in Hy.
      simplify_eq. congruence.
  - eexists. split; [done|]. split; [done|]. split.
    + intros ? [= <-] ?. congruence.
    + intros ? ? ? ? [= <-] Hx Hy He. rewrite Hd in Hx. rewrite Hp in Hy.
      simplify_eq. rewrite Hrun in He. by simplify_eq.
Qed.

Lemma slice0_length (n : nat) (s : string) :
  String.length (slice0 n s) = Nat.min n (String.length s).
Proof.
  unfold slice0. revert s. induction n as [|n IH]; intros [|c s]; cbn; try done.
  by rewrite IH.
Qed.

Lemma slice0_prefix (n : nat) (s : string) : exists rest, s = slice0 n s +:+ rest.
Proof.
  unfold slice0. revert s. induction n as [|n IH]; intros [|c s]; cbn.
  - by exists "".
  - by eexists.
  - by exists "".
  - destruct (IH s) as [rest Hrest]. exists rest.
    change (String c s = String c (substring 0 n s +:+ rest)). by rewrite <- Hrest.
Qed.






Lemma executeTool_returns (toolCache : ToolCache) (store : Store) (toolName : string)
    (args : json) :
  noNullishRejection panelRegistry ->
  returns (executeTool panelRegistry toolCache store toolName args).1.
Proof.
  intros H. destruct (executeTool_catches_values toolCache store toolName args H)
    as (r & Hr & _). by exists r.
Qed.

Lemma processToolCallsFrom_malformed (toolCache : ToolCache) (toolCalls : list Call)
    (store : Store) (results : list CallResult) :
  Exists malformed toolCalls ->
  throws (processToolCallsFrom panelRegistry toolCache store results toolCalls).1.
Proof.
  intros H. revert store results.
  induction toolCalls as [|call rest IH]; intros store results; [by inversion H|].
  cbn. destruct (argumentsOf call) as [args|e] eqn:Ha; [|by eexists].
  destruct (executeTool _ _ _ _ _) as [[r|e] store']; [|by eexists].
  apply IH. inversion H as [? ? (text & e & Ht & He)|]; subst; [|done].
  unfold argumentsOf in Ha. rewrite Ht, He in Ha. discriminate.
Qed.

End WithRegistry.
End OrchestratorFacts.

(** ** The conversation controller *)

Module ChatFacts.
Import JS Json Panels Orchestrator Messages Client Chat ChatSpec.

Lemma trimStart_blank (l : list ascii) :
  Forall (fun c => is_white_space c = true) l -> trimStart l = [].
Proof. induction 1 as [|c l Hc _ IH]; cbn; [done|]. by rewrite Hc. Qed.

Lemma trim_blank (text : string) : blank text -> trim text = "".
Proof. intros H. unfold trim. by rewrite (trimStart_blank _ H). Qed.

(** C10 (blank send).  A call of [sendMessage] whose content is empty or all
    white space and whose attachment list is empty returns before any state
    change: the state after the call is the state before it, so no user
    message and no placeholder are appended, the loading and error flags are
    untouched, and no request is pending or in flight that was not before. *)
Theorem sendMessage_blank_noop (snapshot : list Message) (text : string)
    (attachments : option (list Attachment)) (f : Fresh) (st : State) :
  blank text -> noAttachments attachments ->
  sendMessage snapshot (Some text) attachments f st = (Return (), st).
Proof.
  intros Hb Ha. unfold sendMessage. rewrite (trim_blank _ Hb), Ha. done.
Qed.

Section WithEnvironment.
Context {builtins : Builtins}.
Variable panelRegistry : Registry.

Lemma findLastUser_none (ms : list Message) :
  Forall (fun x => role x <> "user") ms -> findLastUser ms = None.
Proof.
  induction 1 as [|m ms Hm _ IH]; cbn; [done|].
  by rewrite IH, bool_decide_eq_false_2.
Qed.

Lemma findLastUser_last (pre : list Message) (m : Message) (post : list Message) :
  role m = "user" -> Forall (fun x => role x <> "user") post ->
  findLastUser (pre ++ m :: post) = Some (length pre).
Proof.
  intros Hm Hpost. induction pre as [|x pre IH]; cbn.
  - by rewrite (findLastUser_none _ Hpost), bool_decide_eq_true_2.
  - by rewrite IH.
Qed.

Lemma regenerate_resends (pre : list Message) (m : Message) (post : list Message)
    (f : Fresh) (st : State) :
  role m = "user" -> Forall (fun x => role x <> "user") post ->
  regenerateLastResponse (pre ++ m :: post) f st
  = sendMessage (pre ++ m :: post) (content m) (attachments m) f (setMessages pre st).
Proof.
  intros Hm Hpost. unfold regenerateLastResponse.
  rewrite (findLastUser_last _ _ _ Hm Hpost).
  rewrite list_lookup_middle by done.
  by rewrite take_app_length.
Qed.

Global Instance keeps_refl : Reflexive keeps.
Proof. intros ms i m H. by exists m. Qed.

Global Instance keeps_trans : Transitive keeps.
Proof.
  intros a b c Hab Hbc i m H.
  destruct (Hab i m H) as (m' & H' & E'). destruct (Hbc i m' H') as (m'' & H'' & E'').
  exists m''. split; [done|congruence].
Qed.

Lemma keeps_app (ms extra : list Message) : keeps ms (ms ++ extra).
Proof. intros i m H. exists m. split; [by apply lookup_app_l_Some|done]. Qed.

Lemma keeps_updateLast (u : Updates) (ms : list Message) : keeps ms (updateLast u ms).
Proof.
  unfold updateLast. destruct (length ms) as [|n]; [done|].
  intros i m H. destruct (decide (n = i)) as [->|Hne].
  - exists (merge m u). by rewrite list_lookup_alter_eq, H.
  - exists m. by rewrite list_lookup_alter_ne.
Qed.

Lemma keeping_compose (f g : State -> State) :
  keeping f -> keeping g -> keeping (fun st => g (f st)).
Proof. intros Hf Hg st. etrans; [apply Hf | apply Hg]. Qed.

Lemma keeping_updateLastMessage u : keeping (updateLastMessage u).
Proof. intros st. apply keeps_updateLast. Qed.

Lemma keeping_addMessage m : keeping (addMessage m).
Proof. intros st. apply keeps_app. Qed.

Lemma sendMessage_keeps snapshot content attachments f st :
  keeps (messages st) (messages (sendMessage snapshot content attachments f st).2).
Proof.
  unfold sendMessage. destruct content as [text|]; [|done].
  case_match; [done|]. cbn. rewrite <- app_assoc. apply keeps_app.
Qed.

Lemma onChunk_keeps pass chunk : keeping (onChunk pass chunk).
Proof.
  intros st. unfold onChunk.
  destruct (StreamParser.processChunk (streamParserRef st) chunk) as [[r|e] p]; cbn; [|done].
  destruct (StreamParser.acc_content r), pass, (StreamParser.acc_toolCalls r); cbn;
    try done; try apply keeps_updateLast.
  all: etrans; apply keeps_updateLast.
Qed.

Lemma onError_keeps err : keeping (onError err).
Proof. intros st. apply keeps_updateLast. Qed.

Lemma streamChat_catch_keeps err : keeping (streamChat_catch err).
Proof. intros st. unfold streamChat_catch. case_match; [done|apply onError_keeps]. Qed.

Lemma streamChat_returned_messages pass st :
  messages (streamChat_returned pass st) = messages st.
Proof. by destruct pass. Qed.

Lemma stopGeneration_keeps : keeping stopGeneration.
Proof.
  intros st. unfold stopGeneration. cbn.
  destruct (streamingMessageRef st); [apply keeps_updateLast|done].
Qed.

Lemma aborted_keeps pass : keeping (aborted pass).
Proof.
  intros st. unfold aborted. cbn. rewrite streamChat_returned_messages.
  apply streamChat_catch_keeps.
Qed.

Lemma sendMessage_resume_keeps snapshot content now :
  keeping (sendMessage_resume panelRegistry snapshot content now).
Proof.
  intros st. unfold sendMessage_resume, sendMessage_request. cbn.
  destruct (collectTools _ _ _).1; cbn; [done|]. apply keeps_updateLast.
Qed.

Lemma handleToolCalls_execute_messages toolCalls st :
  messages (handleToolCalls_execute panelRegistry toolCalls st).2 = messages st.
Proof. reflexivity. Qed.

Lemma handleToolCalls_continue_keeps toolCalls previousMessages results f :
  keeping (handleToolCalls_continue toolCalls previousMessages results f).
Proof. intros st. cbn. rewrite <- app_assoc. apply keeps_app. Qed.

Lemma onDone_first_keeps apiMessages f st :
  keeps (messages st) (messages (onDone_first panelRegistry apiMessages f st).2).
Proof.
  unfold onDone_first.
  set (st1 := updateLastMessage _ st).
  assert (H1 : keeps (messages st) (messages st1)) by apply keeps_updateLast.
  destruct (StreamParser.result_toolCalls _) as [[|tc tcs]|]; try exact H1.
  set (executed := handleToolCalls_execute panelRegistry (tc :: tcs) st1).
  assert (H2 : messages (streamChat_returned FirstPass executed.2) = messages st1)
    by reflexivity.
  destruct executed.1 as [results|e]; cbn [snd].
  - etrans; [exact H1|]. rewrite <- H2. apply handleToolCalls_continue_keeps.
  - change (keeps (messages st) (messages (streamChat_returned FirstPass executed.2))).
    by rewrite H2.
Qed.

Lemma onDone_second_keeps : keeping onDone_second.
Proof. intros st. apply keeps_updateLast. Qed.

Lemma setModelConfig_messages p m t st :
  messages (setModelConfig p m t st) = messages st.
Proof. unfold setModelConfig. by destruct p, m, t. Qed.

Lemma step_keeps (st st' : State) (ev : Event) :
  step panelRegistry st ev = Some st' ->
  removes (messages st) (messages st') ->
  ev = Clear \/ exists f, ev = Regenerate f.
Proof.
  intros Hstep Hrem.
  destruct ev as [content attachments f|f| | |p m t|message|updates|now|chunk|f|err];
    try by eauto.
  all: exfalso; apply Hrem; clear Hrem.
  all: unfold step in Hstep; destruct (phase st) as [|snapshot text|pass req];
    try destruct pass; simplify_eq.
  all: first
    [ apply sendMessage_keeps
    | apply stopGeneration_keeps
    | apply keeping_addMessage
    | apply keeping_updateLastMessage
    | apply onDone_first_keeps
    | apply sendMessage_resume_keeps
    | apply onChunk_keeps
    | apply onDone_second_keeps
    | by rewrite setModelConfig_messages
    | (etrans; [apply stopGeneration_keeps | apply aborted_keeps])
    | (cbn; rewrite ?streamChat_returned_messages; apply streamChat_catch_keeps) ].
Qed.

(** C7 (regeneration), as amended.  When the message list has a last user
    message, [regenerateLastResponse] sets the list to the messages before it
    (that message excluded) and then calls [sendMessage] with that message's
    content and attachments.  Of the controller's operations, only
    [regenerateLastResponse] and [clearMessages] remove messages: after every
    other event each message is still at its position. *)
Theorem regeneration_and_removal :
  (forall pre m post f st,
      role m = "user" -> Forall (fun x => role x <> "user") post ->
      regenerateLastResponse (pre ++ m :: post) f st
      = sendMessage (pre ++ m :: post) (content m) (attachments m) f (setMessages pre st))
  /\ (forall st ev st',
        step panelRegistry st ev = Some st' ->
        removes (messages st) (messages st') ->
        ev = Clear \/ exists f, ev = Regenerate f).
Proof.
  split; [apply regenerate_resends|].
  intros st ev st'. apply step_keeps.
Qed.

Lemma updateLast_snoc (u : Updates) (ms : list Message) (m : Message) :
  updateLast u (ms ++ [m]) = ms ++ [merge m u].
Proof.
  unfold updateLast. rewrite length_app. cbn [length].
  replace (length ms + 1) with (S (length ms)) by lia.
  apply list_eq. intros j. destruct (decide (j = length ms)) as [->|Hne].
  - rewrite list_lookup_alter_eq, !lookup_app_r, Nat.sub_diag by lia. done.
  - rewrite list_lookup_alter_ne by done.
    destruct (decide (j < length ms)).
    + by rewrite !lookup_app_l by lia.
    + rewrite !lookup_app_r by lia.
      destruct (j - length ms) as [|k] eqn:E; [lia|done].
Qed.

(** Stopping in the first pass *)
Lemma stop_first_pass (st : State) (request : Request) (placeholder m : Message) :
  phase st = Streaming FirstPass request ->
  streamingMessageRef st = Some placeholder ->
  lastMessage st = Some m ->
  exists st' m',
    step panelRegistry st Stop = Some st'
    /\ lastMessage st' = Some m'
    /\ isStreaming m' = Some false /\ isError m' = isError m
    /\ length (messages st') = length (messages st)
    /\ error st' = error st /\ isLoading st' = false /\ phase st' = Idle.
Proof.
  intros Hph Href Hlast. apply last_Some in Hlast as [ms Hms].
  exists (aborted FirstPass (stopGeneration st)),
         (merge m (mkUpdates None None (Some false) None)).
  split; [unfold step; by rewrite Hph|].
  assert (Hm : messages (aborted FirstPass (stopGeneration st))
               = updateLast (mkUpdates None None (Some false) None) (messages st)).
  { unfold aborted, stopGeneration. cbn. by rewrite Href. }
  unfold lastMessage. rewrite Hm, Hms, updateLast_snoc, last_snoc, !length_app.
  repeat split. unfold aborted, stopGeneration. cbn. by rewrite Href.
Qed.

(** Stopping in the second pass, where the ref is empty *)
Lemma stop_second_pass (st : State) (request : Request) :
  phase st = Streaming SecondPass request ->
  streamingMessageRef st = None ->
  exists st',
    step panelRegistry st Stop = Some st'
    /\ messages st' = messages st /\ isLoading st' = false /\ phase st' = Idle.
Proof.
  intros Hph Href. unfold step. rewrite Hph. unfold stopGeneration. cbn.
  rewrite Href. by eexists.
Qed.

End WithEnvironment.
End ChatFacts.

Module ChatInvariant.
Import JS Json Panels Orchestrator Messages Client Chat ChatSpec.
Section WithEnvironment.
Context {builtins : Builtins}.
Variable panelRegistry : Registry.

Lemma sendMessage_phase snapshot content attachments f st :
  phase (sendMessage snapshot content attachments f st).2 = phase st
  \/ exists text, phase (sendMessage snapshot content attachments f st).2
                  = Preparing snapshot text.
Proof.
  unfold sendMessage. destruct content as [text|]; [|by left].
  case_match; [by left|]. right. by exists text.
Qed.

Lemma regenerate_phase snapshot f st :
  phase (regenerateLastResponse snapshot f st).2 = phase st
  \/ exists text, phase (regenerateLastResponse snapshot f st).2
                  = Preparing snapshot text.
Proof.
  unfold regenerateLastResponse.
  destruct (findLastUser snapshot) as [i|]; [|by left].
  destruct (snapshot !! i) as [m|]; [|by left].
  apply (sendMessage_phase snapshot (content m) (attachments m) f
           (setMessages (take i snapshot) st)).
Qed.

Lemma onChunk_frame pass chunk st :
  phase (onChunk pass chunk st) = phase st
  /\ streamingMessageRef (onChunk pass chunk st) = streamingMessageRef st.
Proof.
  unfold onChunk.
  destruct (StreamParser.processChunk (streamParserRef st) chunk) as [[r|e] p]; cbn;
    [|done].
  by destruct (StreamParser.acc_content r), pass, (StreamParser.acc_toolCalls r); cbn.
Qed.

Lemma stopGeneration_frame st :
  phase (stopGeneration st) = phase st
  /\ streamingMessageRef (stopGeneration st) = streamingMessageRef st.
Proof. unfold stopGeneration. by case_match. Qed.

Lemma setModelConfig_frame p m t st :
  phase (setModelConfig p m t st) = phase st
  /\ streamingMessageRef (setModelConfig p m t st) = streamingMessageRef st.
Proof. unfold setModelConfig. by destruct p, m, t. Qed.

Lemma sendMessage_resume_phase snapshot content now st :
  phase (sendMessage_resume panelRegistry snapshot content now st) = Idle
  \/ exists request,
      phase (sendMessage_resume panelRegistry snapshot content now st)
      = Streaming FirstPass request.
Proof.
  unfold sendMessage_resume.
  destruct (sendMessage_request _ _ _ _ _).1; [right; by eexists|by left].
Qed.

Lemma onDone_first_phase apiMessages f st :
  phase (onDone_first panelRegistry apiMessages f st).2 = Idle
  \/ streamingMessageRef (onDone_first panelRegistry apiMessages f st).2 = None.
Proof.
  unfold onDone_first.
  destruct (StreamParser.result_toolCalls _) as [[|tc tcs]|]; try by left.
  destruct (handleToolCalls_execute _ _ _).1; [by right|by left].
Qed.

Lemma step_refCleared (st st' : State) (ev : Event) :
  step panelRegistry st ev = Some st' -> refCleared st -> refCleared st'.
Proof.
  intros Hstep Hinv request Hph. unfold step in Hstep.
  destruct ev as [content attachments f|f| | |p m t|message|updates|now|chunk|f|err];
    destruct (phase st) as [|snapshot text|pass req] eqn:Hst;
    try destruct pass; simplify_eq; try done.
  all: try (destruct (sendMessage_phase (messages st) content attachments f st)
              as [H|[? H]]; rewrite H in Hph; congruence).
  all: try (destruct (regenerate_phase (messages st) f st)
              as [H|[? H]]; rewrite H in Hph; congruence).
  all: try (destruct (stopGeneration_frame st) as [H1 H2];
            rewrite H1 in Hph; congruence).
  all: try (destruct (setModelConfig_frame p m t st) as [H1 H2];
            rewrite H1 in Hph; rewrite H2; apply (Hinv request); congruence).
  all: try (destruct (sendMessage_resume_phase snapshot text now st) as [H|[? H]];
            rewrite H in Hph; congruence).
  all: try (destruct (onChunk_frame SecondPass chunk st) as [H1 H2];
            rewrite H1 in Hph; rewrite H2; apply (Hinv request); congruence).
  all: try (destruct (onChunk_frame FirstPass chunk st) as [H1 H2];
            rewrite H1 in Hph; congruence).
  all: try (destruct (onDone_first_phase (req_messages req) f st) as [H|H];
            [rewrite H in Hph; congruence|done]).
  all: cbn in Hph; apply (Hinv request); congruence.
Qed.

Lemma run_snoc (st : State) (evs : list Event) (ev : Event) :
  run panelRegistry st (evs ++ [ev])
  = run panelRegistry st evs ≫= fun s => step panelRegistry s ev.
Proof. unfold run. by rewrite foldl_app. Qed.

Lemma run_refCleared (s : Store) (evs : list Event) (st : State) :
  run panelRegistry (initial s) evs = Some st -> refCleared st.
Proof.
  revert st. induction evs as [|ev evs IH] using rev_ind; intros st Hrun.
  - cbn in Hrun. simplify_eq. intros request Hph. done.
  - rewrite run_snoc in Hrun.
    destruct (run panelRegistry (initial s) evs) as [st0|]; [|done].
    cbn in Hrun. eapply step_refCleared; [exact Hrun|by apply IH].
Qed.

(** Whatever led to it, a stop while the second pass streams changes no
    message. *)
Lemma stop_in_second_pass_changes_no_message (s : Store) (evs : list Event) (st : State)
    (request : Request) :
  run panelRegistry (initial s) evs = Some st ->
  phase st = Streaming SecondPass request ->
  exists st',
    step panelRegistry st Stop = Some st'
    /\ messages st' = messages st /\ isLoading st' = false /\ phase st' = Idle.
Proof.
  intros Hrun Hph. unfold step. rewrite Hph. unfold stopGeneration. cbn.
  rewrite (run_refCleared s evs st Hrun request Hph). by eexists.
Qed.

End WithEnvironment.
End ChatInvariant.

(** ** The model run on the small studio *)

Module Scenarios.
Import JS Json Panels Orchestrator Messages Client Chat.
Import StreamSpec OrchestratorSpec ChatSpec Examples.

Lemma sendMessage_blank_noop_witness :
  blank "   " /\ noAttachments (Some [])
  /\ sendMessage [] (Some "   ") (Some []) fresh1 (initial studio)
     = (Return (), initial studio).
Proof.
  assert (Hb : blank "   ") by (repeat constructor).
  assert (Ha : noAttachments (Some [])) by reflexivity.
  split; [exact Hb|]. split; [exact Ha|].
  exact (ChatFacts.sendMessage_blank_noop [] "   " (Some []) fresh1 (initial studio) Hb Ha).
Defined.

(** C7, as stated, fails: [clearMessages] empties a list of two messages,
    and it is not the regeneration operation. *)
Lemma clearMessages_removes :
  ~ onlyRegenerationRemoves (builtins := reference) panelRegistry.
Proof.
  intros H.
  destruct (H (setMessages [userMessage; reply] (initial studio)) Clear
              (clearMessages (setMessages [userMessage; reply] (initial studio))))
    as [f Hf]; [reflexivity| |discriminate].
  intros Hk. destruct (Hk 0 userMessage) as (m' & Hm' & _); [reflexivity|].
  discriminate.
Qed.

Lemma regeneration_and_removal_witness :
  regenerateLastResponse [userMessage; reply] fresh2
    (setMessages [userMessage; reply] (initial studio))
  = sendMessage [userMessage; reply] (Some "Hello") (Some []) fresh2
      (setMessages [] (setMessages [userMessage; reply] (initial studio)))
  /\ step (builtins := reference) panelRegistry
          (setMessages [userMessage; reply] (initial studio)) Clear
     = Some (clearMessages (setMessages [userMessage; reply] (initial studio)))
  /\ removes [userMessage; reply] []
  /\ (Clear = Clear \/ exists f, Clear = Regenerate f).
Proof.
  assert (Hstep : step (builtins := reference) panelRegistry
                       (setMessages [userMessage; reply] (initial studio)) Clear
                  = Some (clearMessages (setMessages [userMessage; reply] (initial studio))))
    by reflexivity.
  assert (Hrem : removes [userMessage; reply] []).
  { intros Hk. destruct (Hk 0 userMessage eq_refl) as (m' & Hm' & _). discriminate. }
  split.
  - apply (proj1 (ChatFacts.regeneration_and_removal (builtins := reference) panelRegistry)
             [] userMessage [reply] fresh2); [reflexivity|].
    repeat constructor. discriminate.
  - split; [exact Hstep|]. split; [exact Hrem|].
    exact (proj2 (ChatFacts.regeneration_and_removal (builtins := reference) panelRegistry)
             _ Clear _ Hstep Hrem).
Defined.

Lemma collectTools_idempotent_witness :
  Examples.studio = mkStore ([workspacePanel] ++ brokenPanel :: [])
  /\ listingFails panelRegistry brokenPanel
  /\ exists tools,
      (collectTools panelRegistry ∅ [workspacePanel; brokenPanel]).1 = Return tools
      /\ (collectTools panelRegistry
            (collectTools panelRegistry ∅ [workspacePanel; brokenPanel]).2
            [workspacePanel; brokenPanel]).1 = Return tools
      /\ Forall2 aggregates tools
           [(workspacePanel, mkTool "list_files" "List the files of the workspace" None);
            (workspacePanel, mkTool "select_file" "Select one file" None)]
      /\ (collectTools panelRegistry ∅ [workspacePanel]).1 = Return tools.
Proof.
  assert (Hf : listingFails panelRegistry brokenPanel).
  { exists (fun _ => Throw (mkError "Error" "tools unavailable")),
           (mkError "Error" "tools unavailable").
    split; reflexivity. }
  split; [reflexivity|]. split; [exact Hf|].
  destruct (OrchestratorFacts.collectTools_idempotent panelRegistry ∅
              [workspacePanel; brokenPanel])
    as (tools & H1 & H2 & _ & Hagg & _ & Hskip).
  exists tools. split; [exact H1|]. split; [exact H2|]. split; [exact Hagg|].
  exact (proj2 (Hskip [workspacePanel] brokenPanel [] eq_refl Hf)).
Defined.



(** C8 (stop mid-stream) at an input the code mishandles.  After a tool
    call has run and the second pass streams, [stop()] returns the controller
    to idle without an error, but the active placeholder keeps
    [isStreaming = true]: [streamingMessageRef] was cleared when the first
    pass returned and [handleToolCalls] never sets it for its placeholder. *)
Theorem stop_in_second_pass_leaves_streaming :
  exists st m,
    run (builtins := reference) panelRegistry (initial studio) stopInSecondPass = Some st
    /\ lastMessage st = Some m
    /\ role m = "assistant" /\ isStreaming m = Some true /\ isError m = None
    /\ isLoading st = false /\ phase st = Idle.
Proof. vm_compute. eexists _, _. repeat split. Qed.

(** C1 (malformed arguments) at an input the code mishandles.  A completed
    stream yields two tool calls, the first with argument text that is not
    valid JSON.  [processToolCalls] parses the text again, outside any
    [try], and throws a [SyntaxError]: no result is produced for either call,
    the second call is not executed, and no [tool_results] message is
    appended. *)
Theorem malformed_arguments_abort :
  exists st e,
    run (builtins := reference) panelRegistry (initial studio) malformedArguments = Some st
    /\ Forall (fun m => role m <> "tool_results") (messages st)
    /\ phase st = Idle
    /\ processToolCalls (builtins := reference) panelRegistry (toolCache st) (store st)
         [mkCall "call_1" "function" "workspace_select_file" (ArgText "{") (Some (JObject []));
          mkCall "call_2" "function" "workspace_list_files" (ArgText "{}") (Some (JObject []))]
       = (Throw e, store st)
    /\ JS.name e = "SyntaxError".
Proof.
  vm_compute. eexists _, _. split; [reflexivity|].
  split; [repeat constructor; discriminate|]. repeat split.
Qed.

End Scenarios.

(** ** The stream decoder: arguments, finish reason, result *)

Module DecoderFacts.
Import JS StreamParser StreamSpec DecoderSpec.
Import StreamParserFacts.

Lemma processToolCall_arguments (b : gmap nat ToolCall) (tc : ToolCallDelta) :
  storedArguments (processToolCall b tc) (frag_index tc)
  = storedArguments b (frag_index tc) +:+ fragmentArguments tc.
Proof.
  unfold storedArguments, processToolCall, fragmentArguments.
  rewrite lookup_insert_eq. cbn.
  assert (Hid : forall e, fn_arguments (match frag_id tc with
                                        | Some i => if truthy (Some i) then set_id i e else e
                                        | None => e end) = fn_arguments e).
  { intros e. by repeat case_match. }
  rewrite Hid. clear Hid.
  set (created := match b !! frag_index tc with
                  | Some e => e
                  | None => _ end).
  set (named := match frag_function tc ≫= delta_name with
                | Some newName => _
                | None => created end).
  assert (Hn : fn_arguments named = from_option fn_arguments "" (b !! frag_index tc)).
  { unfold named, created. destruct (b !! frag_index tc); by repeat case_match. }
  destruct (frag_function tc ≫= delta_arguments) as [a|]; cbn.
  - destruct (truthy (Some a)) eqn:Ha; cbn; [by rewrite Hn|].
    apply truthy_false_empty in Ha. subst a. by rewrite append_nil_r.
  - by rewrite append_nil_r.
Qed.

Lemma foldl_processToolCall_arguments (tcs : list ToolCallDelta) (b : gmap nat ToolCall)
    (i : nat) :
  storedArguments (foldl processToolCall b tcs) i
  = storedArguments b i +:+ concatenation (fragmentArguments <$> fragmentsAt i tcs).
Proof.
  revert b. induction tcs as [|tc tcs IH]; intros b; cbn [foldl].
  - by rewrite append_nil_r.
  - rewrite IH. unfold fragmentsAt. rewrite filter_cons.
    destruct (decide (frag_index tc = i)) as [<-|Hne]; cbn.
    + by rewrite processToolCall_arguments, append_assoc.
    + unfold storedArguments at 1. by rewrite processToolCall_other.
Qed.

Lemma processChunk_indexedOnly (p : t) (c : Chunk) :
  indexedOnly c ->
  returns (processChunk p c).1
  /\ toolCallsBuffer (processChunk p c).2
     = foldl processToolCall (toolCallsBuffer p) (default [] (tool_calls c)).
Proof.
  intros [Hs Hd]. unfold processChunk, processToolInputDelta, processToolCallStart.
  rewrite Hs, Hd. cbn. split; [by eexists|].
  unfold processFinishReason, processToolCalls, processContent.
  by repeat case_match.
Qed.

Lemma processChunks_indexedOnly (cs : list Chunk) (p : t) :
  Forall indexedOnly cs ->
  allSucceed p cs
  /\ toolCallsBuffer (processChunks p cs)
     = foldl processToolCall (toolCallsBuffer p) (indexedFragments cs).
Proof.
  intros H. revert p. induction H as [|c cs Hc _ IH]; intros p; cbn; [done|].
  destruct (processChunk_indexedOnly p c Hc) as [Hr Hb].
  destruct (IH (processChunk p c).2) as [Ha Hf].
  split; [done|]. unfold processChunks in *. cbn. rewrite Hf, Hb.
  unfold indexedFragments. cbn. destruct (tool_calls c) as [tcs|]; cbn; [|done].
  by rewrite foldl_app.
Qed.

(** X1 (argument accumulation).  For a run of chunks in the indexed encoding
    only (no [tool_call_start], no [tool_input_delta]) every call of
    [processChunk] returns, and the argument text stored at an index after
    the run is the text stored before it followed by the argument fragments
    addressed to that index, in arrival order.  Fragments addressed to other
    indices leave it alone; a fragment without arguments adds nothing. *)
Theorem arguments_accumulate_per_index (cs : list Chunk) (p : t) (i : nat) :
  Forall indexedOnly cs ->
  allSucceed p cs
  /\ storedArguments (toolCallsBuffer (processChunks p cs)) i
     = storedArguments (toolCallsBuffer p) i
       +:+ concatenation (fragmentArguments <$> fragmentsAt i (indexedFragments cs)).
Proof.
  intros H. destruct (processChunks_indexedOnly cs p H) as [Ha Hb].
  split; [exact Ha|]. rewrite Hb. apply foldl_processToolCall_arguments.
Qed.

Lemma arguments_accumulate_per_index_witness :
  Forall indexedOnly
    [argumentsChunk 0 "[1,"; argumentsChunk 1 "{}"; argumentsChunk 0 ""; argumentsChunk 0 "2]"]
  /\ storedArguments
       (toolCallsBuffer
          (processChunks new
             [argumentsChunk 0 "[1,"; argumentsChunk 1 "{}"; argumentsChunk 0 "";
              argumentsChunk 0 "2]"])) 0
     = "[1,2]".
Proof.
  assert (H : Forall indexedOnly
    [argumentsChunk 0 "[1,"; argumentsChunk 1 "{}"; argumentsChunk 0 ""; argumentsChunk 0 "2]"]).
  { repeat constructor. }
  split; [exact H|].
  exact (proj2 (arguments_accumulate_per_index _ new 0 H)).
Defined.

(** *** The finish reason *)
Lemma processChunk_finishReason (p : t) (c : Chunk) :
  returns (processChunk p c).1 ->
  finishReason (processChunk p c).2
  = if truthy (finish_reason c) then finish_reason c else finishReason p.
Proof.
  unfold processChunk. intros [r Hr].
  destruct (processToolInputDelta c _) as [p4|e] eqn:E; [|done]. cbn.
  assert (H4 : finishReason p4 = finishReason p).
  { unfold processToolInputDelta in E.
    assert (H3 : finishReason (processToolCallStart c (processToolCalls c (processContent c p)))
                 = finishReason p).
    { unfold processToolCallStart, processToolCalls, processContent.
      by repeat case_match. }
    repeat case_match; simplify_eq; done. }
  unfold processFinishReason. destruct (finish_reason c) as [r'|]; [|done].
  by destruct (truthy (Some r')).
Qed.

Lemma last_cons_default {A} (x : A) (l : list A) (d : option A) :
  from_option Some d (last (x :: l)) = from_option Some (Some x) (last l).
Proof. destruct l as [|y l] using rev_ind; [done|]. by rewrite app_comm_cons, !last_snoc. Qed.

(** X2 (finish reason).  When every call of a run returns, the finish reason
    the parser holds afterwards is the last truthy [finish_reason] among the
    chunks, and the one held before the run when no chunk carries a truthy
    one: an absent or empty [finish_reason] never clears it. *)
Theorem finish_reason_retained (cs : list Chunk) (p : t) :
  allSucceed p cs ->
  finishReason (processChunks p cs)
  = from_option Some (finishReason p) (last (finishReasons cs)).
Proof.
  revert p. induction cs as [|c cs IH]; intros p; [done|].
  intros [Hr Hs]. unfold processChunks in *. cbn [foldl]. rewrite (IH _ Hs).
  rewrite (processChunk_finishReason p c Hr).
  unfold finishReasons. cbn [omap list_omap].
  destruct (finish_reason c) as [r|]; [|done].
  rewrite filter_cons. destruct (truthy (Some r)) eqn:Ht.
  - rewrite decide_True by done. by rewrite last_cons_default.
  - rewrite decide_False by congruence. done.
Qed.

Lemma finish_reason_retained_witness :
  allSucceed new [finishChunk (Some "stop"); finishChunk None; finishChunk (Some "")]
  /\ finishReason
       (processChunks new [finishChunk (Some "stop"); finishChunk None; finishChunk (Some "")])
     = Some "stop".
Proof.
  assert (H : allSucceed new
                [finishChunk (Some "stop"); finishChunk None; finishChunk (Some "")]).
  { repeat split; by eexists. }
  split; [exact H|]. exact (finish_reason_retained _ new H).
Defined.

(** *** [Object.values] on the buffer *)
Global Instance key_le_total : Total key_le.
Proof. intros [a x] [b y]. unfold key_le. cbn. lia. Qed.

Global Instance key_le_trans : Transitive key_le.
Proof. intros [a x] [b y] [c z]. unfold key_le. cbn. lia. Qed.

Lemma Object_values_length (b : gmap nat ToolCall) :
  length (Object_values b) = size b.
Proof.
  unfold Object_values. by rewrite length_fmap, merge_sort_Permutation, length_map_to_list.
Qed.

Lemma Sorted_zip_seq (start : nat) (es : list ToolCall) :
  Sorted key_le (zip (seq start (length es)) es).
Proof.
  revert start. induction es as [|e es IH]; intros start; cbn; [constructor|].
  constructor; [apply IH|]. destruct es; cbn; constructor. unfold key_le. cbn. lia.
Qed.

Lemma elem_of_zip_seq (start : nat) (es : list ToolCall) (k : nat) (v : ToolCall) :
  (k, v) ∈ zip (seq start (length es)) es -> start <= k /\ es !! (k - start) = Some v.
Proof.
  revert start. induction es as [|e es IH]; intros start; cbn; [by inversion 1|].
  intros H. apply elem_of_cons in H as [[= -> ->]|H].
  - split; [lia|]. by rewrite Nat.sub_diag.
  - apply IH in H as [Hle Hl]. split; [lia|].
    replace (k - start) with (S (k - S start)) by lia. done.
Qed.

Lemma Object_values_map_seq (es : list ToolCall) :
  Object_values (map_seq 0 es) = es.
Proof.
  unfold Object_values.
  assert (Hp : merge_sort key_le (map_to_list (map_seq 0 es : gmap nat ToolCall))
               ≡ₚ zip (seq 0 (length es)) es).
  { by rewrite merge_sort_Permutation, map_to_list_seq. }
  assert (He : merge_sort key_le (map_to_list (map_seq 0 es : gmap nat ToolCall))
               = zip (seq 0 (length es)) es).
  { apply (Sorted_unique_strong key_le); [|apply Sorted_merge_sort, _
                                         |apply Sorted_zip_seq|exact Hp].
    intros [k1 v1] [k2 v2] H1 H2 Hle1 Hle2. unfold key_le in *. cbn in *.
    assert (k1 = k2) by lia. subst k2. rewrite Hp in H1.
    apply elem_of_zip_seq in H1 as [_ H1]. apply elem_of_zip_seq in H2 as [_ H2].
    congruence. }
  rewrite He. apply snd_zip. rewrite length_seq. lia.
Qed.

(** X3 (presence of tool calls).  [getResult] reports [toolCalls: null]
    exactly when the buffer has no entry; a reported list is never empty and
    has one element per buffer entry; and [hasToolCalls] is true exactly when
    [getResult] reports a list. *)
Theorem getResult_toolCalls_null_iff_empty (p : t) :
  (result_toolCalls (getResult p) = None <-> toolCallsBuffer p = ∅)
  /\ (forall calls, result_toolCalls (getResult p) = Some calls ->
                    length calls = size (toolCallsBuffer p) /\ calls <> [])
  /\ (hasToolCalls p = true <-> is_Some (result_toolCalls (getResult p))).
Proof.
  unfold getResult, hasToolCalls, Object_keys_length. cbn.
  pose proof (Object_values_length (toolCallsBuffer p)) as Hl. rewrite Hl.
  pose proof (map_size_empty_iff (toolCallsBuffer p)) as He.
  destruct (decide (0 < size (toolCallsBuffer p))) as [Hpos|Hz].
  - split; [|split].
    + split; [done|]. intros H. apply He in H. lia.
    + intros calls [= <-]. split; [exact Hl|].
      intros Hnil. rewrite Hnil in Hl. cbn in Hl. lia.
    + split; [by eauto|]. intros _. by apply bool_decide_eq_true_2.
  - split; [|split].
    + split; [|done]. intros _. apply He. lia.
    + intros calls [=].
    + split; [|by intros [? [=]]]. intros H. apply bool_decide_eq_true_1 in H. lia.
Qed.

(** X4 (result of an alternate stream).  For a stream in the alternate
    encoding fed to a fresh parser, [getResult] lists the tool calls in the
    order of their [tool_call_start] events, each with the input accumulated
    for it, and reports [null] when the stream started no call. *)
Theorem alternate_stream_result_in_allocation_order (cs : list Chunk) :
  Forall alternate cs ->
  result_toolCalls (getResult (processChunks new cs))
  = if decide (alternateEntries cs = []) then None else Some (alternateEntries cs).
Proof.
  intros H. destruct (processChunks_alternate cs new [] H eq_refl) as [_ Hb].
  unfold getResult. cbn. rewrite Hb, Object_values_map_seq.
  fold (alternateEntries cs). destruct (alternateEntries cs) as [|e es]; [done|].
  cbn. rewrite decide_True by lia. done.
Qed.

Lemma alternate_stream_result_in_allocation_order_witness :
  Forall alternate Examples.alternateStream
  /\ result_toolCalls (getResult (processChunks new Examples.alternateStream))
     = Some [mkToolCall "toolu_1" "function" "list_files" "[1,2]";
             mkToolCall "toolu_2" "function" "read_file" "{}"].
Proof.
  assert (H : Forall alternate Examples.alternateStream) by (repeat constructor).
  split; [exact H|].
  exact (alternate_stream_result_in_allocation_order Examples.alternateStream H).
Defined.

End DecoderFacts.

(** ** Reading the event stream *)

Module ReaderFacts.
Import JS Json StreamReader StreamSpec ReaderSpec.
Import StreamParserFacts.

Lemma splitLines_nonempty (l : list ascii) : splitLines l <> [].
Proof.
  destruct l as [|c r]; cbn; [done|].
  case_bool_decide; [done|]. by destruct (splitLines r).
Qed.

Lemma removelast_cons2 {A} (x : A) (l : list A) :
  l <> [] -> removelast (x :: l) = x :: removelast l.
Proof. by destruct l. Qed.

Lemma last_cons2 {A} (x : A) (l : list A) : l <> [] -> last (x :: l) = last l.
Proof. by destruct l. Qed.

Lemma splitLines_app (a b : list ascii) :
  splitLines (a ++ b)
  = removelast (splitLines a) ++ splitLines (default [] (last (splitLines a)) ++ b).
Proof.
  induction a as [|c r IH]; [done|].
  pose proof (splitLines_nonempty r) as Hr.
  cbn [app splitLines]. case_bool_decide as Hc.
  - rewrite removelast_cons2, last_cons2 by done. cbn. by rewrite IH.
  - rewrite IH. destruct (splitLines r) as [|x [|y ys]] eqn:E; [done| |].
    + cbn. rewrite bool_decide_eq_false_2 by done.
      pose proof (splitLines_nonempty (x ++ b)). by destruct (splitLines (x ++ b)).
    + cbn [removelast last app]. cbn.
      destruct ys; done.
Qed.

Lemma chars_append (s t : string) :
  list_ascii_of_string (s +:+ t) = list_ascii_of_string s ++ list_ascii_of_string t.
Proof. induction s as [|c s IH]; [done|]. rewrite append_cons. cbn. by rewrite IH. Qed.

Lemma removelast_map {A B} (f : A -> B) (l : list A) :
  removelast (map f l) = map f (removelast l).
Proof.
  induction l as [|x l IH]; [done|]. destruct l as [|y l]; [done|].
  change (removelast (f x :: map f (y :: l)) = f x :: map f (removelast (y :: l))).
  rewrite removelast_cons2 by done. by rewrite IH.
Qed.

Lemma remainder_chars (text : string) :
  list_ascii_of_string (remainder text)
  = default [] (last (splitLines (list_ascii_of_string text))).
Proof.
  unfold remainder, split, or_empty.
  change (map string_of_list_ascii ?l) with (string_of_list_ascii <$> l).
  rewrite fmap_last. destruct (last _); cbn; [|done].
  apply list_ascii_of_string_of_list_ascii.
Qed.

Lemma split_app (a b : string) :
  split (a +:+ b) = completeLines a ++ split (remainder a +:+ b).
Proof.
  unfold completeLines, split at 1 3. rewrite !chars_append, splitLines_app.
  rewrite map_app, remainder_chars. unfold split. by rewrite removelast_map.
Qed.

Lemma split_nonempty (text : string) : split text <> [].
Proof.
  unfold split. pose proof (splitLines_nonempty (list_ascii_of_string text)).
  by destruct (splitLines _).
Qed.

Lemma completeLines_app (a b : string) :
  completeLines (a +:+ b) = completeLines a ++ completeLines (remainder a +:+ b).
Proof.
  unfold completeLines at 1. rewrite split_app.
  rewrite removelast_app by apply split_nonempty. done.
Qed.

Lemma remainder_app (a b : string) :
  remainder (a +:+ b) = remainder (remainder a +:+ b).
Proof.
  unfold remainder at 1. rewrite split_app.
  change (remainder (remainder a +:+ b))
    with (or_empty (last (split (remainder a +:+ b)))).
  pose proof (split_nonempty (remainder a +:+ b)) as H.
  destruct (split (remainder a +:+ b)) as [|x l] using rev_ind; [done|].
  by rewrite app_assoc, !last_snoc.
Qed.

Section WithBuiltins.
Context {builtins : Builtins}.

Lemma deliverLines_app (l1 l2 : list string) :
  deliverLines (l1 ++ l2)
  = if (deliverLines l1).2 then deliverLines l1
    else ((deliverLines l1).1 ++ (deliverLines l2).1, (deliverLines l2).2).
Proof.
  induction l1 as [|line l1 IH]; cbn [app deliverLines].
  - by destruct (deliverLines l2).
  - destruct (startsWith "data: " line); [|exact IH].
    destruct (String.eqb _ "[DONE]"); [reflexivity|].
    destruct (JSON_parse _); [|exact IH].
    rewrite IH. destruct (deliverLines l1) as [c1 [|]]; reflexivity.
Qed.

Lemma completeLines_remainder (t : string) : completeLines (remainder t) = [].
Proof.
  pose proof (completeLines_app t "") as H. rewrite !append_nil_r in H.
  rewrite <- (app_nil_r (completeLines t)) in H at 1.
  by apply app_inv_head in H.
Qed.

Lemma remainder_remainder (t : string) : remainder (remainder t) = remainder t.
Proof.
  pose proof (remainder_app t "") as H. by rewrite !append_nil_r in H.
Qed.

Lemma streamChatFrom_spec (pieces : list string) (t : string) :
  streamChatFrom (remainder t) pieces
  = callbacksOf (remainder t +:+ concatenation pieces).
Proof.
  revert t. induction pieces as [|piece rest IH]; intros t; cbn [streamChatFrom].
  - unfold callbacksOf. cbn. by rewrite append_nil_r, completeLines_remainder.
  - fold (completeLines (remainder t +:+ piece)).
    fold (remainder (remainder t +:+ piece)). rewrite IH.
    unfold callbacksOf. cbn [concatenation foldr].
    rewrite <- append_assoc, (completeLines_app (remainder t +:+ piece)).
    rewrite deliverLines_app.
    destruct (deliverLines (completeLines (remainder t +:+ piece))) as [c1 [|]]; cbn;
      [done|].
    fold (concatenation rest).
    destruct (deliverLines _) as [c2 [|]]; cbn; [done|]. by rewrite app_assoc.
Qed.

Lemma deliverLines_shape (lines : list string) :
  exists chunks,
    (deliverLines lines).1
    = map OnChunk chunks ++ (if (deliverLines lines).2 then [OnDone] else []).
Proof.
  induction lines as [|line lines [chunks IH]]; cbn [deliverLines]; [by exists []|].
  destruct (startsWith "data: " line); [|by exists chunks].
  destruct (String.eqb _ "[DONE]"); [by exists []|].
  destruct (JSON_parse _) as [chunk|]; [|by exists chunks].
  exists (chunk :: chunks). cbn. by rewrite IH.
Qed.

Lemma remainder_empty : remainder "" = "".
Proof. reflexivity. Qed.

(** X6 (read boundaries, [streamChat]).  The callbacks [streamChat] makes
    depend only on the concatenation of the decoded texts, not on where the
    transport cut the body into reads: they are those of the complete lines
    of the whole text.  Whatever the body, the callbacks are a sequence of
    [onChunk] calls followed by exactly one [onDone]. *)
Theorem streamChat_boundary_independent (pieces : list string) :
  streamChat pieces = streamChat [concatenation pieces]
  /\ streamChat pieces = callbacksOf (concatenation pieces)
  /\ exists chunks, streamChat pieces = map OnChunk chunks ++ [OnDone].
Proof.
  assert (H : forall ps, streamChat ps = callbacksOf (concatenation ps)).
  { intros ps. unfold streamChat. rewrite <- remainder_empty at 1.
    by rewrite streamChatFrom_spec, remainder_empty. }
  split; [|split; [apply H|]].
  - rewrite !H. cbn. by rewrite append_nil_r.
  - rewrite H. unfold callbacksOf.
    destruct (deliverLines_shape (completeLines (concatenation pieces))) as [chunks Hc].
    exists chunks. rewrite Hc. destruct (deliverLines _).2; [done|].
    by rewrite app_nil_r.
Qed.

Lemma createStreamReaderFrom_spec (pieces : list string) (t : string) :
  createStreamReaderFrom (remainder t) pieces
  = framesOf (remainder t +:+ concatenation pieces).
Proof.
  revert t. induction pieces as [|piece rest IH]; intros t; cbn [createStreamReaderFrom].
  - unfold framesOf. cbn [concatenation foldr].
    by rewrite append_nil_r, completeLines_remainder, remainder_remainder.
  - unfold readerStep. cbn [fst snd].
    fold (completeLines (remainder t +:+ piece)).
    fold (remainder (remainder t +:+ piece)). rewrite IH.
    unfold framesOf. cbn [concatenation foldr]. fold (concatenation rest).
    rewrite <- (append_assoc (remainder t) piece).
    rewrite (completeLines_app (remainder t +:+ piece)), (remainder_app (remainder t +:+ piece)).
    rewrite map_app, filter_app. by rewrite <- !app_assoc.
Qed.

(** X7 (read boundaries, [createStreamReader]).  What the generator yields
    depends only on the concatenation of the decoded texts: the truthy
    parses of the complete lines of the whole text, then that of a non-empty
    last line. *)
Theorem createStreamReader_boundary_independent (pieces : list string) :
  createStreamReader pieces = createStreamReader [concatenation pieces]
  /\ createStreamReader pieces = framesOf (concatenation pieces).
Proof.
  assert (H : forall ps, createStreamReader ps = framesOf (concatenation ps)).
  { intros ps. unfold createStreamReader. rewrite <- remainder_empty at 1.
    by rewrite createStreamReaderFrom_spec, remainder_empty. }
  split; [|apply H]. rewrite !H. cbn. by rewrite append_nil_r.
Qed.

End WithBuiltins.
End ReaderFacts.

(** ** Parsed tool calls *)

Module ParsedCallsFacts.
Import JS Json StreamParser StreamReader.
Section WithBuiltins.
Context {builtins : Builtins}.

Lemma parsedArgumentsOf_cases (text : string) :
  (exists args, JSON_parse text = Return args /\ parsedArgumentsOf text = args)
  \/ (throws (JSON_parse text) /\ parsedArgumentsOf text = JObject []).
Proof.
  unfold parsedArgumentsOf. destruct (JSON_parse text) as [args|e]; cbn.
  - left. by exists args.
  - right. split; [by exists e|done].
Qed.

(** X5 (parsed tool calls).  [getParsedToolCalls] returns [null] exactly when
    [getResult] reports no tool calls.  Otherwise it returns the same calls in
    the same order, with ids, types, names and argument texts unchanged, and
    each [parsedArguments] is what [JSON.parse] makes of the argument text, or
    the empty object when the text does not parse: the method does not throw. *)
Theorem getParsedToolCalls_agrees_with_getResult (p : StreamParser.t) :
  match getParsedToolCalls p, result_toolCalls (getResult p) with
  | None, None => toolCallsBuffer p = ∅
  | Some parsed, Some calls =>
      map parsed_id parsed = map call_id calls
      /\ map parsed_type parsed = map call_type calls
      /\ map parsed_name parsed = map fn_name calls
      /\ map parsed_arguments parsed = map fn_arguments calls
      /\ Forall (fun c =>
                   JSON_parse (parsed_arguments c) = Return (parsed_parsedArguments c)
                   \/ (throws (JSON_parse (parsed_arguments c))
                       /\ parsed_parsedArguments c = JObject []))
                parsed
  | _, _ => False
  end.
Proof.
  unfold getParsedToolCalls, getResult. cbn.
  pose proof (DecoderFacts.Object_values_length (toolCallsBuffer p)) as Hl.
  destruct (Object_values (toolCallsBuffer p)) as [|c cs] eqn:E.
  - cbn. apply map_size_empty_iff. cbn in Hl. lia.
  - rewrite bool_decide_eq_false_2 by done. rewrite decide_True by (cbn; lia).
    rewrite !map_map. repeat split; try done.
    apply Forall_fmap, Forall_forall. intros tc _. cbn.
    destruct (parsedArgumentsOf_cases (fn_arguments tc)) as [(args & Ha & Hp)|[Ht Hp]].
    + left. by rewrite Hp.
    + by right.
Qed.

End WithBuiltins.
End ParsedCallsFacts.

(** ** The orchestrator: dispatch, cache and context *)

Module DispatchFacts.
Import JS Json Panels Orchestrator OrchestratorSpec DispatchSpec.
Import OrchestratorFacts.

Section WithRegistry.
Context {builtins : Builtins}.
Variable panelRegistry : Registry.

(** *** [processToolCalls] on well-formed calls *)
Lemma processToolCallsFrom_wellFormed (toolCache : ToolCache) (toolCalls : list Call)
    (store : Store) (results : list CallResult) :
  noNullishRejection panelRegistry ->
  Forall wellFormed toolCalls ->
  exists more,
    (processToolCallsFrom panelRegistry toolCache store results toolCalls).1
    = Return (results ++ more)
    /\ map toolCallId more = map call_id toolCalls
    /\ map call_name more = map fn_name toolCalls.
Proof.
  intros Hvalues H. revert store results.
  induction H as [|call rest [args Ha] _ IH]; intros store results; cbn.
  - exists []. by rewrite app_nil_r.
  - rewrite Ha.
    destruct (executeTool_returns panelRegistry toolCache store (fn_name call) args Hvalues)
      as [r Hr].
    destruct (executeTool _ _ _ _ _) as [o store']. cbn in Hr. subst o.
    destruct (IH store' (results ++ [mkCallResult (call_id call) (fn_name call) r]))
      as (more & Hm & Hi & Hn).
    exists (mkCallResult (call_id call) (fn_name call) r :: more).
    rewrite Hm, <- app_assoc. cbn. by rewrite Hi, Hn.
Qed.

(** X8 (one result per call).  When no executor of the registry throws
    [null] or [undefined], and the arguments of every call are a value already
    or text that [JSON.parse] accepts, [processToolCalls] returns one result
    per call, in call order, each carrying the id and the name of its call:
    a tool that fails, by a failure result or by throwing any other value,
    does not end the loop. *)
Theorem processToolCalls_one_result_per_call (toolCache : ToolCache) (store : Store)
    (toolCalls : list Call) :
  noNullishRejection panelRegistry ->
  Forall wellFormed toolCalls ->
  exists results,
    (processToolCalls panelRegistry toolCache store toolCalls).1 = Return results
    /\ map toolCallId results = map call_id toolCalls
    /\ map call_name results = map fn_name toolCalls.
Proof.
  intros Hvalues H.
  destruct (processToolCallsFrom_wellFormed toolCache toolCalls store [] Hvalues H)
    as (more & Hm & Hi & Hn).
  by exists more.
Qed.

(** *** What [executeTool] leaves alone *)
Lemma updatePanelState_frame (i : string) (newState : PanelState) (s : Store) :
  Forall2 (fun p p' => sameButState p p' /\ (id p <> i -> p' = p))
          (panels s) (panels (updatePanelState i newState s)).
Proof.
  unfold updatePanelState. cbn. induction (panels s) as [|p ps IH]; cbn; constructor;
    [|exact IH].
  case_bool_decide; [|by repeat split]. by repeat split.
Qed.

Lemma sameButState_trans (p q r : PanelInstance) :
  sameButState p q -> sameButState q r -> sameButState p r.
Proof. unfold sameButState. intros (?&?&?&?&?&?) (?&?&?&?&?&?). repeat split; congruence. Qed.

Lemma updates_frame (i : string) (updates : list PanelState) (s : Store) :
  Forall2 (fun p p' => sameButState p p' /\ (id p <> i -> p' = p))
          (panels s)
          (panels (foldl (fun s newState => updatePanelState i newState s) s updates)).
Proof.
  revert s. induction updates as [|u updates IH]; intros s; cbn.
  - apply Forall2_same_length_lookup_2; [done|]. intros k p p' H1 H2.
    simplify_eq. by repeat split.
  - specialize (IH (updatePanelState i u s)).
    pose proof (updatePanelState_frame i u s) as H1.
    apply Forall2_same_length_lookup_2.
    { etrans; [exact (Forall2_length _ _ _ H1)|exact (Forall2_length _ _ _ IH)]. }
    intros k p p'' Hp Hp''.
    destruct (Forall2_lookup_l _ _ _ _ _ H1 Hp) as (p' & Hp' & Hs1 & He1).
    destruct (Forall2_lookup_l _ _ _ _ _ IH Hp') as (q & Hq & Hs2 & He2).
    simplify_eq. split; [by eapply sameButState_trans|].
    intros Hne. rewrite <- (He1 Hne). apply He2.
    destruct Hs1 as (Hid & _). congruence.
Qed.

(** X9 (what a tool can change).  [executeTool] never adds, removes or
    reorders panels, and changes no panel's id, type, title, mode, order or
    observation flag: at most the state of panels changes, and only of a
    panel whose id is the one the cached tool is routed to.  With an unknown
    tool name the store is left as it was. *)
Theorem executeTool_store_frame (toolCache : ToolCache) (store : Store)
    (toolName : string) (args : json) :
  Forall2 (fun p p' =>
             sameButState p p'
             /\ ((forall tool, toolCache !! toolName = Some tool -> id p <> _panelId tool)
                 -> p' = p))
          (panels store)
          (panels (executeTool panelRegistry toolCache store toolName args).2).
Proof.
  assert (Hrefl : Forall2 (fun p p' : PanelInstance =>
             sameButState p p'
             /\ ((forall tool, toolCache !! toolName = Some tool -> id p <> _panelId tool)
                 -> p' = p)) (panels store) (panels store)).
  { apply Forall2_same_length_lookup_2; [done|]. intros k p p' H1 H2.
    simplify_eq. by repeat split. }
  unfold executeTool. destruct (toolCache !! toolName) as [tool|] eqn:Hc; [|exact Hrefl].
  destruct (getPanelDefinition _ _ ≫= executeMCPTool) as [execute|]; [|exact Hrefl].
  destruct (List.find _ _) as [panel|]; [|exact Hrefl].
  cbn. eapply Forall2_impl; [apply updates_frame|].
  intros p p' [Hs He]. split; [exact Hs|]. intros Hr. apply He. by apply Hr.
Qed.

(** *** The tool cache *)
Lemma cacheTools_snoc (tools : list AggregatedTool) (t : AggregatedTool) :
  cacheTools (tools ++ [t]) = <[name t := t]> (cacheTools tools).
Proof. unfold cacheTools. by rewrite foldl_app. Qed.

Lemma last_filter_None {A} (P : A -> Prop) `{forall x, Decision (P x)} (l : list A) :
  last (filter P l) = None <-> Forall (fun x => ~ P x) l.
Proof.
  rewrite last_None. split.
  - intros Hn. apply Forall_forall. intros x Hx HP.
    assert (x ∈ filter P l) as Hin by (by apply list_elem_of_filter).
    rewrite Hn in Hin. by apply not_elem_of_nil in Hin.
  - intros Hf. induction Hf as [|x l Hx _ IH]; [done|].
    by rewrite filter_cons, decide_False.
Qed.

Lemma cacheTools_lookup (tools : list AggregatedTool) (n : string) :
  cacheTools tools !! n = last (filter (fun t => name t = n) tools).
Proof.
  induction tools as [|t tools IH] using rev_ind; [done|].
  rewrite cacheTools_snoc, filter_app, filter_cons, filter_nil.
  destruct (decide (name t = n)) as [<-|Hne].
  - by rewrite lookup_insert_eq, last_snoc.
  - by rewrite lookup_insert_ne, app_nil_r.
Qed.

Lemma cacheTools_elem_of (tools : list AggregatedTool) (n : string) (t : AggregatedTool) :
  cacheTools tools !! n = Some t -> t ∈ tools /\ name t = n.
Proof.
  rewrite cacheTools_lookup. intros H. apply last_Some_elem_of in H.
  by apply list_elem_of_filter in H as [? ?].
Qed.

(** X10 (tool cache).  After [collectTools] has cached a list of tools, the
    entry under a name is the last tool of the list with that name: a later
    panel listing the same prefixed name replaces an earlier one.  Every
    entry is a tool of the list, and a name has no entry exactly when no tool
    of the list carries it. *)
Theorem cache_last_registration_wins (tools : list AggregatedTool) (n : string) :
  cacheTools tools !! n = last (filter (fun t => name t = n) tools)
  /\ (forall t, cacheTools tools !! n = Some t -> t ∈ tools /\ name t = n)
  /\ (cacheTools tools !! n = None <-> Forall (fun t => name t <> n) tools).
Proof.
  split; [apply cacheTools_lookup|]. split; [apply cacheTools_elem_of|].
  rewrite cacheTools_lookup. apply last_filter_None.
Qed.

(** X11 (unknown tool).  After [collectTools] over a list of panels,
    [executeTool] answers [Unknown tool: <name>] exactly for the names that
    none of these panels listed, whatever the cache held before. *)
Theorem unknown_tool_iff_not_collected (toolCache : ToolCache) (panels : list PanelInstance)
    (store : Store) (toolName : string) (args : json) :
  let collected := collectTools panelRegistry toolCache panels in
  (executeTool panelRegistry collected.2 store toolName args).1
  = Return (mkToolResult false None (Some ("Unknown tool: " +:+ toolName)) None None)
  <-> Forall (fun t => name t <> toolName)
             (concat (panelTools panelRegistry <$> panels)).
Proof.
  cbn. rewrite collectTools_spec. cbn [snd].
  rewrite <- last_filter_None, <- cacheTools_lookup.
  unfold executeTool.
  destruct (cacheTools _ !! toolName) as [tool|]; [|done].
  split; [|done]. intros H. exfalso.
  destruct (getPanelDefinition _ _ ≫= executeMCPTool) as [execute|].
  2:{ cbn in H. by simplify_eq. }
  destruct (List.find _ _) as [panel|].
  2:{ cbn in H. by simplify_eq. }
  cbn in H. destruct (execute _ _ _).1 as [v|[|m]]; cbn in H; by simplify_eq.
Qed.

(** *** The observed context *)
Lemma contextOf_fields (panel : PanelInstance) (o : ObservedPanel) :
  contextOf panelRegistry panel = Some o ->
  panelId o = id panel /\ panelType o = panelTypeId panel /\ observedTitle o = title panel.
Proof.
  unfold contextOf. destruct (_ ≫= getLLMContext) as [describe|]; [|done].
  destruct (describe _); [|done]. by intros [= <-].
Qed.

Lemma omap_contextOf_sublist (ps : list PanelInstance) :
  map panelId (omap (contextOf panelRegistry) ps) `sublist_of` map id ps.
Proof.
  induction ps as [|p ps IH]; cbn; [done|].
  destruct (contextOf panelRegistry p) as [o|] eqn:E; cbn.
  - apply contextOf_fields in E as (-> & _). by constructor.
  - by constructor.
Qed.

(** X12 (observed context).  Every entry of the context [buildContext]
    returns describes a panel of the list that is being observed, with that
    panel's id, type and title; the entries follow the order of the observed
    panels, with panels whose type cannot describe them left out; the
    timestamp is the current time. *)
Theorem buildContext_only_observed (now : nat) (panels : list PanelInstance) :
  Forall (describesObserved panels) (observedPanels (buildContext panelRegistry now panels))
  /\ map panelId (observedPanels (buildContext panelRegistry now panels))
     `sublist_of` map id (filter (fun p => isAIObserving p = true) panels)
  /\ timestamp (buildContext panelRegistry now panels) = now.
Proof.
  unfold buildContext. cbn. split; [|split; [apply omap_contextOf_sublist|done]].
  apply Forall_forall. intros o Ho. apply list_elem_of_omap in Ho as (p & Hp & Ho).
  apply list_elem_of_filter in Hp as [Hobs Hin].
  apply contextOf_fields in Ho as (? & ? & ?). by exists p.
Qed.

End WithRegistry.
End DispatchFacts.

(** ** The controller: one exchange, step by step *)

Module ControllerFacts.
Import JS Json Panels Orchestrator Messages Client Chat ChatSpec ControllerSpec.
Import StreamSpec OrchestratorSpec.
Import StreamParserFacts OrchestratorFacts ChatFacts ChatInvariant.

Lemma trimStart_suffix (l : list ascii) :
  exists pre, l = pre ++ trimStart l /\ Forall (fun c => is_white_space c = true) pre.
Proof.
  induction l as [|c l (pre & E & H)]; cbn.
  - by exists [].
  - destruct (is_white_space c) eqn:Hc.
    + exists (c :: pre). split; [by rewrite E at 1|by constructor].
    + by exists [].
Qed.

Lemma trimStart_keeps (l : list ascii) (c : ascii) :
  c ∈ l -> is_white_space c = false -> c ∈ trimStart l.
Proof.
  intros Hin Hc. destruct (trimStart_suffix l) as (pre & E & H).
  rewrite E in Hin. apply elem_of_app in Hin as [Hin|Hin]; [|done].
  rewrite Forall_forall in H. rewrite (H c Hin) in Hc. done.
Qed.

Lemma elem_of_rev (l : list ascii) (c : ascii) : c ∈ rev l <-> c ∈ l.
Proof. rewrite !list_elem_of_In. symmetry. apply in_rev. Qed.

Lemma trim_not_blank (text : string) : ~ blank text -> JS.truthy (Some (trim text)) = true.
Proof.
  intros Hb. unfold blank in Hb. apply not_Forall_Exists in Hb; [|apply _].
  apply Exists_exists in Hb as (c & Hin & Hc). apply not_true_is_false in Hc.
  assert (Hin' : c ∈ rev (trimStart (rev (trimStart (list_ascii_of_string text))))).
  { apply elem_of_rev, trimStart_keeps; [|done]. by apply elem_of_rev, trimStart_keeps. }
  unfold trim.
  destruct (rev (trimStart (rev (trimStart (list_ascii_of_string text))))) as [|a r];
    [by apply not_elem_of_nil in Hin'|done].
Qed.


Lemma sameButStream_refl (m : Message) : sameButStream m m.
Proof. by repeat split. Qed.

Lemma sameButStream_trans (a b c : Message) :
  sameButStream a b -> sameButStream b c -> sameButStream a c.
Proof.
  unfold sameButStream. intros (?&?&?&?&?&?&?&?&?) (?&?&?&?&?&?&?&?&?).
  repeat split; congruence.
Qed.

Lemma merge_done (m m' : Message) (pass : Pass) (c : string) :
  sameButStream m m' -> merge m' (doneUpdates pass c) = merge m (doneUpdates pass c).
Proof.
  intros (?&?&?&?&?&?&?&?&?). unfold merge, doneUpdates. destruct pass; cbn; congruence.
Qed.

Lemma processChunk_contentOnly (p : StreamParser.t) (c : StreamParser.Chunk) :
  contentOnly c ->
  exists r,
    StreamParser.processChunk p c = (Return r, StreamParser.processContent c p)
    /\ StreamParser.acc_toolCalls r = None.
Proof.
  intros (H1 & H2 & H3 & H4).
  unfold StreamParser.processChunk, StreamParser.processToolCalls,
    StreamParser.processToolCallStart, StreamParser.processToolInputDelta,
    StreamParser.processFinishReason, StreamParser.chunkResult.
  rewrite H1, H2, H3, H4. cbn. eexists. split; reflexivity.
Qed.

Lemma processChunks_contentOnly (cs : list StreamParser.Chunk) (p : StreamParser.t) :
  Forall contentOnly cs ->
  StreamParser.toolCallsBuffer (StreamParser.processChunks p cs)
  = StreamParser.toolCallsBuffer p.
Proof.
  intros H. revert p. induction H as [|c cs Hc _ IH]; intros p; [done|].
  unfold StreamParser.processChunks in *. cbn [foldl]. rewrite IH.
  destruct (processChunk_contentOnly p c Hc) as (r & E & _). rewrite E. cbn.
  unfold StreamParser.processContent. destruct (StreamParser.content c); [|done].
  by case_match.
Qed.

Section WithEnvironment.
Context {builtins : Builtins}.
Variable panelRegistry : Registry.

Lemma run_None (evs : list Event) :
  foldl (fun s ev => s ≫= fun st => step panelRegistry st ev) None evs = None.
Proof. by induction evs. Qed.

Lemma run_cons (st : State) (ev : Event) (evs : list Event) :
  run panelRegistry st (ev :: evs)
  = step panelRegistry st ev ≫= fun s => run panelRegistry s evs.
Proof. unfold run. cbn. destruct (step _ _ _); cbn; [done|apply run_None]. Qed.

Lemma run_app (st : State) (evs1 evs2 : list Event) :
  run panelRegistry st (evs1 ++ evs2)
  = run panelRegistry st evs1 ≫= fun s => run panelRegistry s evs2.
Proof.
  unfold run. rewrite foldl_app. destruct (foldl _ _ evs1); cbn; [done|apply run_None].
Qed.

Lemma onChunk_contentOnly (pass : Pass) (c : StreamParser.Chunk) (st : State)
    (ms : list Message) (m : Message) :
  contentOnly c -> messages st = ms ++ [m] ->
  exists m',
    messages (onChunk pass c st) = ms ++ [m'] /\ sameButStream m m'
    /\ streamParserRef (onChunk pass c st) = (StreamParser.processChunk (streamParserRef st) c).2
    /\ phase (onChunk pass c st) = phase st
    /\ error (onChunk pass c st) = error st.
Proof.
  intros Hc Hm.
  destruct (processChunk_contentOnly (streamParserRef st) c Hc) as (r & E & Ht).
  unfold onChunk. rewrite E. cbn. rewrite Ht.
  destruct (StreamParser.acc_content r) as [s|]; destruct pass; cbn;
    rewrite ?Hm, ?updateLast_snoc; eexists; (split; [reflexivity|]);
    by repeat split.
Qed.

Lemma chunks_contentOnly (pass : Pass) (request : Request) (cs : list StreamParser.Chunk)
    (st : State) (ms : list Message) (m : Message) :
  phase st = Streaming pass request ->
  messages st = ms ++ [m] ->
  Forall contentOnly cs ->
  exists st' m',
    run panelRegistry st (map ResponseChunk cs) = Some st'
    /\ messages st' = ms ++ [m'] /\ sameButStream m m'
    /\ streamParserRef st' = StreamParser.processChunks (streamParserRef st) cs
    /\ phase st' = phase st /\ error st' = error st.
Proof.
  intros Hph Hm H. revert st m Hph Hm.
  induction H as [|c cs Hc _ IH]; intros st m Hph Hm.
  - exists st, m. repeat split; try done.
  - destruct (onChunk_contentOnly pass c st ms m Hc Hm)
      as (m1 & Hm1 & Hs1 & Hp1 & Hph1 & He1).
    destruct (IH (onChunk pass c st) m1) as (st' & m' & Hrun & Hm' & Hs' & Hp' & Hph' & He');
      [congruence|done|].
    exists st', m'. cbn [map]. rewrite run_cons. unfold step at 1. rewrite Hph. cbn.
    split; [exact Hrun|]. split; [exact Hm'|].
    split; [by eapply sameButStream_trans|].
    split; [by rewrite Hp', Hp1|]. repeat split; congruence.
Qed.

(** X16 (a streamed reply).  While a request is in flight, a stream of chunks
    that carry nothing but content, followed by the end of the stream, leaves
    the conversation as it was except for its last message: that message
    holds the parser's content followed by the fragments in arrival order and
    is no longer streaming (in the first pass its tool calls are [null]).
    The controller is idle and not loading; the error is unchanged. *)
Theorem content_reply_completes (pass : Pass) (request : Request) (st : State)
    (ms : list Message) (m : Message) (chunks : list StreamParser.Chunk) (f : Fresh) :
  phase st = Streaming pass request ->
  messages st = ms ++ [m] ->
  StreamParser.toolCallsBuffer (streamParserRef st) = ∅ ->
  Forall contentOnly chunks ->
  exists st',
    run panelRegistry st (map ResponseChunk chunks ++ [ResponseDone f]) = Some st'
    /\ messages st'
       = ms ++ [merge m (doneUpdates pass
                           (StreamParser.contentBuffer (streamParserRef st)
                            +:+ concatenation (fragments chunks)))]
    /\ phase st' = Idle /\ isLoading st' = false
    /\ error st' = error st.
Proof.
  intros Hph Hm Hb Hc.
  destruct (chunks_contentOnly pass request chunks st ms m Hph Hm Hc)
    as (st1 & m1 & Hrun & Hm1 & Hs1 & Hp1 & Hph1 & He1).
  rewrite run_app, Hrun. cbn. unfold run. cbn. unfold step. rewrite Hph1, Hph.
  assert (Hbuf : StreamParser.toolCallsBuffer (streamParserRef st1) = ∅)
    by (by rewrite Hp1, processChunks_contentOnly).
  assert (Hcont : StreamParser.contentBuffer (streamParserRef st1)
                  = StreamParser.contentBuffer (streamParserRef st)
                    +:+ concatenation (fragments chunks))
    by (by rewrite Hp1, processChunks_contentBuffer).
  destruct pass.
  - eexists. split; [reflexivity|]. unfold onDone_first, StreamParser.getResult.
    rewrite Hbuf, Hcont. unfold StreamParser.Object_values. rewrite map_to_list_empty.
    cbn. destruct (decide (0 < 0)) as [?|_]; [lia|]. cbn. rewrite Hm1, updateLast_snoc.
    rewrite <- (merge_done m m1 FirstPass _ Hs1). by repeat split.
  - eexists. split; [reflexivity|]. unfold onDone_second, StreamParser.getResult.
    rewrite Hcont. cbn. rewrite Hm1, updateLast_snoc.
    rewrite <- (merge_done m m1 SecondPass _ Hs1). by repeat split.
Qed.

(** X17 (transport error).  When the request in flight fails with an error
    other than an abort, the last message becomes [Error: <message>], marked
    as an error and no longer streaming, under its id and role; the error
    state holds the message, the controller is idle and not loading, and no
    message is added or removed. *)
Theorem transport_error_marks_reply (pass : Pass) (request : Request) (st : State)
    (ms : list Message) (m : Message) (err : Error) :
  phase st = Streaming pass request ->
  messages st = ms ++ [m] ->
  JS.name err <> "AbortError" ->
  exists st' m',
    step panelRegistry st (ResponseError err) = Some st'
    /\ messages st' = ms ++ [m']
    /\ content m' = Some ("Error: " +:+ message err)
    /\ isError m' = Some true /\ isStreaming m' = Some false
    /\ msg_id m' = msg_id m /\ role m' = role m
    /\ error st' = Some (message err)
    /\ isLoading st' = false /\ phase st' = Idle.
Proof.
  intros Hph Hm Hn. unfold step. rewrite Hph.
  eexists _, (merge m (errorUpdates err)). split; [reflexivity|].
  unfold streamChat_catch. rewrite bool_decide_eq_false_2 by done.
  destruct pass; cbn; rewrite Hm, updateLast_snoc; by repeat split.
Qed.

Lemma sendMessage_nonblank (snapshot : list Message) (text : string)
    (attachments : option (list Attachment)) (f : Fresh) (st : State) :
  ~ blank text \/ ~ noAttachments attachments ->
  sendMessage snapshot (Some text) attachments f st
  = (Return (),
     set_phase (Preparing snapshot text)
       (set_streamParserRef (StreamParser.reset (streamParserRef st))
          (set_streamingMessageRef (Some (createStreamingMessage (id2 f) (now f)))
             (addMessage (createStreamingMessage (id2 f) (now f))
                (addMessage
                   (createUserMessage (id1 f) (now f) text (Some (default [] attachments)))
                   (setIsLoading true (setError None st))))))).
Proof.
  intros H. unfold sendMessage.
  assert (E : negb (JS.truthy (Some (trim text)))
              && bool_decide (length (default [] attachments) = 0) = false).
  { destruct H as [H|H].
    - by rewrite (trim_not_blank _ H).
    - apply andb_false_iff. right. apply bool_decide_eq_false_2.
      intros Hl. apply H. unfold noAttachments. by apply nil_length_inv. }
  by rewrite E.
Qed.

(** X14 (a message that is sent).  When the content has a code unit that is
    not white space, or there is an attachment, [sendMessage] appends exactly
    the user message (with the content as given, untrimmed) and the streaming
    placeholder, sets the loading flag, clears the error, points
    [streamingMessageRef] at the placeholder, resets the parser, and leaves
    the tool cache alone. *)
Theorem sendMessage_starts_exchange (snapshot : list Message) (text : string)
    (attachments : option (list Attachment)) (f : Fresh) (st : State) :
  ~ blank text \/ ~ noAttachments attachments ->
  exists st',
    sendMessage snapshot (Some text) attachments f st = (Return (), st')
    /\ messages st'
       = messages st
         ++ [createUserMessage (id1 f) (now f) text (Some (default [] attachments));
             createStreamingMessage (id2 f) (now f)]
    /\ isLoading st' = true /\ error st' = None
    /\ streamingMessageRef st' = Some (createStreamingMessage (id2 f) (now f))
    /\ streamParserRef st' = StreamParser.new
    /\ phase st' = Preparing snapshot text
    /\ toolCache st' = toolCache st.
Proof.
  intros H. eexists. split; [by apply sendMessage_nonblank|].
  cbn. rewrite <- app_assoc. by repeat split.
Qed.

Lemma formatMessagesForAPI_roles (ms : list Message) :
  map api_role (formatMessagesForAPI ms) = map role ms.
Proof. unfold formatMessagesForAPI. rewrite map_map. done. Qed.

Lemma sendMessage_resume_request (snapshot : list Message) (text : string) (now : nat)
    (st : State) :
  let tools := concat (panelTools panelRegistry <$> getVisiblePanels (store st)) in
  sendMessage_resume panelRegistry snapshot text now st
  = set_phase
      (Streaming FirstPass
         (mkRequest
            ([systemMessage
                (generateSystemPrompt (buildContext panelRegistry now (panels (store st)))
                                      tools)]
             ++ formatMessagesForAPI (filter (fun m => role m ≠ "error") snapshot)
             ++ [userTurn text])
            (if decide (0 < length tools) then Some (formatToolsForAPI tools) else None)
            (model st) (provider st) (temperature st)))
      (set_toolCache (cacheTools tools) st).
Proof.
  cbn. unfold sendMessage_resume, sendMessage_request.
  rewrite collectTools_spec. done.
Qed.


(** X21 (what regeneration sends).  When the last user message has content
    that is not blank, regeneration shows the messages before it followed by
    a new copy of it and a placeholder; but the request it issues is built
    from the message list as it was before the cut: it still carries the
    last user message and the replies that were discarded, followed by the
    user's content once more. *)
Theorem regenerate_request_carries_discarded (pre : list Message) (m : Message)
    (post : list Message) (text : string) (f : Fresh) (now' : nat) (st : State) :
  phase st = Idle ->
  messages st = pre ++ m :: post ->
  role m = "user" -> Forall (fun x => role x <> "user") post ->
  content m = Some text -> ~ blank text ->
  exists st' request prompt,
    run panelRegistry st [Regenerate f; Prepared now'] = Some st'
    /\ messages st'
       = pre ++ [createUserMessage (id1 f) (now f) text (Some (default [] (attachments m)));
                 createStreamingMessage (id2 f) (now f)]
    /\ phase st' = Streaming FirstPass request
    /\ req_messages request
       = systemMessage prompt
         :: formatMessagesForAPI (filter (fun x => role x ≠ "error") (pre ++ m :: post))
         ++ [userTurn text].
Proof.
  intros Hph Hm Hr Hpost Hc Hb.
  rewrite run_cons. unfold step at 1. rewrite Hph, Hm.
  rewrite (regenerate_resends pre m post f st Hr Hpost), Hc.
  rewrite (sendMessage_nonblank _ _ _ _ _ (or_introl Hb)). cbn [snd mbind option_bind].
  unfold run. cbn [foldl mbind option_bind]. unfold step.
  cbn [phase set_phase]. rewrite sendMessage_resume_request.
  eexists _, _, _. split; [reflexivity|]. cbn.
  split; [by rewrite <- app_assoc|]. split; reflexivity.
Qed.

(** *** The tool round trip *)
Lemma parseToolCall_wellFormed (tcs : list StreamParser.ToolCall) :
  Forall (fun c => returns (JSON_parse (StreamParser.fn_arguments c))) tcs ->
  Forall DispatchSpec.wellFormed (map parseToolCall tcs).
Proof. intros H. apply Forall_fmap. eapply Forall_impl; [exact H|]. by intros c Hc. Qed.

Lemma toolMessages_answer (results : list CallResult) (calls : list StreamParser.ToolCall) :
  map toolCallId results = map StreamParser.call_id calls ->
  map call_name results = map StreamParser.fn_name calls ->
  Forall2 answers (map ofToolMessage (formatToolResultsAsMessages results)) calls.
Proof.
  revert calls. induction results as [|r results IH]; intros [|call calls] Hi Hn;
    try discriminate; [constructor|].
  cbn in Hi, Hn. injection Hi as Hi1 Hi. injection Hn as Hn1 Hn.
  cbn. constructor; [|by apply IH]. unfold answers. cbn. by rewrite Hi1, Hn1.
Qed.

(** X18 (tool round trip).  When no executor of the registry throws [null]
    or [undefined] and the first pass ends with tool calls whose argument
    texts all parse, the placeholder is finalised with these calls, a
    [tool_results] message with one result per call (same ids and names, same
    order) and a new streaming placeholder are appended, and a second request
    is in flight: the first request's messages, then the assistant message
    carrying the calls, then one message per call, in call order, of role
    [tool] under the call's id and name; it offers no tools.  The loading
    flag is set, the parser is reset and [streamingMessageRef] is empty. *)
Theorem tool_round_trip (st : State) (request : Request) (ms : list Message) (m : Message)
    (calls : list StreamParser.ToolCall) (f : Fresh) :
  noNullishRejection panelRegistry ->
  phase st = Streaming FirstPass request ->
  messages st = ms ++ [m] ->
  StreamParser.result_toolCalls (StreamParser.getResult (streamParserRef st)) = Some calls ->
  Forall (fun c => returns (JSON_parse (StreamParser.fn_arguments c))) calls ->
  exists st' results request' toolMessages,
    step panelRegistry st (ResponseDone f) = Some st'
    /\ messages st'
       = ms ++ [merge m (mkUpdates
                           (Some (Some (StreamParser.contentBuffer (streamParserRef st))))
                           (Some (Some calls)) (Some false) None);
                toolResultMessage f results;
                createStreamingMessage (id2 f) (now f)]
    /\ map toolCallId results = map StreamParser.call_id calls
    /\ map call_name results = map StreamParser.fn_name calls
    /\ phase st' = Streaming SecondPass request'
    /\ req_tools request' = None
    /\ req_messages request'
       = req_messages request
         ++ mkApiMessage "assistant" None None None (Some calls) :: toolMessages
    /\ Forall2 answers toolMessages calls
    /\ isLoading st' = true /\ streamingMessageRef st' = None
    /\ streamParserRef st' = StreamParser.new.
Proof.
  intros Hvalues Hph Hm Hres Hwf.
  assert (Hne : exists tc tcs, calls = tc :: tcs).
  { unfold StreamParser.getResult in Hres. cbn in Hres.
    destruct (decide _) as [Hl|]; [|done]. simplify_eq.
    destruct (StreamParser.Object_values _) as [|tc tcs]; [cbn in Hl; lia|by eexists _, _]. }
  destruct Hne as (tc & tcs & ->).
  destruct (DispatchFacts.processToolCallsFrom_wellFormed panelRegistry (toolCache st)
              (map parseToolCall (tc :: tcs)) (store st) [] Hvalues
              (parseToolCall_wellFormed _ Hwf)) as (results & Hr & Hi & Hn).
  rewrite !map_map in Hi, Hn.
  change (map (fun x => Orchestrator.call_id (parseToolCall x)) (tc :: tcs))
    with (map StreamParser.call_id (tc :: tcs)) in Hi.
  change (map (fun x => Orchestrator.fn_name (parseToolCall x)) (tc :: tcs))
    with (map StreamParser.fn_name (tc :: tcs)) in Hn.
  unfold step. rewrite Hph. unfold onDone_first. cbv zeta. rewrite Hres.
  unfold handleToolCalls_execute. cbv zeta.
  change (toolCache (updateLastMessage _ st)) with (toolCache st).
  change (store (updateLastMessage _ st)) with (store st).
  unfold processToolCalls.
  destruct (processToolCallsFrom _ _ _ _ _) as [o store'] eqn:E. cbn in Hr. subst o.
  cbn [fst snd].
  exists (handleToolCalls_continue (tc :: tcs) (req_messages request) results f
            (streamChat_returned FirstPass
               (set_store store'
                  (updateLastMessage
                     (mkUpdates
                        (Some (Some (StreamParser.result_content
                                       (StreamParser.getResult (streamParserRef st)))))
                        (Some (Some (tc :: tcs))) (Some false) None) st)))),
         results.
  eexists _, (map ofToolMessage (formatToolResultsAsMessages results)).
  split; [reflexivity|]. cbn [snd].
  split; [cbn; by rewrite Hm, updateLast_snoc, <- !app_assoc|].
  split; [exact Hi|]. split; [exact Hn|]. split; [reflexivity|]. split; [reflexivity|].
  split; [reflexivity|]. split; [by apply toolMessages_answer|]. by repeat split.
Qed.

Lemma alter_preserving {A B} (g : A -> B) (h : A -> A) (i : nat) (l : list A) :
  (forall x, g (h x) = g x) -> map g (alter h i l) = map g l.
Proof.
  intros H. revert i. induction l as [|x l IH]; intros [|i]; cbn; [done..| |].
  - by rewrite H.
  - by rewrite <- (IH i).
Qed.

Lemma updateLast_toolCalls (u : Updates) (ms : list Message) :
  u_toolCalls u = None -> map toolCalls (updateLast u ms) = map toolCalls ms.
Proof.
  intros H. unfold updateLast. destruct (length ms); [done|].
  apply alter_preserving. intros x. unfold merge. cbn. by rewrite H.
Qed.

(** X19 (no third pass).  While the second request is in flight, nothing the
    transport delivers changes the tool calls of any message, the number of
    messages or the tool cache, and the controller stays in the second pass
    or becomes idle: tool calls in the second response are neither shown nor
    executed. *)
Theorem second_pass_ignores_tool_calls (st st' : State) (request : Request) (ev : Event) :
  phase st = Streaming SecondPass request ->
  delivery ev ->
  step panelRegistry st ev = Some st' ->
  map toolCalls (messages st') = map toolCalls (messages st)
  /\ length (messages st') = length (messages st)
  /\ (phase st' = phase st \/ phase st' = Idle)
  /\ toolCache st' = toolCache st.
Proof.
  intros Hph Hd Hstep. unfold step in Hstep. rewrite Hph in Hstep.
  destruct ev as [| | | | | | | |chunk|f|err]; try done; simplify_eq.
  - unfold onChunk.
    destruct (StreamParser.processChunk (streamParserRef st) chunk) as [[r|e] p]; cbn;
      [|by repeat split; auto].
    destruct (StreamParser.acc_content r); cbn; [|by repeat split; auto].
    rewrite updateLast_toolCalls by done.
    repeat split; auto. unfold updateLast. destruct (length (messages st)) eqn:E; [done|].
    by rewrite length_alter.
  - cbn. rewrite updateLast_toolCalls by done. repeat split; auto.
    unfold updateLast. destruct (length (messages st)) eqn:E; [done|].
    by rewrite length_alter.
  - unfold streamChat_catch, onError. case_match; cbn; [by repeat split; auto|].
    rewrite updateLast_toolCalls by done. repeat split; auto.
    unfold updateLast. destruct (length (messages st)) eqn:E; [done|].
    by rewrite length_alter.
Qed.

(** *** The loading flag and the streaming ref *)
Lemma streamChat_catch_abort (st : State) : streamChat_catch AbortError st = st.
Proof. reflexivity. Qed.

Lemma sendMessage_cases snapshot content attachments f st :
  (sendMessage snapshot content attachments f st).2 = st
  \/ exists text st',
      (sendMessage snapshot content attachments f st).2 = st'
      /\ phase st' = Preparing snapshot text /\ is_Some (streamingMessageRef st').
Proof.
  unfold sendMessage. destruct content as [text|]; [|by left].
  case_match; [by left|]. right. by eexists _, _.
Qed.

Lemma tracked_step (st st' : State) (ev : Event) :
  step panelRegistry st ev = Some st' ->
  (phase st = Idle -> isLoading st = false)
  /\ (is_Some (streamingMessageRef st) <-> firstPassPending st) ->
  (phase st' = Idle -> isLoading st' = false)
  /\ (is_Some (streamingMessageRef st') <-> firstPassPending st').
Proof.
  intros Hstep [Hload Href]. unfold firstPassPending in *. unfold step in Hstep.
  destruct ev as [content attachments f|f| | |p m t|message|updates|now|chunk|f|err];
    destruct (phase st) as [|snapshot text|pass req] eqn:Hst;
    try destruct pass; simplify_eq.
  all: try (cbn; rewrite Hst; by split).
  - destruct (sendMessage_cases (messages st) content attachments f st)
      as [->|(text & st' & -> & Hp & Hr)]; [by rewrite Hst|].
    rewrite Hp. by split.
  - unfold regenerateLastResponse.
    destruct (findLastUser _) as [i|]; [|cbn; by rewrite Hst].
    destruct (_ !! i) as [m|]; [|cbn; by rewrite Hst].
    destruct (sendMessage_cases (messages st) (content m) (attachments m) f
                (setMessages (take i (messages st)) st))
      as [->|(text & st' & -> & Hp & Hr)]; [cbn; by rewrite Hst|].
    rewrite Hp. by split.
  - destruct (stopGeneration_frame st) as [-> ->]. rewrite Hst. split; [|done].
    intros _. unfold stopGeneration. by case_match.
  - destruct (stopGeneration_frame st) as [-> ->]. rewrite Hst. split; [done|done].
  - unfold aborted. cbn. split; [done|]. split; [apply is_Some_None|done].
  - unfold aborted. rewrite streamChat_catch_abort. cbn. split; [done|].
    destruct (stopGeneration_frame st) as [_ ->]. by rewrite Href.
  - destruct (setModelConfig_frame p m t st) as [-> ->]. rewrite Hst. split; [|done].
    intros _. unfold setModelConfig. destruct p, m, t; cbn; by apply Hload.
  - destruct (setModelConfig_frame p m t st) as [-> ->]. by rewrite Hst.
  - destruct (setModelConfig_frame p m t st) as [-> ->]. by rewrite Hst.
  - destruct (setModelConfig_frame p m t st) as [-> ->]. by rewrite Hst.
  - rewrite sendMessage_resume_request. cbn. split; [done|]. by rewrite Href.
  - destruct (onChunk_frame FirstPass chunk st) as [-> ->]. by rewrite Hst.
  - destruct (onChunk_frame SecondPass chunk st) as [-> ->]. by rewrite Hst.
  - unfold onDone_first.
    destruct (StreamParser.result_toolCalls _) as [[|tc tcs]|];
      try (cbn; split; [done|]; split; [apply is_Some_None|done]).
    destruct (handleToolCalls_execute panelRegistry (tc :: tcs) _).1; cbn;
      (split; [done|]; split; [apply is_Some_None|done]).
  - cbn. split; [done|]. by rewrite Href.
  - unfold streamChat_catch. case_match; cbn; (split; [done|]);
      (split; [apply is_Some_None|done]).
  - unfold streamChat_catch. case_match; cbn; (split; [done|]); by rewrite Href.
Qed.

(** X20 (loading flag and streaming ref).  Take a mounted controller (idle,
    not loading, no streaming message, whatever conversation it restores) and
    a run in which a message is sent or regenerated only while no call is
    pending, as the runs of [run] are.  In every state of such a run an idle
    controller is not loading, and [streamingMessageRef] is set exactly while
    [sendMessage] is between its first state change and its [finally].
    Overlapping [sendMessage] calls, which the hook does not refuse, are not
    covered and the statement does not hold of them. *)
Theorem ref_set_while_first_pass_pending (st0 : State) (evs : list Event) (st : State) :
  mounted st0 ->
  run panelRegistry st0 evs = Some st ->
  (phase st = Idle -> isLoading st = false)
  /\ (is_Some (streamingMessageRef st) <-> firstPassPending st).
Proof.
  intros (Hph & Hl & Hr). revert st.
  induction evs as [|ev evs IH] using rev_ind; intros st Hrun.
  - cbn in Hrun. simplify_eq. split; [done|]. unfold firstPassPending.
    rewrite Hph, Hr. split; [apply is_Some_None|done].
  - rewrite run_snoc in Hrun.
    destruct (run panelRegistry st0 evs) as [st1|]; [|done].
    cbn in Hrun. eapply tracked_step; [exact Hrun|by apply IH].
Qed.

End WithEnvironment.

End ControllerFacts.

(** ** Message helpers *)

Module MessageUtilsFacts.
Import JS Json Messages MessageUtils MessageUtilsSpec.
Import StreamParserFacts OrchestratorFacts.

Lemma length_append (s t : string) :
  String.length (s +:+ t) = String.length s + String.length t.
Proof. induction s as [|c s IH]; [done|]. rewrite append_cons. cbn. by rewrite IH. Qed.

(** X22 (preview).  For a string and a limit [n] (100 when left out),
    [truncateContent] returns the string itself when it has at most [n] code
    units, and otherwise its first [n] code units followed by three dots: the
    result never has more than [n + 3] code units. *)
Theorem truncateContent_preview (text : string) (maxLength : option nat) :
  let n := default 100 maxLength in
  exists preview,
    truncateContent (Some text) maxLength = Some preview
    /\ String.length preview <= n + 3
    /\ (String.length text <= n -> preview = text)
    /\ (n < String.length text ->
        exists kept rest,
          preview = kept +:+ "..." /\ text = kept +:+ rest /\ String.length kept = n).
Proof.
  intros n. unfold truncateContent. cbv zeta. fold n.
  destruct (negb (JS.truthy (Some text)) || (String.length text <=? n)) eqn:E.
  - exists text. split; [done|].
    apply orb_true_iff in E as [E|E].
    + apply negb_true_iff, truthy_false_empty in E. subst. cbn.
      split; [lia|]. split; [done|]. lia.
    + apply Nat.leb_le in E. split; [lia|]. split; [done|]. lia.
  - apply orb_false_iff in E as [_ E]. apply Nat.leb_gt in E.
    exists (String.substring 0 n text +:+ "..."). split; [done|].
    pose proof (slice0_length n text) as Hl. unfold Orchestrator.slice0 in Hl.
    split; [rewrite length_append, Hl; cbn; lia|]. split; [lia|]. intros _.
    destruct (slice0_prefix n text) as [rest Hr]. unfold Orchestrator.slice0 in Hr.
    exists (String.substring 0 n text), rest. split; [done|]. split; [done|].
    rewrite Hl. lia.
Qed.

Lemma total_from (total : nat) (ms : list Message) :
  foldl (fun total msg => total + estimateTokens (content msg)) total ms
  = total + calculateTotalTokens ms.
Proof.
  unfold calculateTotalTokens. revert total.
  induction ms as [|m ms IH]; intros total; cbn; [lia|].
  rewrite IH, (IH (estimateTokens _)). lia.
Qed.

Lemma total_cons (m : Message) (ms : list Message) :
  calculateTotalTokens (m :: ms) = estimateTokens (content m) + calculateTotalTokens ms.
Proof. unfold calculateTotalTokens at 1. cbn. by rewrite total_from. Qed.

Lemma total_app (ms1 ms2 : list Message) :
  calculateTotalTokens (ms1 ++ ms2) = calculateTotalTokens ms1 + calculateTotalTokens ms2.
Proof.
  induction ms1 as [|m ms1 IH]; [done|]. cbn [app]. rewrite !total_cons, IH. lia.
Qed.

(** X23 (token estimate).  [calculateTotalTokens] is additive over
    concatenation of message lists, and [estimateTokens] rounds up a quarter
    of the length: four times the estimate is at least the length and less
    than the length plus four; absent content counts as zero. *)
Theorem token_estimate_bounds (ms1 ms2 : list Message) (text : string) :
  calculateTotalTokens (ms1 ++ ms2) = calculateTotalTokens ms1 + calculateTotalTokens ms2
  /\ String.length text <= 4 * estimateTokens (Some text)
  /\ 4 * estimateTokens (Some text) < String.length text + 4
  /\ estimateTokens None = 0.
Proof.
  split; [apply total_app|]. unfold estimateTokens.
  destruct (negb (JS.truthy (Some text))) eqn:E.
  - apply negb_true_iff, truthy_false_empty in E. subst. cbn. lia.
  - pose proof (Nat.div_mod_eq (String.length text + 3) 4) as Hd.
    pose proof (Nat.mod_upper_bound (String.length text + 3) 4) as Hm. lia.
Qed.

Lemma takeFitting_spec (maxTokens : nat) (recent result : list Message) :
  exists taken rest,
    recent = taken ++ rest
    /\ takeFitting maxTokens (calculateTotalTokens result) recent result
       = rev taken ++ result
    /\ (taken <> [] -> calculateTotalTokens (rev taken ++ result) <= maxTokens)
    /\ (forall m rest', rest = m :: rest' ->
                        maxTokens < calculateTotalTokens (m :: rev taken ++ result)).
Proof.
  revert result. induction recent as [|m recent IH]; intros result.
  - exists [], []. repeat split; try done.
  - cbn [takeFitting].
    destruct (calculateTotalTokens result + estimateTokens (content m) <=? maxTokens) eqn:E.
    + apply Nat.leb_le in E.
      destruct (IH (m :: result)) as (taken & rest & -> & Ht & Hfit & Hmax).
      rewrite total_cons in Ht.
      rewrite (Nat.add_comm (calculateTotalTokens result)), Ht.
      exists (m :: taken), rest.
      assert (Hrev : rev (m :: taken) ++ result = rev taken ++ m :: result)
        by (cbn [rev]; by rewrite <- app_assoc).
      rewrite Hrev. split; [done|]. split; [done|]. split; [|exact Hmax].
      intros _. destruct taken as [|x taken]; [|by apply Hfit].
      cbn [rev app]. rewrite total_cons. lia.
    + apply Nat.leb_gt in E. exists [], (m :: recent). repeat split; try done.
      intros m' rest' [= <- <-]. cbn [rev app]. rewrite total_cons. lia.
Qed.

(** X24 (trimming).  [trimMessagesToFit] returns a suffix of the non-system
    messages, in their order, followed by the first system message if there
    is one (the system message comes last).  When any non-system message is
    kept the total estimate of the result is within the budget, and the
    message just before the kept ones, if any, would exceed it. *)
Theorem trimMessagesToFit_keeps_most_recent (messages : list Message) (maxTokens : nat) :
  exists dropped kept,
    nonSystem messages = dropped ++ kept
    /\ trimMessagesToFit messages maxTokens = kept ++ keptSystem messages
    /\ (kept <> [] -> calculateTotalTokens (kept ++ keptSystem messages) <= maxTokens)
    /\ (forall older m, dropped = older ++ [m] ->
                        maxTokens < calculateTotalTokens (m :: kept ++ keptSystem messages)).
Proof.
  unfold trimMessagesToFit, nonSystem, keptSystem.
  set (others := filter (fun m => role m <> "system") messages).
  set (system := List.find _ messages).
  destruct (takeFitting_spec maxTokens (rev others) (option_list system))
    as (taken & rest & Hsplit & Ht & Hfit & Hmax).
  assert (Ho : others = rev rest ++ rev taken).
  { rewrite <- (rev_involutive others), Hsplit. apply rev_app_distr. }
  exists (rev rest), (rev taken). split; [exact Ho|]. split.
  - rewrite <- Ht. destruct system as [sm|]; [|done].
    change (option_list (Some sm)) with [sm].
    rewrite total_cons. change (calculateTotalTokens []) with 0.
    by rewrite Nat.add_0_r.
  - split.
    + intros Hne. apply Hfit. intros ->. done.
    + intros older m Hd. destruct rest as [|x rest'].
      * by destruct older.
      * cbn [rev] in Hd. apply app_inj_tail in Hd as [_ <-]. by eapply Hmax.
Qed.

End MessageUtilsFacts.

(** ** The studio store *)

Module StudioFacts.
Import JS Json Panels Orchestrator OrchestratorSpec Studio.
Import OrchestratorFacts.

Lemma findIndex_Some (i : string) (ps : list PanelInstance) (k : nat) :
  findIndex i ps = Some k -> exists p, ps !! k = Some p /\ id p = i.
Proof.
  revert k. induction ps as [|p ps IH]; intros k; cbn; [done|].
  case_bool_decide as Hp.
  - intros [= <-]. by exists p.
  - destruct (findIndex i ps) as [j|]; [|done]. intros [= <-]. by apply IH.
Qed.

Lemma unorder_imap (l : list PanelInstance) :
  map (set_order 0) (imap (fun i p => set_order i p) l) = map (set_order 0) l.
Proof.
  apply list_eq. intros i. rewrite !list_lookup_fmap, list_lookup_imap.
  by destruct (l !! i).
Qed.

Lemma order_imap (l : list PanelInstance) :
  map order (imap (fun i p => set_order i p) l) = seq 0 (length l).
Proof.
  apply list_eq. intros i. rewrite list_lookup_fmap, list_lookup_imap.
  destruct (l !! i) as [p|] eqn:E; cbn.
  - symmetry. apply lookup_seq. split; [done|]. by eapply lookup_lt_Some.
  - symmetry. apply lookup_seq_ge. by apply lookup_ge_None.
Qed.

Lemma spliceIn_Permutation {A} (k : nat) (x : A) (l : list A) : spliceIn k x l ≡ₚ x :: l.
Proof.
  unfold spliceIn. rewrite <- Permutation_middle. by rewrite take_drop.
Qed.

Lemma spliceIn_lookup {A} (k : nat) (x : A) (l : list A) :
  k <= length l -> spliceIn k x l !! k = Some x.
Proof.
  intros H. unfold spliceIn.
  rewrite lookup_app_r by (rewrite length_take; lia).
  rewrite length_take. by replace (k - k `min` length l) with 0 by lia.
Qed.

(** X25 (reordering).  When both ids are found, [reorderPanels] returns the
    same panels up to their [order] field, in an order where the source panel
    stands at the index the target had, and renumbers [order] from 0; the
    fullscreen and focus ids are kept.  When an id is not found the store is
    returned as it was. *)
Theorem reorderPanels_moves_source (sourceId targetId : string) (s : Shell) :
  let ps := panels (shellStore s) in
  let s' := reorderPanels sourceId targetId s in
  match findIndex sourceId ps, findIndex targetId ps with
  | Some _, Some targetIndex =>
      map (set_order 0) (panels (shellStore s')) ≡ₚ map (set_order 0) ps
      /\ map order (panels (shellStore s')) = seq 0 (length ps)
      /\ (exists p, panels (shellStore s') !! targetIndex = Some p /\ id p = sourceId)
      /\ activeFullscreenId s' = activeFullscreenId s
      /\ focusedPanelId s' = focusedPanelId s
  | _, _ => s' = s
  end.
Proof.
  cbn. unfold reorderPanels.
  destruct (findIndex sourceId _) as [sourceIndex|] eqn:Hs; [|done].
  destruct (findIndex targetId _) as [targetIndex|] eqn:Ht; [|done].
  destruct (findIndex_Some _ _ _ Hs) as (removed & Hr & Hid).
  destruct (findIndex_Some _ _ _ Ht) as (target & Htg & _).
  rewrite Hr. cbn.
  assert (Hlen : length (delete sourceIndex (panels (shellStore s)))
                 = length (panels (shellStore s)) - 1)
    by (apply length_delete; by eexists).
  apply lookup_lt_Some in Htg.
  assert (Hperm : spliceIn targetIndex removed (delete sourceIndex (panels (shellStore s)))
                  ≡ₚ panels (shellStore s)).
  { rewrite spliceIn_Permutation. symmetry. by apply delete_Permutation. }
  split; [by rewrite unorder_imap, Hperm|].
  split; [by rewrite order_imap, Hperm|].
  split; [|done].
  exists (set_order targetIndex removed). split; [|done].
  rewrite list_lookup_imap, spliceIn_lookup by lia. done.
Qed.

Lemma find_filter_ne (i j : string) (ps : list PanelInstance) :
  j <> i ->
  List.find (fun p => bool_decide (id p = j)) (filter (fun p => id p <> i) ps)
  = List.find (fun p => bool_decide (id p = j)) ps.
Proof.
  intros Hne. induction ps as [|p ps IH]; [done|].
  rewrite filter_cons. destruct (decide (id p <> i)) as [Hp|Hp]; cbn.
  - by rewrite IH.
  - rewrite IH. apply dec_stable in Hp. by rewrite bool_decide_eq_false_2 by congruence.
Qed.

Lemma find_filter_eq (i : string) (ps : list PanelInstance) :
  List.find (fun p => bool_decide (id p = i)) (filter (fun p => id p <> i) ps) = None.
Proof.
  induction ps as [|p ps IH]; [done|].
  rewrite filter_cons. destruct (decide (id p <> i)) as [Hp|Hp]; cbn; [|done].
  by rewrite bool_decide_eq_false_2.
Qed.

(** X26 (removal).  When the panel found under the id is of type [chat],
    [removePanel] leaves the store as it was.  When no panel is found under
    the id, or the one found is of another type, no panel is found under the
    id afterwards, lookups of other ids are unchanged, the remaining panels
    keep their order, neither the fullscreen nor the focus id points at the
    removed id, and the list of observed ids is left as it was. *)
Theorem removePanel_spares_chat (i : string) (s : Shell) :
  let s' := removePanel i s in
  (forall p, getPanelById i (shellStore s) = Some p -> panelTypeId p = "chat" -> s' = s)
  /\ ((forall p, getPanelById i (shellStore s) = Some p -> panelTypeId p <> "chat") ->
      getPanelById i (shellStore s') = None
      /\ (forall j, j <> i ->
                    getPanelById j (shellStore s') = getPanelById j (shellStore s))
      /\ panels (shellStore s') `sublist_of` panels (shellStore s)
      /\ activeFullscreenId s' <> Some i /\ focusedPanelId s' <> Some i
      /\ aiObservingPanels s' = aiObservingPanels s).
Proof.
  cbn. unfold removePanel, getPanelById. split.
  - intros p Hp Hc. rewrite Hp. by rewrite bool_decide_eq_true_2.
  - intros Hother.
    assert (Hguard : (if List.find (fun p => bool_decide (id p = i)) (panels (shellStore s))
                      is Some panel then bool_decide (panelTypeId panel = "chat")
                      else false) = false).
    { destruct (List.find _ _) as [panel|]; [|done].
      apply bool_decide_eq_false_2. by apply Hother. }
    rewrite Hguard. cbn. split; [apply find_filter_eq|].
    split; [intros j Hj; by apply find_filter_ne|].
    split; [apply sublist_filter|]. unfold pointsAt.
    repeat split; try done; by case_bool_decide.
Qed.

Section WithRegistry.
Context {builtins : Builtins}.
Variable panelRegistry : Registry.

Lemma panelTools_panelId (panel : PanelInstance) (t : AggregatedTool) :
  t ∈ panelTools panelRegistry panel -> _panelId t = id panel.
Proof.
  unfold panelTools.
  destruct (getPanelDefinition _ _ ≫= getMCPTools) as [listTools|];
    [|by intros ?%not_elem_of_nil].
  destruct (listTools _) as [tools|e]; [|by intros ?%not_elem_of_nil].
  intros (tool & -> & _)%list_elem_of_fmap. done.
Qed.

Lemma filter_partition (ps : list PanelInstance) :
  filter (fun p => mode p ≠ hidden) ps ++ filter (fun p => mode p = hidden) ps ≡ₚ ps.
Proof.
  induction ps as [|p ps IH]; [done|]. rewrite !filter_cons.
  destruct (decide (mode p = hidden)) as [Hm|Hm].
  - rewrite decide_False by (by intros ?). rewrite <- Permutation_middle. by rewrite IH.
  - rewrite decide_True by done. cbn. by rewrite IH.
Qed.

(** X27 (hidden panels).  The visible and the hidden panels partition the
    panels.  After a panel has been set to [hidden], it is not among the
    visible panels, [collectTools] over the visible panels returns no tool
    routed to it, and the tool cache has no entry routed to it, whatever the
    cache held before. *)
Theorem hidden_panel_offers_no_tool (toolCache : ToolCache) (i : string) (s : Shell) :
  let store' := shellStore (updatePanelMode i hidden s) in
  let collected := collectTools panelRegistry toolCache (getVisiblePanels store') in
  getVisiblePanels store' ++ getHiddenPanels store' ≡ₚ panels store'
  /\ Forall (fun p => id p <> i) (getVisiblePanels store')
  /\ (exists tools, collected.1 = Return tools /\ Forall (fun t => _panelId t <> i) tools)
  /\ (forall n t, collected.2 !! n = Some t -> _panelId t <> i).
Proof.
  intros store' collected. unfold collected. rewrite collectTools_spec. cbn [fst snd].
  set (visible := getVisiblePanels store').
  assert (Hv : Forall (fun p => id p <> i) visible).
  { apply Forall_forall. intros p Hp.
    unfold visible, getVisiblePanels, store' in Hp. cbn in Hp.
    apply list_elem_of_filter in Hp as [Hm Hin].
    apply list_elem_of_fmap in Hin as (q & -> & _).
    case_bool_decide; [done|]. done. }
  assert (Ht : Forall (fun t => _panelId t <> i)
                      (concat (panelTools panelRegistry <$> visible))).
  { apply Forall_concat, Forall_fmap. eapply Forall_impl; [exact Hv|].
    intros p Hp. apply Forall_forall. intros t Hin.
    by rewrite (panelTools_panelId p t Hin). }
  split; [apply filter_partition|]. split; [exact Hv|]. split; [by eexists|].
  intros n t Hc. apply DispatchFacts.cacheTools_elem_of in Hc as [Hin _].
  rewrite Forall_forall in Ht. by apply Ht.
Qed.

(** X28 (observation switched off).  After [setAIObserving(id, false)] the
    context [buildContext] returns has no entry for that id, the id is not in
    the list of observed ids, and the panels are the same ids in the same
    order. *)
Theorem unobserved_panel_leaves_context (now : nat) (i : string) (s : Shell) :
  let s' := setAIObserving i false s in
  Forall (fun o => panelId o <> i)
         (observedPanels (buildContext panelRegistry now (panels (shellStore s'))))
  /\ (i ∉ aiObservingPanels s')
  /\ map id (panels (shellStore s')) = map id (panels (shellStore s)).
Proof.
  cbn. split; [|split].
  - apply Forall_forall. intros o Ho. apply list_elem_of_omap in Ho as (p & Hp & Ho).
    apply list_elem_of_filter in Hp as [Hobs Hin].
    apply DispatchFacts.contextOf_fields in Ho as (-> & _).
    apply list_elem_of_fmap in Hin as (q & -> & _).
    case_bool_decide; [done|done].
  - intros Hin. by apply list_elem_of_filter in Hin as [? _].
  - rewrite map_map. apply map_ext. intros p. by case_bool_decide.
Qed.

(** X13 (capability defaults).  For a panel whose type was registered through
    [createPanelDefinition]: without [getMCPTools] the panel contributes no
    tool; without [getLLMContext] its context is of type [empty] and is
    rendered as [- Empty or minimal content]; without [executeMCPTool] a tool
    routed to the panel fails with [Tool not implemented], as a result and not
    as an exception, and the store is unchanged. *)
Theorem default_capabilities (definition : PanelDefinition) (panel : PanelInstance)
    (toolCache : ToolCache) (store : Store) (toolName : string) (args : json)
    (tool : AggregatedTool) :
  panelRegistry !! panelTypeId panel = Some (createPanelDefinition definition) ->
  (getMCPTools definition = None -> panelTools panelRegistry panel = [])
  /\ (getLLMContext definition = None ->
      contextOf panelRegistry panel
      = Some (mkObserved (id panel) (panelTypeId panel) (title panel)
                         (Some (mkContext (Some "empty") None)))
      /\ renderPanel (mkObserved (id panel) (panelTypeId panel) (title panel)
                                 (Some (mkContext (Some "empty") None)))
         = [heading (mkObserved (id panel) (panelTypeId panel) (title panel)
                                (Some (mkContext (Some "empty") None)));
            "- Empty or minimal content"; ""])
  /\ (executeMCPTool definition = None ->
      toolCache !! toolName = Some tool ->
      _panelTypeId tool = panelTypeId panel ->
      List.find (fun p => bool_decide (id p = _panelId tool)) (panels store) = Some panel ->
      executeTool panelRegistry toolCache store toolName args
      = (Return (failure "Tool not implemented" (Some toolName)), store)).
Proof.
  intros Hreg. split; [|split].
  - intros Hd. unfold panelTools, getPanelDefinition. rewrite Hreg. cbn. by rewrite Hd.
  - intros Hd. split; [|done].
    unfold contextOf, getPanelDefinition. rewrite Hreg. cbn. by rewrite Hd.
  - intros Hd Hc Hty Hfind. unfold executeTool, getPanelDefinition.
    rewrite Hc, Hty, Hreg. cbn. rewrite Hfind, Hd. done.
Qed.

End WithRegistry.

Lemma set_state_state (p : PanelInstance) : set_state (state p) p = p.
Proof. by destruct p. Qed.

(** X29 (state updates).  Two updates of one panel equal one update with the
    merged object, where keys of the later update win; repeating an update
    changes nothing; the empty update changes nothing; an update keeps the
    panels' ids and order; and afterwards every key of the update holds the
    update's value in each panel of that id. *)
Theorem updatePanelState_merges (i : string) (first second : PanelState) (s : Store) :
  updatePanelState i second (updatePanelState i first s)
  = updatePanelState i (second ∪ first) s
  /\ updatePanelState i first (updatePanelState i first s) = updatePanelState i first s
  /\ updatePanelState i ∅ s = s
  /\ map id (panels (updatePanelState i first s)) = map id (panels s)
  /\ (forall p, p ∈ panels (updatePanelState i first s) -> id p = i ->
                forall k v, first !! k = Some v -> state p !! k = Some v).
Proof.
  assert (Hcomp : forall a b, updatePanelState i b (updatePanelState i a s)
                              = updatePanelState i (b ∪ a) s).
  { intros a b. unfold updatePanelState. cbn. f_equal. rewrite map_map. apply map_ext.
    intros p. destruct (decide (id p = i)) as [Hp|Hp].
    - rewrite !(bool_decide_eq_true_2 (id p = i)) by done. cbn.
      rewrite ?bool_decide_eq_true_2 by done. unfold set_state. cbn. f_equal.
      by rewrite (assoc_L (∪)).
    - rewrite !(bool_decide_eq_false_2 (id p = i)) by done.
      by rewrite ?bool_decide_eq_false_2. }
  split; [apply Hcomp|]. split; [by rewrite Hcomp, (idemp_L (∪))|]. split; [|split].
  - destruct s as [ps]. unfold updatePanelState. cbn. f_equal.
    rewrite <- (map_id ps) at 2. apply map_ext. intros p.
    case_bool_decide; [|done]. by rewrite (left_id_L ∅ (∪)), set_state_state.
  - unfold updatePanelState. cbn. rewrite map_map. apply map_ext. intros p.
    by case_bool_decide.
  - intros p Hin Hid k v Hk. unfold updatePanelState in Hin. cbn in Hin.
    apply list_elem_of_fmap in Hin as (q & -> & _).
    case_bool_decide as Hq; cbn in *; [|done].
    by apply lookup_union_Some_l.
Qed.

End StudioFacts.

(** ** One exchange on the small studio *)

Module WalkthroughFacts.
Import JS Json Panels Orchestrator Messages Client Chat Examples.
Import StreamSpec OrchestratorSpec ChatSpec DispatchSpec ControllerSpec Walkthrough.

Lemma panelRegistry_values : noNullishRejection panelRegistry.
Proof.
  intros typeId definition execute toolName args state Hreg Hex.
  unfold panelRegistry in Hreg.
  apply lookup_insert_Some in Hreg as [[_ <-]|[_ Hreg]].
  - cbn in Hex. injection Hex as <-. unfold workspaceExecute.
    destruct (String.eqb toolName "list_files"); [discriminate|].
    destruct (String.eqb toolName "select_file"); discriminate.
  - apply lookup_insert_Some in Hreg as [[_ <-]|[_ Hreg]]; [discriminate|].
    by rewrite lookup_empty in Hreg.
Qed.

Lemma processToolCalls_one_result_per_call_witness :
  noNullishRejection panelRegistry
  /\ Forall (wellFormed (builtins := reference))
    [mkCall "call_1" "function" "workspace_list_files" (ArgText "{}") None;
     mkCall "call_2" "function" "unknown_tool" (ArgValue (JObject [])) None]
  /\ exists results,
      (processToolCalls (builtins := reference) panelRegistry
         (cacheTools [listFilesTool]) studio
         [mkCall "call_1" "function" "workspace_list_files" (ArgText "{}") None;
          mkCall "call_2" "function" "unknown_tool" (ArgValue (JObject [])) None]).1
      = Return results
      /\ map toolCallId results = ["call_1"; "call_2"].
Proof.
  assert (H : Forall (wellFormed (builtins := reference))
    [mkCall "call_1" "function" "workspace_list_files" (ArgText "{}") None;
     mkCall "call_2" "function" "unknown_tool" (ArgValue (JObject [])) None]).
  { repeat constructor; eexists; vm_compute; reflexivity. }
  split; [exact panelRegistry_values|]. split; [exact H|].
  destruct (DispatchFacts.processToolCalls_one_result_per_call (builtins := reference)
              panelRegistry (cacheTools [listFilesTool]) studio _ panelRegistry_values H)
    as (results & Hr & Hi & _).
  exists results. split; [exact Hr|exact Hi].
Defined.

Lemma content_reply_completes_witness :
  phase helloStreaming = Streaming FirstPass (requestOf helloStreaming)
  /\ messages helloStreaming
     = [createUserMessage "msg-1" 1 "Hello" (Some [])] ++ [createStreamingMessage "msg-2" 1]
  /\ StreamParser.toolCallsBuffer (streamParserRef helloStreaming) = ∅
  /\ Forall contentOnly [contentChunk "Hi"; contentChunk ""; contentChunk " there"]
  /\ exists st',
      run (builtins := reference) panelRegistry helloStreaming
          (map ResponseChunk [contentChunk "Hi"; contentChunk ""; contentChunk " there"]
           ++ [ResponseDone fresh2]) = Some st'
      /\ messages st'
         = [createUserMessage "msg-1" 1 "Hello" (Some [])]
           ++ [merge (createStreamingMessage "msg-2" 1) (doneUpdates FirstPass "Hi there")]
      /\ phase st' = Idle /\ isLoading st' = false.
Proof.
  assert (H1 : phase helloStreaming = Streaming FirstPass (requestOf helloStreaming))
    by (vm_compute; reflexivity).
  assert (H2 : messages helloStreaming
               = [createUserMessage "msg-1" 1 "Hello" (Some [])]
                 ++ [createStreamingMessage "msg-2" 1]) by (vm_compute; reflexivity).
  assert (H3 : StreamParser.toolCallsBuffer (streamParserRef helloStreaming) = ∅)
    by (vm_compute; reflexivity).
  assert (H4 : Forall contentOnly [contentChunk "Hi"; contentChunk ""; contentChunk " there"])
    by (repeat constructor).
  split; [exact H1|]. split; [exact H2|]. split; [exact H3|]. split; [exact H4|].
  destruct (ControllerFacts.content_reply_completes (builtins := reference) panelRegistry
              FirstPass _ helloStreaming _ _ _ fresh2 H1 H2 H3 H4)
    as (st' & Hrun & Hm & Hph & Hl & _).
  exists st'. split; [exact Hrun|]. split; [exact Hm|]. split; [exact Hph|exact Hl].
Defined.

Lemma transport_error_marks_reply_witness :
  phase helloStreaming = Streaming FirstPass (requestOf helloStreaming)
  /\ messages helloStreaming
     = [createUserMessage "msg-1" 1 "Hello" (Some [])] ++ [createStreamingMessage "msg-2" 1]
  /\ JS.name (mkError "Error" "Request failed: Bad Gateway") <> "AbortError"
  /\ exists st' m',
      step (builtins := reference) panelRegistry helloStreaming
           (ResponseError (mkError "Error" "Request failed: Bad Gateway")) = Some st'
      /\ messages st' = [createUserMessage "msg-1" 1 "Hello" (Some [])] ++ [m']
      /\ content m' = Some "Error: Request failed: Bad Gateway"
      /\ isError m' = Some true /\ isStreaming m' = Some false
      /\ error st' = Some "Request failed: Bad Gateway"
      /\ isLoading st' = false /\ phase st' = Idle.
Proof.
  assert (H1 : phase helloStreaming = Streaming FirstPass (requestOf helloStreaming))
    by (vm_compute; reflexivity).
  assert (H2 : messages helloStreaming
               = [createUserMessage "msg-1" 1 "Hello" (Some [])]
                 ++ [createStreamingMessage "msg-2" 1]) by (vm_compute; reflexivity).
  assert (H3 : JS.name (mkError "Error" "Request failed: Bad Gateway") <> "AbortError")
    by discriminate.
  split; [exact H1|]. split; [exact H2|]. split; [exact H3|].
  destruct (ControllerFacts.transport_error_marks_reply (builtins := reference) panelRegistry
              FirstPass _ helloStreaming _ _ _ H1 H2 H3)
    as (st' & m' & Hs & Hm & Hc & He & Hst & _ & _ & Her & Hl & Hph).
  exists st', m'. repeat split; assumption.
Defined.

Lemma sendMessage_starts_exchange_witness :
  (~ blank "Hello" \/ ~ noAttachments None)
  /\ exists st',
      sendMessage [] (Some "Hello") None fresh1 (initial studio) = (Return (), st')
      /\ messages st'
         = [createUserMessage "msg-1" 1 "Hello" (Some []); createStreamingMessage "msg-2" 1]
      /\ isLoading st' = true /\ phase st' = Preparing [] "Hello".
Proof.
  assert (H : ~ blank "Hello" \/ ~ noAttachments None).
  { left. intros Hb. inversion Hb as [|c l Hc _]. vm_compute in Hc. discriminate. }
  split; [exact H|].
  destruct (ControllerFacts.sendMessage_starts_exchange [] "Hello" None fresh1
              (initial studio) H)
    as (st' & Hs & Hm & Hl & _ & _ & _ & Hph & _).
  exists st'. split; [exact Hs|]. split; [exact Hm|]. split; [exact Hl|exact Hph].
Defined.


Lemma regenerate_request_carries_discarded_witness :
  phase (setMessages [userMessage; reply] (initial studio)) = Idle
  /\ messages (setMessages [userMessage; reply] (initial studio)) = [] ++ userMessage :: [reply]
  /\ role userMessage = "user"
  /\ Forall (fun x => role x <> "user") [reply]
  /\ content userMessage = Some "Hello"
  /\ ~ blank "Hello"
  /\ exists st' request prompt,
      run (builtins := reference) panelRegistry
          (setMessages [userMessage; reply] (initial studio))
          [Regenerate fresh2; Prepared 2] = Some st'
      /\ messages st'
         = [createUserMessage "msg-3" 2 "Hello" (Some []); createStreamingMessage "msg-4" 2]
      /\ phase st' = Streaming FirstPass request
      /\ map api_content (req_messages request)
         = [Some prompt; Some "Hello"; Some "Hi"; Some "Hello"].
Proof.
  assert (H1 : phase (setMessages [userMessage; reply] (initial studio)) = Idle)
    by reflexivity.
  assert (H2 : messages (setMessages [userMessage; reply] (initial studio))
               = [] ++ userMessage :: [reply]) by reflexivity.
  assert (H3 : role userMessage = "user") by reflexivity.
  assert (H4 : Forall (fun x => role x <> "user") [reply])
    by (repeat constructor; discriminate).
  assert (H5 : content userMessage = Some "Hello") by reflexivity.
  assert (H6 : ~ blank "Hello").
  { intros Hb. inversion Hb as [|c l Hc _]. vm_compute in Hc. discriminate. }
  repeat (split; [assumption|]).
  destruct (ControllerFacts.regenerate_request_carries_discarded (builtins := reference)
              panelRegistry [] userMessage [reply] "Hello" fresh2 2 _ H1 H2 H3 H4 H5 H6)
    as (st' & request & prompt & Hrun & Hm & Hph & Hreq).
  exists st', request, prompt. split; [exact Hrun|]. split; [exact Hm|].
  split; [exact Hph|]. by rewrite Hreq.
Defined.

Lemma tool_round_trip_witness :
  noNullishRejection panelRegistry
  /\ phase toolStreaming = Streaming FirstPass (requestOf toolStreaming)
  /\ messages toolStreaming
     = [createUserMessage "msg-1" 1 "Hello" (Some [])]
       ++ [merge (createStreamingMessage "msg-2" 1)
             (mkUpdates None
                (Some (Some [StreamParser.mkToolCall "call_1" "function"
                               "workspace_select_file" "{}"]))
                (Some true) None)]
  /\ StreamParser.result_toolCalls (StreamParser.getResult (streamParserRef toolStreaming))
     = Some [StreamParser.mkToolCall "call_1" "function" "workspace_select_file" "{}"]
  /\ Forall (fun c => returns (JSON_parse (Builtins := reference)
                                 (StreamParser.fn_arguments c)))
            [StreamParser.mkToolCall "call_1" "function" "workspace_select_file" "{}"]
  /\ exists st' results request' toolMessages,
      step (builtins := reference) panelRegistry toolStreaming (ResponseDone fresh2)
      = Some st'
      /\ map role (messages st') = ["user"; "assistant"; "tool_results"; "assistant"]
      /\ map toolCallId results = ["call_1"]
      /\ phase st' = Streaming SecondPass request'
      /\ req_tools request' = None
      /\ req_messages request'
         = req_messages (requestOf toolStreaming)
           ++ mkApiMessage "assistant" None None None
                (Some [StreamParser.mkToolCall "call_1" "function"
                         "workspace_select_file" "{}"])
           :: toolMessages
      /\ Forall2 answers toolMessages
           [StreamParser.mkToolCall "call_1" "function" "workspace_select_file" "{}"]
      /\ streamingMessageRef st' = None.
Proof.
  assert (H1 : phase toolStreaming = Streaming FirstPass (requestOf toolStreaming))
    by (vm_compute; reflexivity).
  assert (H2 : messages toolStreaming
     = [createUserMessage "msg-1" 1 "Hello" (Some [])]
       ++ [merge (createStreamingMessage "msg-2" 1)
             (mkUpdates None
                (Some (Some [StreamParser.mkToolCall "call_1" "function"
                               "workspace_select_file" "{}"]))
                (Some true) None)]) by (vm_compute; reflexivity).
  assert (H3 : StreamParser.result_toolCalls
                 (StreamParser.getResult (streamParserRef toolStreaming))
     = Some [StreamParser.mkToolCall "call_1" "function" "workspace_select_file" "{}"])
    by (vm_compute; reflexivity).
  assert (H4 : Forall (fun c => returns (JSON_parse (Builtins := reference)
                                           (StreamParser.fn_arguments c)))
            [StreamParser.mkToolCall "call_1" "function" "workspace_select_file" "{}"]).
  { repeat constructor. eexists. vm_compute. reflexivity. }
  split; [exact panelRegistry_values|]. repeat (split; [assumption|]).
  destruct (ControllerFacts.tool_round_trip (builtins := reference) panelRegistry
              toolStreaming _ _ _ _ fresh2 panelRegistry_values H1 H2 H3 H4)
    as (st' & results & request' & toolMessages
        & Hs & Hm & Hi & _ & Hph & Ht & Hreq & Ha & _ & Hr & _).
  exists st', results, request', toolMessages. split; [exact Hs|]. split; [by rewrite Hm|].
  split; [exact Hi|]. split; [exact Hph|]. split; [exact Ht|]. split; [exact Hreq|].
  split; [exact Ha|exact Hr].
Defined.

Lemma second_pass_ignores_tool_calls_witness :
  phase secondPass = Streaming SecondPass (requestOf secondPass)
  /\ delivery (ResponseChunk (toolCallChunk "call_2" "workspace_list_files" "{}"))
  /\ step (builtins := reference) panelRegistry secondPass
          (ResponseChunk (toolCallChunk "call_2" "workspace_list_files" "{}"))
     = Some (onChunk SecondPass (toolCallChunk "call_2" "workspace_list_files" "{}")
                     secondPass)
  /\ map toolCalls
         (messages (onChunk SecondPass (toolCallChunk "call_2" "workspace_list_files" "{}")
                            secondPass))
     = map toolCalls (messages secondPass)
  /\ toolCache (onChunk SecondPass (toolCallChunk "call_2" "workspace_list_files" "{}")
                        secondPass)
     = toolCache secondPass.
Proof.
  assert (H1 : phase secondPass = Streaming SecondPass (requestOf secondPass))
    by (vm_compute; reflexivity).
  assert (H2 : delivery (ResponseChunk (toolCallChunk "call_2" "workspace_list_files" "{}")))
    by exact I.
  assert (H3 : step (builtins := reference) panelRegistry secondPass
          (ResponseChunk (toolCallChunk "call_2" "workspace_list_files" "{}"))
     = Some (onChunk SecondPass (toolCallChunk "call_2" "workspace_list_files" "{}")
                     secondPass)) by (vm_compute; reflexivity).
  split; [exact H1|]. split; [exact H2|]. split; [exact H3|].
  destruct (ControllerFacts.second_pass_ignores_tool_calls (builtins := reference)
              panelRegistry secondPass _ _ _ H1 H2 H3) as (Ht & _ & _ & Hc).
  split; [exact Ht|exact Hc].
Defined.

Lemma ref_set_while_first_pass_pending_witness :
  mounted (setMessages [userMessage; reply] (initial studio))
  /\ run (builtins := reference) panelRegistry
         (setMessages [userMessage; reply] (initial studio))
         [Regenerate fresh2; Prepared 2] = Some regenerating
  /\ firstPassPending regenerating
  /\ is_Some (streamingMessageRef regenerating).
Proof.
  assert (H0 : mounted (setMessages [userMessage; reply] (initial studio)))
    by (repeat split).
  assert (H : run (builtins := reference) panelRegistry
                  (setMessages [userMessage; reply] (initial studio))
                  [Regenerate fresh2; Prepared 2] = Some regenerating)
    by (vm_compute; reflexivity).
  split; [exact H0|]. split; [exact H|].
  assert (Hp : firstPassPending regenerating) by (vm_compute; exact I).
  split; [exact Hp|].
  exact (proj2 (proj2 (ControllerFacts.ref_set_while_first_pass_pending
                         (builtins := reference) panelRegistry _ _ regenerating H0 H))
               Hp).
Defined.

Lemma default_capabilities_witness :
  plainRegistry !! panelTypeId plainPanel
  = Some (Studio.createPanelDefinition (mkDefinition None None None))
  /\ panelTools plainRegistry plainPanel = []
  /\ executeTool plainRegistry (cacheTools [plainTool]) (mkStore [plainPanel])
                 "plain_noop" (JObject [])
     = (Return (failure "Tool not implemented" (Some "plain_noop")), mkStore [plainPanel]).
Proof.
  assert (H : plainRegistry !! panelTypeId plainPanel
              = Some (Studio.createPanelDefinition (mkDefinition None None None)))
    by reflexivity.
  split; [exact H|].
  destruct (StudioFacts.default_capabilities (builtins := reference) plainRegistry
              (mkDefinition None None None) plainPanel (cacheTools [plainTool])
              (mkStore [plainPanel]) "plain_noop" (JObject []) plainTool H)
    as (Ht & _ & He).
  split; [exact (Ht eq_refl)|].
  exact (He eq_refl eq_refl eq_refl eq_refl).
Defined.

End WalkthroughFacts.
